(** * useXapiTracker: progress aggregation over localStorage

    A shallow embedding of the hook [useXapiTracker] (hooks/useXapiTracker):
    the storage helpers [safeParseJSON] / [safeStoreJSON], the slug
    extraction [extractActivitySlug], [calculateCompletionPercentage],
    [updateProgressSummary], [updateProgress], the accessors [getProgress] /
    [getProgressSummary] / [clearProgress], the two event handlers and the
    statement log.

    The development has two parts.
    - The first part carries the properties of the control flow, of the
      store and of the slug extraction: which statements are tracked, what
      a failing store does, which keys and which records a call leaves
      alone, what the regular expressions capture.  Its numbers are exact
      rationals ([Q], with integers [Z] for the results of [Math.round] and
      for the counters) and its objects are finite maps of their own
      properties ([gmap string _]).
    - The second part (module [Engine]) carries the properties of the
      values that the hook stores.  It follows the engine: numbers are
      IEEE-754 doubles, [JSON.stringify] writes null for a number that is
      not finite, a property read goes up the prototype chain, and the
      properties of an object are kept in their order of enumeration.

    Common conventions.
    - Strings are sequences of bytes ([string]); the three regular
      expressions of the source only inspect ASCII characters.
    - An xAPI statement is a record whose optional members are [option]s.
    - A text held by localStorage is represented by what [JSON.parse] makes
      of it (see [Text]).
    - [console] output is not modelled. *)

From Stdlib Require Import ZArith QArith Qround Qminmax String Ascii List Lia Permutation.
From Stdlib Require Import Floats.PrimFloat Floats.SpecFloat Floats.FloatOps.
From stdpp Require Import base option gmap strings list fin_maps.

Local Open Scope string_scope.
Local Open Scope Z_scope.

(** ** Control flow: normal and abrupt completion *)

(** The outcome of evaluating a piece of JavaScript: a value, or a thrown
    exception (the handlers of the source never inspect the exception). *)
Inductive Completion (A : Type) : Type :=
| Normal (a : A)
| Throw.
Arguments Normal {A} a.
Arguments Throw {A}.

Definition bindC {A B} (c : Completion A) (k : A -> Completion B) : Completion B :=
  match c with
  | Normal a => k a
  | Throw => Throw
  end.

(** [try { c } catch (error) { return handler }] *)
Definition try_catch {A} (c : Completion A) (handler : A) : A :=
  match c with
  | Normal a => a
  | Throw => handler
  end.

Notation "'let!' x ':=' c 'in' k" := (bindC c (fun x => k))
  (at level 10, x name, c at level 100, k at level 200).

(** ** Strings *)

Module JSString.

Definition chars (s : string) : list ascii := list_ascii_of_string s.
Definition of_chars (l : list ascii) : string := string_of_list_ascii l.

Fixpoint starts_with (p l : list ascii) : bool :=
  match p, l with
  | [], _ => true
  | a :: p', b :: l' => Ascii.eqb a b && starts_with p' l'
  | _ :: _, [] => false
  end.

(** [s.endsWith(suffix)] *)
Definition endsWith (s suffix : string) : bool :=
  starts_with (rev (chars suffix)) (rev (chars s)).

(** Truthiness of a string: only the empty string is falsy. *)
Definition truthy (s : string) : bool :=
  match s with
  | EmptyString => false
  | String _ _ => true
  end.

End JSString.

(** ** Regular expressions

    The fragment of ECMAScript regular expressions used by
    [extractActivitySlug], with the backtracking semantics of the language:
    quantifiers are greedy, alternatives are tried in order, and
    [String.prototype.match] returns the leftmost match.  There is a single
    capture group. *)

Module RegExp.

Inductive re : Type :=
| Lit (c : ascii)                      (* a literal character *)
| Rep (p : ascii -> bool) (min : nat)  (* greedy repetition: star (min = 0), plus (min = 1) *)
| Cat (r1 r2 : re)                     (* concatenation *)
| Opt (r : re)                         (* greedy optional non-capturing group *)
| Cap (r : re)                         (* the capture group ( r ) *)
| Eos.                                 (* end of input: dollar without the m flag *)

Section Matcher.
Context {R : Type}.

(** The continuation receives the rest of the input and the capture. *)
Definition cont : Type := list ascii -> option (list ascii) -> option R.

(** Greedy repetition of a character class: consume as many characters
    as possible, then give characters back one at a time. *)
Fixpoint rep (p : ascii -> bool) (min : nat) (s : list ascii)
    (cap : option (list ascii)) (k : cont) : option R :=
  let stop := match min with O => k s cap | S _ => None end in
  match s with
  | c :: s' =>
      if p c then
        match rep p (Nat.pred min) s' cap k with
        | Some r => Some r
        | None => stop
        end
      else stop
  | [] => stop
  end.

Fixpoint exec (r : re) (s : list ascii) (cap : option (list ascii))
    (k : cont) : option R :=
  match r with
  | Lit c =>
      match s with
      | c' :: s' => if Ascii.eqb c c' then k s' cap else None
      | [] => None
      end
  | Rep p min => rep p min s cap k
  | Cat r1 r2 => exec r1 s cap (fun s' cap' => exec r2 s' cap' k)
  | Opt r' =>
      match exec r' s cap k with
      | Some x => Some x
      | None => k s cap
      end
  | Cap r' =>
      exec r' s cap
        (fun s' _ => k s' (Some (take (length s - length s') s)))
  | Eos =>
      match s with
      | [] => k s cap
      | _ :: _ => None
      end
  end.
End Matcher.

(** The match anchored at the start of [s]: its capture group. *)
Definition match_here (r : re) (s : list ascii) : option (option (list ascii)) :=
  exec r s None (fun _ cap => Some cap).

(** Leftmost match: try every start position from left to right. *)
Fixpoint search (r : re) (s : list ascii) : option (option (list ascii)) :=
  match match_here r s with
  | Some cap => Some cap
  | None =>
      match s with
      | [] => None
      | _ :: s' => search r s'
      end
  end.

(** [s.match(r)] followed by [match[1]]; [None] when there is no match. *)
Definition match1 (r : re) (s : string) : option string :=
  match search r (JSString.chars s) with
  | Some (Some cap) => Some (JSString.of_chars cap)
  | Some None => None
  | None => None
  end.

(** The class of every character but the slash. *)
Definition not_slash (c : ascii) : bool := negb (Ascii.eqb c "/").

(** The class of ASCII letters (either case, by the i flag), digits and
    the hyphen. *)
Definition alnum_hyphen (c : ascii) : bool :=
  let n := nat_of_ascii c in
  ((97 <=? n)%nat && (n <=? 122)%nat)
  || ((65 <=? n)%nat && (n <=? 90)%nat)
  || ((48 <=? n)%nat && (n <=? 57)%nat)
  || Ascii.eqb c "-".

(** The pattern [\/ ([^/]+) $]. *)
Definition last_segment : re :=
  Cat (Lit "/") (Cat (Cap (Rep not_slash 1)) Eos).

(** The pattern [\/ ([^/]+) (?: \/ [^/]* )? $], written here with spaces
    between its parts. *)
Definition url_segment : re :=
  Cat (Lit "/")
    (Cat (Cap (Rep not_slash 1))
       (Cat (Opt (Cat (Lit "/") (Rep not_slash 0))) Eos)).

(** The pattern [([a-z0-9-]+) $] under the i flag. *)
Definition simple_slug : re :=
  Cat (Cap (Rep alnum_hyphen 1)) Eos.

End RegExp.

(** ** xAPI statements *)

Record Score : Type := {
  score_raw : option Q;      (* result.score.raw *)
  score_max : option Q       (* result.score.max *)
}.

Record Result : Type := {
  result_score : option Score;     (* result.score *)
  result_success : option bool     (* result.success *)
}.

Record Statement : Type := {
  (* statement.context?.extensions?.contentId *)
  context_contentId : option string;
  (* statement.context?.extensions?.['http://id.tincanapi.com/extension/content-id'] *)
  context_content_id : option string;
  object_id : option string;       (* statement.object?.id *)
  verb_id : option string;         (* statement.verb?.id *)
  stmt_result : option Result      (* statement.result *)
}.

(** Truthiness of an optional string: [undefined] and [""] are falsy. *)
Definition truthy_str (o : option string) : bool :=
  match o with
  | Some s => JSString.truthy s
  | None => false
  end.

(** [a || b] on optional strings. *)
Definition or_str (a b : option string) : option string :=
  if truthy_str a then a else b.

(** ** extractActivitySlug *)

Definition extractActivitySlug (statement : Statement) : string :=
  let contentId :=
    or_str (context_contentId statement) (context_content_id statement) in
  let from_contentId :=
    match contentId with
    | Some c => if JSString.truthy c then RegExp.match1 RegExp.last_segment c else None
    | None => None
    end in
  match from_contentId with
  | Some m => m
  | None =>
      let from_objectId :=
        match object_id statement with
        | Some o =>
            if JSString.truthy o then
              match RegExp.match1 RegExp.url_segment o with
              | Some m => Some m
              | None => RegExp.match1 RegExp.simple_slug o
              end
            else None
        | None => None
        end in
      match from_objectId with
      | Some m => m
      | None => "unknown-activity"
      end
  end.

(** ** calculateCompletionPercentage *)

(** [Math.round]: the nearest integer, ties towards +infinity. *)
Definition Math_round (x : Q) : Z := Qfloor (x + (1 # 2))%Q.

(** [x === 0] on numbers. *)
Definition is_zero (x : Q) : bool := Qeq_bool x 0.

Definition calculateCompletionPercentage (result : option Result) : Z :=
  match result with
  | None => 0
  | Some r =>
      match result_score r with
      | None => 0
      | Some sc =>
          let raw := default 0%Q (score_raw sc) in
          let max := default 1%Q (score_max sc) in
          if is_zero max then 0
          else Math_round ((raw / max) * 100)%Q
      end
  end.

(** ** Values held by the store *)

(** The record kept per activity (source lines 136-145). *)
Record ActivityProgress : Type := {
  slug : string;
  questionsAnswered : Z;
  questionsCompleted : Z;
  lastScore : Q;
  lastSuccess : bool;
  completionPercentage : Z;
  isCompleted : bool;
  lastActivity : string
}.

(** JSON primitives. *)
Inductive Prim : Type :=
| PNull
| PBool (b : bool)
| PNum (n : Q)
| PStr (s : string).

(** The value of a property of a stored object: a primitive, or an
    activity record. *)
Inductive PropValue : Type :=
| VPrim (p : Prim)
| VRecord (r : ActivityProgress).

(** What [JSON.parse] can return in this model: a primitive, or an object
    with string keys.  The progress mapping is an object whose properties
    are activity records; the summary is an object whose properties are
    primitives. *)
Inductive JSValue : Type :=
| JPrim (p : Prim)
| JObj (m : gmap string PropValue).

Definition truthy_prim (p : Prim) : bool :=
  match p with
  | PNull => false
  | PBool b => b
  | PNum n => negb (is_zero n)
  | PStr s => JSString.truthy s
  end.

(** Truthiness of the result of a property read ([None] is [undefined]). *)
Definition truthy_prop (v : option PropValue) : bool :=
  match v with
  | None => false
  | Some (VPrim p) => truthy_prim p
  | Some (VRecord _) => true
  end.

(** [v[k]]: reading a property of [null] throws a TypeError.  The read on
    another primitive is modelled as [undefined]; the own properties of a
    string (its length and its characters) are primitives as well, and the
    code fails on them as it does on [undefined], at the first write on a
    primitive (see [set_prop] and [as_record]). *)
Definition get_prop (v : JSValue) (k : string) : Completion (option PropValue) :=
  match v with
  | JPrim PNull => Throw
  | JPrim _ => Normal None
  | JObj m => Normal (m !! k)
  end.

(** [v[k] = x]: the hook is an ES module, hence strict code, where creating
    a property on a primitive throws a TypeError. *)
Definition set_prop (v : JSValue) (k : string) (x : PropValue) : Completion JSValue :=
  match v with
  | JPrim _ => Throw
  | JObj m => Normal (JObj (<[k := x]> m))
  end.

(** The target of the member writes [activityProgress.f = ...]: writing a
    member of a primitive throws a TypeError in strict code. *)
Definition as_record (v : option PropValue) : Completion ActivityProgress :=
  match v with
  | Some (VRecord r) => Normal r
  | Some (VPrim _) => Throw
  | None => Throw
  end.

(** ** localStorage *)

(** A stored text, represented by what [JSON.parse] makes of it. *)
Inductive Text : Type :=
| EmptyText          (* the empty string *)
| Malformed          (* a non-empty text on which JSON.parse throws a SyntaxError *)
| Json (v : JSValue) (* a non-empty text that parses to v *).

Definition truthy_text (t : Text) : bool :=
  match t with
  | EmptyText => false
  | Malformed => true
  | Json _ => true
  end.

Definition JSON_parse (t : Text) : Completion JSValue :=
  match t with
  | Json v => Normal v
  | EmptyText => Throw
  | Malformed => Throw
  end.

Definition JSON_stringify (v : JSValue) : Text := Json v.

(** The store and the two ways in which the browser makes it fail: every
    access throws when the store is not [accessible] (a SecurityError), and
    [setItem] throws when the quota is exhausted ([full]). *)
Record LocalStorage : Type := {
  entries : gmap string Text;
  accessible : bool;
  full : bool
}.

Definition with_entries (ls : LocalStorage) (e : gmap string Text) : LocalStorage :=
  {| entries := e; accessible := accessible ls; full := full ls |}.

Definition getItem (ls : LocalStorage) (key : string) : Completion (option Text) :=
  if accessible ls then Normal (entries ls !! key) else Throw.

Definition setItem (ls : LocalStorage) (key : string) (t : Text) : Completion LocalStorage :=
  if accessible ls && negb (full ls)
  then Normal (with_entries ls (<[key := t]> (entries ls)))
  else Throw.

Definition removeItem (ls : LocalStorage) (key : string) : Completion LocalStorage :=
  if accessible ls
  then Normal (with_entries ls (delete key (entries ls)))
  else Throw.

(** Storage keys *)
Definition XAPI_RECORDS_KEY : string := "xapiRecords".
Definition PROGRESS_KEY : string := "h5p-progress".
Definition PROGRESS_SUMMARY_KEY : string := "h5p-progress-summary".

(** ** safeParseJSON and safeStoreJSON *)

Definition safeParseJSON (ls : LocalStorage) (key : string) (fallback : JSValue) : JSValue :=
  try_catch
    (let! stored := getItem ls key in
     match stored with
     | Some t => if truthy_text t then JSON_parse t else Normal fallback
     | None => Normal fallback
     end)
    fallback.

Definition safeStoreJSON (ls : LocalStorage) (key : string) (data : JSValue)
    : LocalStorage * bool :=
  try_catch
    (let! ls' := setItem ls key (JSON_stringify data) in
     Normal (ls', true))
    (ls, false).

(** ** updateProgressSummary *)

(** The summary written under [PROGRESS_SUMMARY_KEY]. *)
Record ProgressSummary : Type := {
  totalActivities : nat;
  completedActivities : nat;
  completionRate : Z;
  averageScorePercent : Z;
  lastUpdated : Prim          (* an ISO string, or null in the default shape *)
}.

Definition PNat (n : nat) : PropValue := VPrim (PNum (inject_Z (Z.of_nat n))).
Definition PInt (z : Z) : PropValue := VPrim (PNum (inject_Z z)).

(** The object literal of source lines 104-110. *)
Definition summary_object (s : ProgressSummary) : JSValue :=
  JObj (<["totalActivities" := PNat (totalActivities s)]>
       (<["completedActivities" := PNat (completedActivities s)]>
       (<["completionRate" := PInt (completionRate s)]>
       (<["averageScorePercent" := PInt (averageScorePercent s)]>
       (<["lastUpdated" := VPrim (lastUpdated s)]> ∅))))).

(** [Object.values(progressData)].  The order of the properties does not
    matter to what follows: counts and exact sums. *)
Definition Object_values (m : gmap string PropValue) : list PropValue :=
  (map_to_list m).*2.

(** [a.isCompleted], as a condition. *)
Definition is_completed (a : PropValue) : Completion bool :=
  match a with
  | VPrim PNull => Throw
  | VPrim _ => Normal false
  | VRecord r => Normal (isCompleted r)
  end.

(** [a.completionPercentage > 0] *)
Definition has_score (a : PropValue) : bool :=
  match a with
  | VPrim _ => false
  | VRecord r => 0 <? completionPercentage r
  end.

(** [a.isCompleted && a.completionPercentage > 0] *)
Definition is_completed_with_score (a : PropValue) : Completion bool :=
  let! c := is_completed a in Normal (c && has_score a).

(** [sum + a.completionPercentage]; only activity records pass the filter
    that feeds the sum. *)
Definition add_percentage (sum : Z) (a : PropValue) : Z :=
  match a with
  | VRecord r => sum + completionPercentage r
  | VPrim _ => sum
  end.

(** [l.filter(p)] for a predicate that may throw. *)
Fixpoint filterC {A} (p : A -> Completion bool) (l : list A) : Completion (list A) :=
  match l with
  | [] => Normal []
  | a :: l' =>
      let! b := p a in
      let! r := filterC p l' in
      Normal (if b then a :: r else r)
  end.

Definition ratio (n d : Z) : Q := (inject_Z n / inject_Z d)%Q.

(** Source lines 93-110: the statistics of a progress mapping. *)
Definition compute_summary (now : string) (progressData : gmap string PropValue)
    : Completion ProgressSummary :=
  let activities := Object_values progressData in
  let total := length activities in
  let! completed := filterC is_completed activities in
  let completedCount := length completed in
  let rate :=
    if (0 <? total)%nat
    then Math_round (ratio (Z.of_nat completedCount) (Z.of_nat total) * 100)%Q
    else 0 in
  let! completedWithScores := filterC is_completed_with_score activities in
  let average :=
    if (0 <? length completedWithScores)%nat
    then Math_round (ratio (foldl add_percentage 0 completedWithScores)
                           (Z.of_nat (length completedWithScores)))
    else 0 in
  Normal {| totalActivities := total;
            completedActivities := completedCount;
            completionRate := rate;
            averageScorePercent := average;
            lastUpdated := PStr now |}.

(** Source lines 91-118.  The only call passes the object that
    [updateProgress] has just updated, hence the type of [progressData]. *)
Definition updateProgressSummary (now : string) (ls : LocalStorage)
    (progressData : gmap string PropValue) : LocalStorage :=
  try_catch
    (let! summary := compute_summary now progressData in
     Normal (safeStoreJSON ls PROGRESS_SUMMARY_KEY (summary_object summary)).1)
    ls.

(** ** updateProgress *)

(** The three readings of the clock ([new Date().toISOString()]) that one
    call can make: source lines 144, 172 and 109. *)
Record Clock : Type := {
  now_created : string;
  now_activity : string;
  now_summary : string
}.

(** The record created for a slug without one (source lines 136-145). *)
Definition initial_progress (s now : string) : ActivityProgress :=
  {| slug := s;
     questionsAnswered := 0;
     questionsCompleted := 0;
     lastScore := 0%Q;
     lastSuccess := false;
     completionPercentage := 0;
     isCompleted := false;
     lastActivity := now |}.

(** [result.score?.raw || 0] *)
Definition score_or_zero (result : Result) : Q :=
  match result_score result with
  | Some sc =>
      match score_raw sc with
      | Some q => if is_zero q then 0%Q else q
      | None => 0%Q
      end
  | None => 0%Q
  end.

(** [result.success || false] *)
Definition success_or_false (result : Result) : bool :=
  default false (result_success result).

(** Source lines 153-157 and 164-168: [if (result) { ... }]. *)
Definition record_result (result : option Result) (r : ActivityProgress)
    : ActivityProgress :=
  match result with
  | Some res =>
      {| slug := slug r;
         questionsAnswered := questionsAnswered r;
         questionsCompleted := questionsCompleted r;
         lastScore := score_or_zero res;
         lastSuccess := success_or_false res;
         completionPercentage := calculateCompletionPercentage result;
         isCompleted := isCompleted r;
         lastActivity := lastActivity r |}
  | None => r
  end.

(** Source lines 151-159. *)
Definition on_answered (result : option Result) (r : ActivityProgress)
    : ActivityProgress :=
  record_result result
    {| slug := slug r;
       questionsAnswered := questionsAnswered r + 1;
       questionsCompleted := questionsCompleted r;
       lastScore := lastScore r;
       lastSuccess := lastSuccess r;
       completionPercentage := completionPercentage r;
       isCompleted := isCompleted r;
       lastActivity := lastActivity r |}.

(** Source lines 161-170. *)
Definition on_completed (result : option Result) (r : ActivityProgress)
    : ActivityProgress :=
  record_result result
    {| slug := slug r;
       questionsAnswered := questionsAnswered r;
       questionsCompleted := questionsCompleted r + 1;
       lastScore := lastScore r;
       lastSuccess := lastSuccess r;
       completionPercentage := completionPercentage r;
       isCompleted := true;
       lastActivity := lastActivity r |}.

(** Source line 172. *)
Definition touch (now : string) (r : ActivityProgress) : ActivityProgress :=
  {| slug := slug r;
     questionsAnswered := questionsAnswered r;
     questionsCompleted := questionsCompleted r;
     lastScore := lastScore r;
     lastSuccess := lastSuccess r;
     completionPercentage := completionPercentage r;
     isCompleted := isCompleted r;
     lastActivity := now |}.

(** [verb.endsWith(suffix)] for the optional verb. *)
Definition verb_endsWith (verb : option string) (suffix : string) : bool :=
  match verb with
  | Some v => JSString.endsWith v suffix
  | None => false
  end.

(** Source line 128: the test that makes [updateProgress] return early,
    [!verb || (!verb.endsWith('/answered') && !verb.endsWith('/completed'))]. *)
Definition not_tracked (verb : option string) : bool :=
  negb (truthy_str verb)
  || (negb (verb_endsWith verb "/answered")
      && negb (verb_endsWith verb "/completed")).

(** A statement qualifies when it passes that test. *)
Definition qualifies (verb : option string) : bool := negb (not_tracked verb).

(** The member writes of lines 151-172 on the object [activityProgress]. *)
Definition apply_verb (clock : Clock) (verb : option string)
    (result : option Result) (r : ActivityProgress) : ActivityProgress :=
  let r1 := if verb_endsWith verb "/answered" then on_answered result r else r in
  let r2 := if verb_endsWith verb "/completed" then on_completed result r1 else r1 in
  touch (now_activity clock) r2.

(** The body of the [try] block, after the verb test (source lines
    132-178).  [activityProgress] aliases the object stored in
    [currentProgress] under the slug: its updated state is what
    [currentProgress] holds when it is serialised.  Every exception is thrown
    before the first write to the store; [currentProgress] is an object once
    the writes on it have succeeded. *)
Definition updateProgress_body (clock : Clock) (ls : LocalStorage)
    (s : string) (verb : option string) (result : option Result)
    : Completion LocalStorage :=
  let currentProgress := safeParseJSON ls PROGRESS_KEY (JObj ∅) in
  let! existing := get_prop currentProgress s in
  let! currentProgress :=
    (if negb (truthy_prop existing)
     then set_prop currentProgress s (VRecord (initial_progress s (now_created clock)))
     else Normal currentProgress) in
  let! entry := get_prop currentProgress s in
  let! activityProgress := as_record entry in
  let! currentProgress :=
    set_prop currentProgress s (VRecord (apply_verb clock verb result activityProgress)) in
  match currentProgress with
  | JPrim _ => Throw
  | JObj progressData =>
      let ls1 := (safeStoreJSON ls PROGRESS_KEY currentProgress).1 in
      Normal (updateProgressSummary (now_summary clock) ls1 progressData)
  end.

Definition updateProgress (clock : Clock) (ls : LocalStorage) (statement : Statement)
    : LocalStorage :=
  let s := extractActivitySlug statement in
  let verb := verb_id statement in
  let result := stmt_result statement in
  if not_tracked verb then ls
  else try_catch (updateProgress_body clock ls s verb result) ls.

(** ** Public accessors *)

Definition getProgress (ls : LocalStorage) : JSValue :=
  safeParseJSON ls PROGRESS_KEY (JObj ∅).

Definition default_summary : ProgressSummary :=
  {| totalActivities := 0;
     completedActivities := 0;
     completionRate := 0;
     averageScorePercent := 0;
     lastUpdated := PNull |}.

Definition getProgressSummary (ls : LocalStorage) : JSValue :=
  safeParseJSON ls PROGRESS_SUMMARY_KEY (summary_object default_summary).

Definition clearProgress (ls : LocalStorage) : LocalStorage * bool :=
  try_catch
    (let! ls1 := removeItem ls PROGRESS_KEY in
     let! ls2 := removeItem ls1 PROGRESS_SUMMARY_KEY in
     Normal (ls2, true))
    (ls, false).

(** A tracked event: the clock readings of the call and the statement. *)
Definition Event : Type := Clock * Statement.

(** The store after a sequence of calls of [updateProgress]. *)
Definition run (ls : LocalStorage) (events : list Event) : LocalStorage :=
  foldl (fun st e => updateProgress e.1 st e.2) ls events.


(** ** Views of the store used to state the properties *)

(** The property [s] of the value returned by [getProgress]. *)
Definition progress_entry (ls : LocalStorage) (s : string) : option PropValue :=
  match getProgress ls with
  | JObj m => m !! s
  | JPrim _ => None
  end.

(** The progress record of the slug [s], if there is one. *)
Definition progress_record (ls : LocalStorage) (s : string) : option ActivityProgress :=
  match progress_entry ls s with
  | Some (VRecord r) => Some r
  | Some (VPrim _) => None
  | None => None
  end.

Definition is_record (v : PropValue) : bool :=
  match v with
  | VRecord _ => true
  | VPrim _ => false
  end.

(** A progress mapping: every property is an activity record. *)
Definition progress_mapping (m : gmap string PropValue) : Prop :=
  map_Forall (fun _ v => is_record v = true) m.

(** The stores of the normal flow: the browser lets the hook read and write,
    and the progress key is absent or holds a progress mapping, as it does
    when only [updateProgress] and [clearProgress] write to it. *)
Definition well_formed (ls : LocalStorage) : Prop :=
  accessible ls = true /\
  full ls = false /\
  match entries ls !! PROGRESS_KEY with
  | None => True
  | Some (Json (JObj m)) => progress_mapping m
  | Some _ => False
  end.

(** The record that [updateProgress] works on: the stored one, or the one
    it creates. *)
Definition current_record (clock : Clock) (ls : LocalStorage) (s : string)
    : ActivityProgress :=
  default (initial_progress s (now_created clock)) (progress_record ls s).

(** A store without entries, in working order. *)
Definition empty_storage : LocalStorage :=
  {| entries := ∅; accessible := true; full := false |}.

(** A statement that carries only an object identifier. *)
Definition statement_of_object (id : string) : Statement :=
  {| context_contentId := None;
     context_content_id := None;
     object_id := Some id;
     verb_id := None;
     stmt_result := None |}.

(** A statement with a verb, an object identifier and a result. *)
Definition statement_of (verb id : string) (result : option Result) : Statement :=
  {| context_contentId := None;
     context_content_id := None;
     object_id := Some id;
     verb_id := Some verb;
     stmt_result := result |}.

Definition scored (raw max : Q) : Result :=
  {| result_score := Some {| score_raw := Some raw; score_max := Some max |};
     result_success := None |}.

Definition sample_clock : Clock :=
  {| now_created := "2025-09-29T12:00:00.000Z";
     now_activity := "2025-09-29T12:00:00.001Z";
     now_summary := "2025-09-29T12:00:00.002Z" |}.

Definition ANSWERED : string := "http://adlnet.gov/expapi/verbs/answered".
Definition COMPLETED : string := "http://adlnet.gov/expapi/verbs/completed".
Definition ATTEMPTED : string := "http://adlnet.gov/expapi/verbs/attempted".

(** ** The summary in closed form *)

Definition as_activity (a : PropValue) : option ActivityProgress :=
  match a with
  | VRecord r => Some r
  | VPrim _ => None
  end.

(** The activity records of a mapping. *)
Definition activity_records (m : gmap string PropValue) : list ActivityProgress :=
  omap as_activity (Object_values m).

Definition sum_percentages (rs : list ActivityProgress) : Z :=
  foldr (fun r acc => completionPercentage r + acc) 0 rs.

(** The rounded mean of the completion percentages of [rs], 0 for none. *)
Definition rounded_mean (rs : list ActivityProgress) : Z :=
  match rs with
  | [] => 0
  | _ :: _ => Math_round (ratio (sum_percentages rs) (Z.of_nat (length rs)))
  end.

(** Rounded percentage of [n] out of [d], 0 when [d] is 0. *)
Definition rounded_rate (n d : nat) : Z :=
  match d with
  | O => 0
  | S _ => Math_round (ratio (Z.of_nat n) (Z.of_nat d) * 100)%Q
  end.

Definition completed_records (rs : list ActivityProgress) : list ActivityProgress :=
  List.filter isCompleted rs.

(** The completed activities whose completion percentage is positive. *)
Definition completed_with_positive (rs : list ActivityProgress) : list ActivityProgress :=
  List.filter (fun r => isCompleted r && (0 <? completionPercentage r)) rs.

(** [a.isCompleted] as a condition, for an activity that is not null. *)
Definition completed_value (a : PropValue) : bool :=
  match a with
  | VRecord r => isCompleted r
  | VPrim _ => false
  end.

(** The summary of a mapping, in closed form. *)
Definition summary_of (now : string) (m : gmap string PropValue) : ProgressSummary :=
  let rs := activity_records m in
  {| totalActivities := size m;
     completedActivities := length (completed_records rs);
     completionRate := rounded_rate (length (completed_records rs)) (size m);
     averageScorePercent := rounded_mean (completed_with_positive rs);
     lastUpdated := PStr now |}.

(** ** Histories *)

(** A statement whose activity is named by the content identifier of its
    context. *)
Definition statement_for (verb contentId : string) (result : option Result) : Statement :=
  {| context_contentId := Some contentId;
     context_content_id := None;
     object_id := None;
     verb_id := Some verb;
     stmt_result := result |}.

(** A store of the normal flow with one activity. *)
Definition sample_record : ActivityProgress :=
  {| slug := "personality-quiz";
     questionsAnswered := 4;
     questionsCompleted := 0;
     lastScore := 1%Q;
     lastSuccess := true;
     completionPercentage := 100;
     isCompleted := false;
     lastActivity := "2025-09-29T11:59:00.000Z" |}.

Definition sample_storage : LocalStorage :=
  with_entries empty_storage
    (<[PROGRESS_KEY := Json (JObj {[ "personality-quiz" := VRecord sample_record ]})]> ∅).

(** ** Further views and sample data *)

(** Every record sits under the key that its slug member names. *)
Definition slugs_consistent (ls : LocalStorage) : Prop :=
  forall k r, progress_record ls k = Some r -> slug r = k.

(** A store whose progress key holds the text of the number 0, and which
    holds the theme preference that the application keeps beside it. *)
Definition stuck_storage : LocalStorage :=
  with_entries empty_storage
    (<[PROGRESS_KEY := Json (JPrim (PNum 0))]> (<["demo-theme" := Malformed]> ∅)).

Definition full_storage : LocalStorage :=
  {| entries := entries sample_storage; accessible := true; full := true |}.

(** A qualifying statement for the slug [s]. *)
Definition tracked_for (s : string) (e : Event) : bool :=
  qualifies (verb_id e.2) && String.eqb (extractActivitySlug e.2) s.

(** A pattern without capture group. *)
Fixpoint capture_free (r : RegExp.re) : bool :=
  match r with
  | RegExp.Lit _ => true
  | RegExp.Rep _ _ => true
  | RegExp.Cat r1 r2 => capture_free r1 && capture_free r2
  | RegExp.Opt r' => capture_free r'
  | RegExp.Cap _ => false
  | RegExp.Eos => true
  end.

(** A statement that carries an object identifier and, in its context, the
    two content identifiers. *)
Definition statement_with (contentId content_id object : option string) : Statement :=
  {| context_contentId := contentId;
     context_content_id := content_id;
     object_id := object;
     verb_id := None;
     stmt_result := None |}.

(** A completed activity with a negative completion percentage, as left by
    a result with raw -5 of max 10. *)
Definition negative_record : ActivityProgress :=
  {| slug := "personality-quiz";
     questionsAnswered := 0;
     questionsCompleted := 1;
     lastScore := (-5)%Q;
     lastSuccess := false;
     completionPercentage := -50;
     isCompleted := true;
     lastActivity := "2025-09-29T12:00:00.001Z" |}.

(** A mapping with a completed activity of negative percentage and an
    activity that is not completed. *)
Definition sample_mapping : gmap string PropValue :=
  <["personality-quiz" := VRecord negative_record]>
    {["other-quiz" := VRecord sample_record]}.

(** ** The statement log and the event handlers *)

(** An entry of the log (source lines 195-199 and 222-226). *)
Record XapiRecord : Type := {
  record_timestamp : string;
  record_statement : Statement;
  record_source : string
}.

(** What [JSON.parse] returns for the text under [XAPI_RECORDS_KEY]: an
    array of log entries, or a value that is not an array. *)
Inductive LogValue : Type :=
| LogArray (l : list XapiRecord)
| LogOther (v : JSValue).

Inductive LogText : Type :=
| LogEmpty                (* the empty string *)
| LogMalformed            (* a non-empty text on which JSON.parse throws *)
| LogJson (v : LogValue)  (* a non-empty text that parses to v *).

(** The browser store as the handlers use it.  The text under
    [XAPI_RECORDS_KEY] is kept in [log], apart from the other entries, as
    its value is an array; the failure flags of [storage] rule every
    access. *)
Record Tracker : Type := {
  storage : LocalStorage;
  log : option LogText
}.

Definition truthy_log_text (t : LogText) : bool :=
  match t with
  | LogEmpty => false
  | LogMalformed => true
  | LogJson _ => true
  end.

Definition JSON_parse_log (t : LogText) : Completion LogValue :=
  match t with
  | LogJson v => Normal v
  | LogEmpty => Throw
  | LogMalformed => Throw
  end.

(** [localStorage.getItem(XAPI_RECORDS_KEY)] *)
Definition getItem_log (t : Tracker) : Completion (option LogText) :=
  if accessible (storage t) then Normal (log t) else Throw.

(** [localStorage.setItem(XAPI_RECORDS_KEY, JSON.stringify(data))] *)
Definition setItem_log (t : Tracker) (data : LogValue) : Completion Tracker :=
  if accessible (storage t) && negb (full (storage t))
  then Normal {| storage := storage t; log := Some (LogJson data) |}
  else Throw.

(** [safeParseJSON(XAPI_RECORDS_KEY, fallback)] *)
Definition safeParseJSON_log (t : Tracker) (fallback : LogValue) : LogValue :=
  try_catch
    (let! stored := getItem_log t in
     match stored with
     | Some text => if truthy_log_text text then JSON_parse_log text else Normal fallback
     | None => Normal fallback
     end)
    fallback.

(** [safeStoreJSON(XAPI_RECORDS_KEY, data)] *)
Definition safeStoreJSON_log (t : Tracker) (data : LogValue) : Tracker * bool :=
  try_catch
    (let! t' := setItem_log t data in
     Normal (t', true))
    (t, false).

(** [currentRecords.push(newRecord)]: only an array has the method; the call
    throws a TypeError on any other value. *)
Definition push (v : LogValue) (r : XapiRecord) : Completion LogValue :=
  match v with
  | LogArray l => Normal (LogArray (l ++ [r]))
  | LogOther _ => Throw
  end.

(** The payload of an xAPI event: [event.detail?.statement] and
    [event.data?.statement]. *)
Record XapiEvent : Type := {
  detail_statement : option Statement;
  data_statement : option Statement
}.

(** The readings of the clock during one call of a handler: the time stamp
    of the log entry, and the readings of [updateProgress]. *)
Record HandlerClock : Type := {
  now_record : string;
  progress_clock : Clock
}.

(** The part that the two handlers share (source lines 193-205 and
    220-232), for the source tag [source]. *)
Definition record_and_track (source : string) (clock : HandlerClock) (t : Tracker)
    (statement : Statement) : Completion Tracker :=
  let currentRecords := safeParseJSON_log t (LogArray []) in
  let newRecord :=
    {| record_timestamp := now_record clock;
       record_statement := statement;
       record_source := source |} in
  let! currentRecords := push currentRecords newRecord in
  let t1 := (safeStoreJSON_log t currentRecords).1 in
  Normal {| storage := updateProgress (progress_clock clock) (storage t1) statement;
            log := log t1 |}.

(** [event.detail?.statement || event.data?.statement] *)
Definition document_statement (event : XapiEvent) : option Statement :=
  match detail_statement event with
  | Some s => Some s
  | None => data_statement event
  end.

Definition handleDocumentXapiEvent (clock : HandlerClock) (t : Tracker)
    (event : XapiEvent) : Tracker :=
  match document_statement event with
  | None => t
  | Some statement =>
      try_catch (record_and_track "document" clock t statement) t
  end.

Definition handleH5PXapiEvent (clock : HandlerClock) (t : Tracker)
    (event : XapiEvent) : Tracker :=
  match data_statement event with
  | None => t
  | Some statement =>
      try_catch (record_and_track "H5P.externalDispatcher" clock t statement) t
  end.

Definition getRecords (t : Tracker) : LogValue :=
  safeParseJSON_log t (LogArray []).

Definition clearRecords (t : Tracker) : Tracker * bool :=
  if accessible (storage t)
  then ({| storage := storage t; log := None |}, true)
  else (t, false).

(** The two listeners. *)
Inductive Ingress : Type :=
| FromDocument
| FromDispatcher.

(** One delivery of an event to a listener. *)
Record Delivery : Type := {
  ingress : Ingress;
  delivery_clock : HandlerClock;
  delivery_event : XapiEvent
}.

Definition deliver (t : Tracker) (d : Delivery) : Tracker :=
  match ingress d with
  | FromDocument => handleDocumentXapiEvent (delivery_clock d) t (delivery_event d)
  | FromDispatcher => handleH5PXapiEvent (delivery_clock d) t (delivery_event d)
  end.

(** The store after a sequence of deliveries. *)
Definition deliver_all (t : Tracker) (ds : list Delivery) : Tracker :=
  foldl deliver t ds.

(** The statement that a delivery carries, as its listener reads it. *)
Definition delivered_statement (d : Delivery) : option Statement :=
  match ingress d with
  | FromDocument => document_statement (delivery_event d)
  | FromDispatcher => data_statement (delivery_event d)
  end.

Definition source_tag (i : Ingress) : string :=
  match i with
  | FromDocument => "document"
  | FromDispatcher => "H5P.externalDispatcher"
  end.

(** The log entry of a delivery, if it carries a statement. *)
Definition record_of (d : Delivery) : option XapiRecord :=
  match delivered_statement d with
  | Some statement =>
      Some {| record_timestamp := now_record (delivery_clock d);
              record_statement := statement;
              record_source := source_tag (ingress d) |}
  | None => None
  end.

(** The call of [updateProgress] that a delivery makes, if it carries a
    statement. *)
Definition progress_event_of (d : Delivery) : option Event :=
  match delivered_statement d with
  | Some statement => Some (progress_clock (delivery_clock d), statement)
  | None => None
  end.

Definition empty_tracker : Tracker :=
  {| storage := empty_storage; log := None |}.

Definition sample_handler_clock : HandlerClock :=
  {| now_record := "2025-09-29T12:00:00.000Z"; progress_clock := sample_clock |}.

Definition event_with_data (statement : Statement) : XapiEvent :=
  {| detail_statement := None; data_statement := Some statement |}.

Definition event_with_detail (statement : Statement) : XapiEvent :=
  {| detail_statement := Some statement; data_statement := None |}.

(** ** The zoom controls of the application (App.jsx) *)

(** [z => Math.min(z + 0.1, 2)] *)
Definition handleZoomIn (z : Q) : Q := Qmin (z + (1 # 10)) 2.

(** [z => Math.max(z - 0.1, 0.5)] *)
Definition handleZoomOut (z : Q) : Q := Qmax (z - (1 # 10)) (1 # 2).

Inductive ZoomClick : Type :=
| ZoomIn
| ZoomOut.

Definition zoom_click (z : Q) (c : ZoomClick) : Q :=
  match c with
  | ZoomIn => handleZoomIn z
  | ZoomOut => handleZoomOut z
  end.

(** The zoom after a sequence of clicks, from the initial zoom 1. *)
Definition zoom_after (clicks : list ZoomClick) : Q :=
  foldl zoom_click 1%Q clicks.

(** * The engine model

    The definitions above compute with exact numbers and look only at the
    own properties of an object.  This part follows the engine where that
    matters to what the hook stores:
    - a number is an IEEE-754 double ([float]): the counters, the ratios
      and [Math.round] are computed in double precision;
    - [JSON.stringify] writes a number that is not finite as [null] and
      negative zero as [0], so that what is read back from the store can
      differ from what was in memory;
    - a property read goes up the prototype chain: a key that names a
      property of [Object.prototype] is found on every object;
    - the properties of an object are kept in the order in which the engine
      enumerates them, which is the order of the sum in
      [updateProgressSummary].
    The texts of the store are texts of objects here; the texts of
    primitives are those of the first part.  The member writes that land on
    an object of the realm (a built-in function, or [Object.prototype]
    itself for the slug "__proto__") are not part of the store and are not
    recorded: every call is evaluated with the properties that
    [Object.prototype] has when the page is loaded. *)

Module Engine.

(** ** Numbers *)

(** The double nearest to an integer (ties to even): the value of an
    integer literal, and of the length of an array. *)
Definition of_Z (z : Z) : float := SF2Prim (binary_normalize prec emax z 0 false).

Definition of_nat (n : nat) : float := of_Z (Z.of_nat n).

(** ToBoolean on numbers: 0, -0 and NaN are falsy. *)
Definition truthy_number (x : float) : bool := negb (PrimFloat.is_zero x || is_nan x).

(** 2^52: from there on every double is an integer. *)
Definition two52 : float := 4503599627370496%float.

(** [Math.round]: the integer nearest to [x], the greater one when two are
    equally near; NaN, the infinities and the zeros are returned as they
    are, and a negative [x] that rounds to zero gives -0.
    For |x| below 2^52, [(|x| + 2^52) - 2^52] is |x| rounded to an integer,
    from which the floor of |x| and then the floor of [x] follow; the
    distance of [x] to its floor is exact. *)
Definition Math_round (x : float) : float :=
  if negb (is_finite x) then x
  else if PrimFloat.is_zero x then x
  else if (two52 <=? abs x)%float then x
  else
    let a := abs x in
    let t := ((a + two52) - two52)%float in
    let floor_a := if (a <? t)%float then (t - 1)%float else t in
    if (0 <? x)%float then
      (if (0.5 <=? x - floor_a)%float then (floor_a + 1)%float else floor_a)
    else
      let floor_x := if (floor_a =? a)%float then x else (- (floor_a + 1))%float in
      let r := if (0.5 <=? x - floor_x)%float then (floor_x + 1)%float else floor_x in
      if PrimFloat.is_zero r then (-0)%float else r.

(** ** xAPI statements *)

Record Score : Type := {
  score_raw : option float;      (* result.score.raw *)
  score_max : option float       (* result.score.max *)
}.

Record Result : Type := {
  result_score : option Score;     (* result.score *)
  result_success : option bool     (* result.success *)
}.

Record XapiStatement : Type := {
  (* statement.context?.extensions?.contentId *)
  st_contentId : option string;
  (* statement.context?.extensions?.['http://id.tincanapi.com/extension/content-id'] *)
  st_content_id : option string;
  st_object_id : option string;    (* statement.object?.id *)
  st_verb_id : option string;      (* statement.verb?.id *)
  st_result : option Result        (* statement.result *)
}.

(** The slug depends on the context and on the object only: it is the one
    that [extractActivitySlug] of the first part computes. *)
Definition extractActivitySlug (statement : XapiStatement) : string :=
  extractActivitySlug
    {| context_contentId := st_contentId statement;
       context_content_id := st_content_id statement;
       object_id := st_object_id statement;
       verb_id := st_verb_id statement;
       stmt_result := None |}.

(** ** calculateCompletionPercentage *)

Definition calculateCompletionPercentage (result : option Result) : float :=
  match result with
  | None => 0%float
  | Some r =>
      match result_score r with
      | None => 0%float
      | Some sc =>
          let raw := default 0%float (score_raw sc) in
          let max := default 1%float (score_max sc) in
          if PrimFloat.is_zero max then 0%float
          else Math_round ((raw / max) * 100)%float
      end
  end.

(** ** Values held by the store *)

(** A member that holds a number, or [null]: what [JSON.parse] returns for
    a member that held a number that was not finite when it was written. *)
Inductive Numeric : Type :=
| Null
| Num (x : float).

(** ToNumber *)
Definition ToNumber (n : Numeric) : float :=
  match n with
  | Null => 0%float
  | Num x => x
  end.

(** The record kept per activity (source lines 136-145). *)
Record ActivityProgress : Type := {
  slug : string;
  questionsAnswered : Numeric;
  questionsCompleted : Numeric;
  lastScore : Numeric;
  lastSuccess : bool;
  completionPercentage : Numeric;
  isCompleted : bool;
  lastActivity : string
}.

(** JSON primitives. *)
Inductive Prim : Type :=
| PNull
| PBool (b : bool)
| PNum (x : float)
| PStr (s : string).

(** The value of a property of a stored object: a primitive, or an
    activity record. *)
Inductive PropValue : Type :=
| VPrim (p : Prim)
| VRecord (r : ActivityProgress).

(** An object with string keys: its own properties, in the order of
    enumeration (array indices in ascending order, then the other keys by
    creation). *)
Definition Obj : Type := list (string * PropValue).

Definition truthy_prim (p : Prim) : bool :=
  match p with
  | PNull => false
  | PBool b => b
  | PNum x => truthy_number x
  | PStr s => JSString.truthy s
  end.

(** The own property [k] of an object. *)
Fixpoint own_property (k : string) (o : Obj) : option PropValue :=
  match o with
  | [] => None
  | (k', v) :: rest => if String.eqb k' k then Some v else own_property k rest
  end.

(** The keys that every object inherits from [Object.prototype]. *)
Definition Object_prototype : list string :=
  [ "constructor"; "hasOwnProperty"; "isPrototypeOf"; "propertyIsEnumerable";
    "toLocaleString"; "toString"; "valueOf"; "__proto__";
    "__defineGetter__"; "__defineSetter__"; "__lookupGetter__"; "__lookupSetter__" ].

Definition inherited (k : string) : bool :=
  existsb (String.eqb k) Object_prototype.

(** What a property read finds. *)
Inductive Property : Type :=
| Undefined                (* nothing *)
| Own (v : PropValue)      (* an own property of the object *)
| Inherited                (* a property of Object.prototype: a built-in
                              function, or Object.prototype itself *).

(** [o[k]] *)
Definition get_prop (o : Obj) (k : string) : Property :=
  match own_property k o with
  | Some v => Own v
  | None => if inherited k then Inherited else Undefined
  end.

(** Truthiness of what a property read finds; objects are truthy. *)
Definition truthy_property (p : Property) : bool :=
  match p with
  | Undefined => false
  | Own (VPrim p) => truthy_prim p
  | Own (VRecord _) => true
  | Inherited => true
  end.

(** The array index that a key denotes: a decimal numeral without leading
    zero, at most 2^32 - 2. *)
Definition digit (c : ascii) : option N :=
  let n := N_of_ascii c in
  if ((48 <=? n) && (n <=? 57))%N then Some (n - 48)%N else None.

Fixpoint decimal (acc : N) (l : list ascii) : option N :=
  match l with
  | [] => Some acc
  | c :: l' =>
      match digit c with
      | Some d => decimal (10 * acc + d)%N l'
      | None => None
      end
  end.

Definition array_index (k : string) : option N :=
  match JSString.chars k with
  | [] => None
  | c :: l =>
      if Ascii.eqb c "0" && negb (Nat.eqb (length l) 0) then None
      else
        match decimal 0 (c :: l) with
        | Some n => if (n <=? 4294967294)%N then Some n else None
        | None => None
        end
  end.

(** A new property with the array index [i] goes after the smaller indices
    and before everything else. *)
Fixpoint add_index (i : N) (k : string) (v : PropValue) (o : Obj) : Obj :=
  match o with
  | [] => [(k, v)]
  | (k', v') :: rest =>
      match array_index k' with
      | Some j => if (j <? i)%N then (k', v') :: add_index i k v rest else (k, v) :: o
      | None => (k, v) :: o
      end
  end.

(** A new own property: among the array indices if its key is one, and
    last otherwise. *)
Definition define_property (k : string) (v : PropValue) (o : Obj) : Obj :=
  match array_index k with
  | Some i => add_index i k v o
  | None => (o ++ [(k, v)])%list
  end.

(** The write on an existing own property keeps its place. *)
Fixpoint replace_property (k : string) (v : PropValue) (o : Obj) : Obj :=
  match o with
  | [] => []
  | (k', v') :: rest =>
      if String.eqb k' k then (k', v) :: rest
      else (k', v') :: replace_property k v rest
  end.

(** [o[k] = v], for a key that is an own property of [o] or that the read
    [o[k]] does not find (the hook assigns in no other case). *)
Definition set_prop (o : Obj) (k : string) (v : PropValue) : Obj :=
  match own_property k o with
  | Some _ => replace_property k v o
  | None => define_property k v o
  end.

(** ** JSON *)

(** What [JSON.parse (JSON.stringify x)] makes of a number: NaN and the
    infinities are written as null, and -0 as 0. *)
Definition stored_number (x : float) : Numeric :=
  if is_finite x then (if PrimFloat.is_zero x then Num 0%float else Num x) else Null.

Definition normalize_numeric (n : Numeric) : Numeric :=
  match n with
  | Null => Null
  | Num x => stored_number x
  end.

Definition normalize_prim (p : Prim) : Prim :=
  match p with
  | PNum x =>
      match stored_number x with
      | Null => PNull
      | Num y => PNum y
      end
  | _ => p
  end.

Definition normalize_record (r : ActivityProgress) : ActivityProgress :=
  {| slug := slug r;
     questionsAnswered := normalize_numeric (questionsAnswered r);
     questionsCompleted := normalize_numeric (questionsCompleted r);
     lastScore := normalize_numeric (lastScore r);
     lastSuccess := lastSuccess r;
     completionPercentage := normalize_numeric (completionPercentage r);
     isCompleted := isCompleted r;
     lastActivity := lastActivity r |}.

Definition normalize_value (v : PropValue) : PropValue :=
  match v with
  | VPrim p => VPrim (normalize_prim p)
  | VRecord r => VRecord (normalize_record r)
  end.

Definition normalize (o : Obj) : Obj :=
  List.map (fun kv => (kv.1, normalize_value kv.2)) o.

(** A stored text, represented by what [JSON.parse] makes of it. *)
Inductive Text : Type :=
| EmptyText          (* the empty string *)
| Malformed          (* a non-empty text on which JSON.parse throws a SyntaxError *)
| Json (o : Obj)     (* the text of an object, which parses to o *).

Definition truthy_text (t : Text) : bool :=
  match t with
  | EmptyText => false
  | Malformed => true
  | Json _ => true
  end.

Definition JSON_parse (t : Text) : Completion Obj :=
  match t with
  | Json o => Normal o
  | EmptyText => Throw
  | Malformed => Throw
  end.

(** The text of an object is the text of what is left of it once its
    numbers are written. *)
Definition JSON_stringify (o : Obj) : Text := Json (normalize o).

(** ** localStorage *)

Record LocalStorage : Type := {
  entries : gmap string Text;
  accessible : bool;
  full : bool
}.

Definition with_entries (ls : LocalStorage) (e : gmap string Text) : LocalStorage :=
  {| entries := e; accessible := accessible ls; full := full ls |}.

Definition getItem (ls : LocalStorage) (key : string) : Completion (option Text) :=
  if accessible ls then Normal (entries ls !! key) else Throw.

Definition setItem (ls : LocalStorage) (key : string) (t : Text) : Completion LocalStorage :=
  if accessible ls && negb (full ls)
  then Normal (with_entries ls (<[key := t]> (entries ls)))
  else Throw.

Definition safeParseJSON (ls : LocalStorage) (key : string) (fallback : Obj) : Obj :=
  try_catch
    (let! stored := getItem ls key in
     match stored with
     | Some t => if truthy_text t then JSON_parse t else Normal fallback
     | None => Normal fallback
     end)
    fallback.

Definition safeStoreJSON (ls : LocalStorage) (key : string) (data : Obj)
    : LocalStorage * bool :=
  try_catch
    (let! ls' := setItem ls key (JSON_stringify data) in
     Normal (ls', true))
    (ls, false).

(** ** updateProgressSummary *)

Record ProgressSummary : Type := {
  totalActivities : nat;
  completedActivities : nat;
  completionRate : float;
  averageScorePercent : float;
  lastUpdated : string
}.

(** The object literal of source lines 104-110. *)
Definition summary_object (s : ProgressSummary) : Obj :=
  [ ("totalActivities", VPrim (PNum (of_nat (totalActivities s))));
    ("completedActivities", VPrim (PNum (of_nat (completedActivities s))));
    ("completionRate", VPrim (PNum (completionRate s)));
    ("averageScorePercent", VPrim (PNum (averageScorePercent s)));
    ("lastUpdated", VPrim (PStr (lastUpdated s))) ].

(** [Object.values(progressData)] *)
Definition Object_values (o : Obj) : list PropValue := List.map snd o.

(** [a.isCompleted], as a condition: the read throws on null and finds
    nothing on another primitive. *)
Definition is_completed (a : PropValue) : Completion bool :=
  match a with
  | VPrim PNull => Throw
  | VPrim _ => Normal false
  | VRecord r => Normal (isCompleted r)
  end.

(** [a.completionPercentage > 0]; null compares as 0. *)
Definition has_score (a : PropValue) : bool :=
  match a with
  | VPrim _ => false
  | VRecord r => (0 <? ToNumber (completionPercentage r))%float
  end.

(** [a.isCompleted && a.completionPercentage > 0] *)
Definition is_completed_with_score (a : PropValue) : Completion bool :=
  let! c := is_completed a in Normal (c && has_score a).

(** [sum + a.completionPercentage]; only activity records pass the filter
    that feeds the sum (a member that is missing would give NaN). *)
Definition add_percentage (sum : float) (a : PropValue) : float :=
  match a with
  | VRecord r => (sum + ToNumber (completionPercentage r))%float
  | VPrim _ => nan
  end.

(** Source lines 93-110: the statistics of a progress mapping. *)
Definition compute_summary (now : string) (progressData : Obj)
    : Completion ProgressSummary :=
  let activities := Object_values progressData in
  let total := length activities in
  let! completed := filterC is_completed activities in
  let completedCount := length completed in
  let rate :=
    if (0 <? total)%nat
    then Math_round ((of_nat completedCount / of_nat total) * 100)%float
    else 0%float in
  let! completedWithScores := filterC is_completed_with_score activities in
  let average :=
    if (0 <? length completedWithScores)%nat
    then Math_round (fold_left add_percentage completedWithScores 0%float
                     / of_nat (length completedWithScores))%float
    else 0%float in
  Normal {| totalActivities := total;
            completedActivities := completedCount;
            completionRate := rate;
            averageScorePercent := average;
            lastUpdated := now |}.

(** Source lines 91-118. *)
Definition updateProgressSummary (now : string) (ls : LocalStorage)
    (progressData : Obj) : LocalStorage :=
  try_catch
    (let! summary := compute_summary now progressData in
     Normal (safeStoreJSON ls PROGRESS_SUMMARY_KEY (summary_object summary)).1)
    ls.

(** ** updateProgress *)

(** The record created for a slug without one (source lines 136-145). *)
Definition initial_progress (s now : string) : ActivityProgress :=
  {| slug := s;
     questionsAnswered := Num 0%float;
     questionsCompleted := Num 0%float;
     lastScore := Num 0%float;
     lastSuccess := false;
     completionPercentage := Num 0%float;
     isCompleted := false;
     lastActivity := now |}.

(** [result.score?.raw || 0] *)
Definition score_or_zero (result : Result) : float :=
  match result_score result with
  | Some sc =>
      match score_raw sc with
      | Some x => if truthy_number x then x else 0%float
      | None => 0%float
      end
  | None => 0%float
  end.

(** [result.success || false] *)
Definition success_or_false (result : Result) : bool :=
  default false (result_success result).

(** [n++]: the member becomes ToNumber of what it held, plus 1, in double
    precision (2^53 + 1 is 2^53). *)
Definition increment (n : Numeric) : Numeric := Num (ToNumber n + 1)%float.

(** Source lines 153-157 and 164-168: [if (result) { ... }]. *)
Definition record_result (result : option Result) (r : ActivityProgress)
    : ActivityProgress :=
  match result with
  | Some res =>
      {| slug := slug r;
         questionsAnswered := questionsAnswered r;
         questionsCompleted := questionsCompleted r;
         lastScore := Num (score_or_zero res);
         lastSuccess := success_or_false res;
         completionPercentage := Num (calculateCompletionPercentage result);
         isCompleted := isCompleted r;
         lastActivity := lastActivity r |}
  | None => r
  end.

(** Source lines 151-159. *)
Definition on_answered (result : option Result) (r : ActivityProgress)
    : ActivityProgress :=
  record_result result
    {| slug := slug r;
       questionsAnswered := increment (questionsAnswered r);
       questionsCompleted := questionsCompleted r;
       lastScore := lastScore r;
       lastSuccess := lastSuccess r;
       completionPercentage := completionPercentage r;
       isCompleted := isCompleted r;
       lastActivity := lastActivity r |}.

(** Source lines 161-170. *)
Definition on_completed (result : option Result) (r : ActivityProgress)
    : ActivityProgress :=
  record_result result
    {| slug := slug r;
       questionsAnswered := questionsAnswered r;
       questionsCompleted := increment (questionsCompleted r);
       lastScore := lastScore r;
       lastSuccess := lastSuccess r;
       completionPercentage := completionPercentage r;
       isCompleted := true;
       lastActivity := lastActivity r |}.

(** Source line 172. *)
Definition touch (now : string) (r : ActivityProgress) : ActivityProgress :=
  {| slug := slug r;
     questionsAnswered := questionsAnswered r;
     questionsCompleted := questionsCompleted r;
     lastScore := lastScore r;
     lastSuccess := lastSuccess r;
     completionPercentage := completionPercentage r;
     isCompleted := isCompleted r;
     lastActivity := now |}.

(** The member writes of lines 151-172 on the object [activityProgress]. *)
Definition apply_verb (clock : Clock) (verb : option string)
    (result : option Result) (r : ActivityProgress) : ActivityProgress :=
  let r1 := if verb_endsWith verb "/answered" then on_answered result r else r in
  let r2 := if verb_endsWith verb "/completed" then on_completed result r1 else r1 in
  touch (now_activity clock) r2.

(** The body of the [try] block, after the verb test (source lines
    132-178).  [activityProgress] is what the read [currentProgress[slug]]
    finds after the initialisation:
    - an own record, which the member writes update in place;
    - an own primitive that is truthy, on which the first member write
      throws a TypeError (the hook is an ES module, hence strict code);
    - an inherited object, on which the member writes succeed and leave
      [currentProgress] as it is.
    The exception is thrown before the first write to the store. *)
Definition updateProgress_body (clock : Clock) (ls : LocalStorage)
    (s : string) (verb : option string) (result : option Result)
    : Completion LocalStorage :=
  let currentProgress := safeParseJSON ls PROGRESS_KEY [] in
  let currentProgress :=
    if negb (truthy_property (get_prop currentProgress s))
    then set_prop currentProgress s (VRecord (initial_progress s (now_created clock)))
    else currentProgress in
  let! currentProgress :=
    match get_prop currentProgress s with
    | Own (VRecord activityProgress) =>
        Normal (set_prop currentProgress s
                  (VRecord (apply_verb clock verb result activityProgress)))
    | Own (VPrim _) => Throw
    | Inherited => Normal currentProgress
    | Undefined => Throw
    end in
  let ls1 := (safeStoreJSON ls PROGRESS_KEY currentProgress).1 in
  Normal (updateProgressSummary (now_summary clock) ls1 currentProgress).

Definition updateProgress (clock : Clock) (ls : LocalStorage)
    (statement : XapiStatement) : LocalStorage :=
  let s := extractActivitySlug statement in
  let verb := st_verb_id statement in
  let result := st_result statement in
  if not_tracked verb then ls
  else try_catch (updateProgress_body clock ls s verb result) ls.

Definition getProgress (ls : LocalStorage) : Obj :=
  safeParseJSON ls PROGRESS_KEY [].

(** A tracked event: the clock readings of the call and the statement. *)
Definition Event : Type := Clock * XapiStatement.

(** The store after a sequence of calls of [updateProgress]. *)
Definition run (ls : LocalStorage) (events : list Event) : LocalStorage :=
  fold_left (fun st e => updateProgress e.1 st e.2) events ls.

(** ** Views of the store used to state the properties *)

(** The mapping that [updateProgress] holds in memory when it serialises
    it, for a mapping [o] that it has read: the record of the slug is
    updated in place, or created and updated; nothing changes when the read
    finds an inherited object (or a primitive, in which case nothing is
    serialised). *)
Definition updated_progress (clock : Clock) (verb : option string)
    (result : option Result) (s : string) (o : Obj) : Obj :=
  match get_prop o s with
  | Own (VRecord r) =>
      replace_property s (VRecord (apply_verb clock verb result r)) o
  | Undefined =>
      define_property s
        (VRecord (apply_verb clock verb result (initial_progress s (now_created clock)))) o
  | Own (VPrim _) => o
  | Inherited => o
  end.

(** The progress record of the slug [s], if there is one. *)
Definition progress_record (ls : LocalStorage) (s : string) : option ActivityProgress :=
  match own_property s (getProgress ls) with
  | Some (VRecord r) => Some r
  | Some (VPrim _) => None
  | None => None
  end.

Definition is_record (kv : string * PropValue) : bool :=
  match kv.2 with
  | VRecord _ => true
  | VPrim _ => false
  end.

(** The stores on which a call can work: the browser lets the hook read and
    write, and what the hook reads under the progress key is a mapping of
    activity records (the empty one when the text is absent, empty or not
    JSON). *)
Definition workable (ls : LocalStorage) : Prop :=
  accessible ls = true /\
  full ls = false /\
  forallb is_record (getProgress ls) = true.

(** The stores of the normal flow: the browser lets the hook read and write,
    and the progress key is absent or holds the JSON text of a mapping of
    activity records, with the numbers that such a text can hold. *)
Definition well_formed (ls : LocalStorage) : Prop :=
  accessible ls = true /\
  full ls = false /\
  match entries ls !! PROGRESS_KEY with
  | None => True
  | Some (Json o) => forallb is_record o = true /\ normalize o = o
  | Some _ => False
  end.

(** The record that [updateProgress] works on: the stored one, or the one
    it creates. *)
Definition current_record (clock : Clock) (ls : LocalStorage) (s : string)
    : ActivityProgress :=
  default (initial_progress s (now_created clock)) (progress_record ls s).

(** The summary that a store holds. *)
Definition stored_summary (ls : LocalStorage) : option Text :=
  entries ls !! PROGRESS_SUMMARY_KEY.

(** ** Sample data *)

Definition empty_storage : LocalStorage :=
  {| entries := ∅; accessible := true; full := false |}.

Definition scored (raw max : float) : Result :=
  {| result_score := Some {| score_raw := Some raw; score_max := Some max |};
     result_success := None |}.

(** A statement whose activity is named by the content identifier of its
    context. *)
Definition statement_for (verb contentId : string) (result : option Result)
    : XapiStatement :=
  {| st_contentId := Some contentId;
     st_content_id := None;
     st_object_id := None;
     st_verb_id := Some verb;
     st_result := result |}.

(** The text of the summary of two activities, one completed with 80
    percent and one not completed. *)
Definition two_activity_summary (now : string) : Text :=
  Json [ ("totalActivities", VPrim (PNum 2%float));
         ("completedActivities", VPrim (PNum 1%float));
         ("completionRate", VPrim (PNum 50%float));
         ("averageScorePercent", VPrim (PNum 80%float));
         ("lastUpdated", VPrim (PStr now)) ].

(** A completed activity with a negative completion percentage, as left by
    a result with raw -5 of max 10. *)
Definition negative_record : ActivityProgress :=
  {| slug := "personality-quiz";
     questionsAnswered := Num 0%float;
     questionsCompleted := Num 1%float;
     lastScore := Num (-5)%float;
     lastSuccess := false;
     completionPercentage := Num (-50)%float;
     isCompleted := true;
     lastActivity := "2025-09-29T12:00:00.001Z" |}.

(** A completed activity with the completion percentage [pct]. *)
Definition completed_with (s : string) (pct : float) : ActivityProgress :=
  {| slug := s;
     questionsAnswered := Num 0%float;
     questionsCompleted := Num 1%float;
     lastScore := Num 0%float;
     lastSuccess := false;
     completionPercentage := Num pct;
     isCompleted := true;
     lastActivity := "2025-09-29T12:00:00.001Z" |}.

(** An activity whose counter of answers has reached 2^53, and a store of
    the normal flow that holds it. *)
Definition saturated_record : ActivityProgress :=
  {| slug := "personality-quiz";
     questionsAnswered := Num 9007199254740992%float;
     questionsCompleted := Num 0%float;
     lastScore := Num 1%float;
     lastSuccess := true;
     completionPercentage := Num 100%float;
     isCompleted := false;
     lastActivity := "2025-09-29T11:59:00.000Z" |}.

Definition saturated_storage : LocalStorage :=
  with_entries empty_storage
    (<[PROGRESS_KEY := Json [("personality-quiz", VRecord saturated_record)]]> ∅).

(** ** The summary in closed form *)

Definition as_activity (a : PropValue) : option ActivityProgress :=
  match a with
  | VRecord r => Some r
  | VPrim _ => None
  end.

(** The activity records of a mapping, in its order. *)
Definition records (o : Obj) : list ActivityProgress :=
  omap as_activity (Object_values o).

(** [a.isCompleted] as a condition, for an activity that is not null. *)
Definition completed_value (a : PropValue) : bool :=
  match a with
  | VRecord r => isCompleted r
  | VPrim _ => false
  end.

Definition sum_percentages (rs : list ActivityProgress) : float :=
  fold_left (fun sum r => (sum + ToNumber (completionPercentage r))%float) rs 0%float.

(** The rounded mean of the completion percentages of [rs], 0 for none. *)
Definition rounded_mean (rs : list ActivityProgress) : float :=
  match rs with
  | [] => 0%float
  | _ :: _ => Math_round (sum_percentages rs / of_nat (length rs))%float
  end.

(** Rounded percentage of [n] out of [d], 0 when [d] is 0. *)
Definition rounded_rate (n d : nat) : float :=
  match d with
  | O => 0%float
  | S _ => Math_round ((of_nat n / of_nat d) * 100)%float
  end.

Definition completed_records (rs : list ActivityProgress) : list ActivityProgress :=
  List.filter isCompleted rs.

(** The completed activities whose completion percentage is positive. *)
Definition completed_with_positive (rs : list ActivityProgress) : list ActivityProgress :=
  List.filter (fun r => isCompleted r && (0 <? ToNumber (completionPercentage r))%float) rs.

(** The summary of a mapping, in closed form. *)
Definition summary_of (now : string) (o : Obj) : ProgressSummary :=
  let rs := records o in
  {| totalActivities := length o;
     completedActivities := length (completed_records rs);
     completionRate := rounded_rate (length (completed_records rs)) (length o);
     averageScorePercent := rounded_mean (completed_with_positive rs);
     lastUpdated := now |}.

(** Following the words of the specification: the completed activities
    whose completion percentage is nonzero. *)
Definition completed_with_nonzero_spec (rs : list ActivityProgress)
    : list ActivityProgress :=
  List.filter (fun r => isCompleted r && negb (PrimFloat.is_zero (ToNumber (completionPercentage r)))) rs.

(** Following the words of the specification: a percentage clamped to the
    interval from 0 to 100. *)
Definition clamp_spec (x : float) : float :=
  if (x <? 0)%float then 0%float else if (100 <? x)%float then 100%float else x.

(** ** Histories *)

(** The event is a qualifying statement for the slug [s]. *)
Definition tracked_for (s : string) (e : Event) : bool :=
  qualifies (st_verb_id e.2) && String.eqb (extractActivitySlug e.2) s.

(** The event is a qualifying statement for the slug [s] that carries a
    result. *)
Definition carries_result_for (s : string) (e : Event) : bool :=
  tracked_for s e
  && match st_result e.2 with
     | Some _ => true
     | None => false
     end.

(** A calendar of the statements of a history, per slug and verb. *)
Definition answered_for (s : string) (e : Event) : bool :=
  tracked_for s e && verb_endsWith (st_verb_id e.2) "/answered".

Definition completed_for (s : string) (e : Event) : bool :=
  tracked_for s e && verb_endsWith (st_verb_id e.2) "/completed".

Definition count_events (p : Event -> bool) (events : list Event) : nat :=
  length (List.filter p events).

(** A counter after one more increment, as JSON keeps it. *)
Definition bump (n : Numeric) : Numeric := normalize_numeric (increment n).

(** The counters of a slug, 0 without a record. *)
Definition answered_count (ls : LocalStorage) (s : string) : Numeric :=
  match progress_record ls s with
  | Some r => questionsAnswered r
  | None => Num 0%float
  end.

Definition completed_count (ls : LocalStorage) (s : string) : Numeric :=
  match progress_record ls s with
  | Some r => questionsCompleted r
  | None => Num 0%float
  end.

(** The completion flag of a slug, false without a record. *)
Definition completed_flag (ls : LocalStorage) (s : string) : bool :=
  match progress_record ls s with
  | Some r => isCompleted r
  | None => false
  end.

(** A store whose progress key holds a text that is not JSON. *)
Definition garbled_storage : LocalStorage :=
  with_entries empty_storage (<[PROGRESS_KEY := Malformed]> ∅).

(** A store of the normal flow with one activity. *)
Definition sample_record : ActivityProgress :=
  {| slug := "personality-quiz";
     questionsAnswered := Num 4%float;
     questionsCompleted := Num 0%float;
     lastScore := Num 1%float;
     lastSuccess := true;
     completionPercentage := Num 100%float;
     isCompleted := false;
     lastActivity := "2025-09-29T11:59:00.000Z" |}.

Definition sample_storage : LocalStorage :=
  with_entries empty_storage
    (<[PROGRESS_KEY := Json [("personality-quiz", VRecord sample_record)]]> ∅).

Definition full_storage : LocalStorage :=
  {| entries := entries sample_storage; accessible := true; full := true |}.

(** The slug of the event is "__proto__": its member writes land on
    [Object.prototype], unless the mapping has a record of that name. *)
Definition writes_prototype (e : Event) : bool :=
  String.eqb (extractActivitySlug e.2) "__proto__".

End Engine.
(** * Properties *)

(** ** Verbs *)

Lemma starts_with_third_char (a b c c' : ascii) (p q l : list ascii) :
  c <> c' ->
  JSString.starts_with (a :: b :: c :: p) l = true ->
  JSString.starts_with (a :: b :: c' :: q) l = false.
Proof.
  intros Hc H.
  destruct l as [|x [|y [|z l]]]; cbn in *; try discriminate;
    repeat rewrite andb_false_r; try reflexivity.
  destruct (Ascii.eqb_spec a x); [|discriminate].
  destruct (Ascii.eqb_spec b y); [|discriminate].
  destruct (Ascii.eqb_spec c z); [|discriminate].
  destruct (Ascii.eqb_spec c' z); [congruence|reflexivity].
Qed.

(** No verb ends in both suffixes. *)
Lemma answered_not_completed (v : string) :
  JSString.endsWith v "/answered" = true ->
  JSString.endsWith v "/completed" = false.
Proof.
  unfold JSString.endsWith. cbn [JSString.chars list_ascii_of_string rev app].
  apply starts_with_third_char. discriminate.
Qed.

Lemma completed_not_answered (v : string) :
  JSString.endsWith v "/completed" = true ->
  JSString.endsWith v "/answered" = false.
Proof.
  unfold JSString.endsWith. cbn [JSString.chars list_ascii_of_string rev app].
  apply starts_with_third_char. discriminate.
Qed.

Lemma endsWith_truthy (v suffix : string) :
  JSString.truthy suffix = true ->
  JSString.endsWith v suffix = true ->
  JSString.truthy v = true.
Proof.
  destruct v as [|c v]; [|reflexivity].
  destruct suffix as [|d suffix]; [discriminate|].
  intros _. unfold JSString.endsWith. cbn.
  destruct (rev (list_ascii_of_string suffix)); cbn; discriminate.
Qed.

Lemma qualifies_answered (v : string) :
  JSString.endsWith v "/answered" = true -> qualifies (Some v) = true.
Proof.
  intros H. unfold qualifies, not_tracked, verb_endsWith, truthy_str.
  rewrite H, (endsWith_truthy v "/answered"); auto.
Qed.

Lemma qualifies_completed (v : string) :
  JSString.endsWith v "/completed" = true -> qualifies (Some v) = true.
Proof.
  intros H. unfold qualifies, not_tracked, verb_endsWith, truthy_str.
  rewrite H, (endsWith_truthy v "/completed"); auto.
  cbn. rewrite andb_false_r. reflexivity.
Qed.

(** ** Rounding *)

(** [Math_round x] is the integer nearest to [x], the upper one at a tie. *)
Lemma Math_round_nearest (x : Q) :
  (inject_Z (Math_round x) - (1 # 2) <= x)%Q /\
  (x < inject_Z (Math_round x) + (1 # 2))%Q.
Proof.
  unfold Math_round.
  pose proof (Qfloor_le (x + (1 # 2))) as Hle.
  pose proof (Qlt_floor (x + (1 # 2))) as Hlt.
  rewrite inject_Z_plus in Hlt.
  split.
  - apply (Qplus_le_l _ _ (1 # 2)). ring_simplify.
    ring_simplify in Hle. exact Hle.
  - apply (Qplus_lt_l _ _ (1 # 2)).
    eapply Qlt_le_trans; [exact Hlt|].
    apply Qle_lteq. right. simpl. ring.
Qed.

Lemma Math_round_inject_Z (z : Z) : Math_round (inject_Z z) = z.
Proof.
  unfold Math_round.
  assert (H : (inject_Z z + (1 # 2) == (2 * z + 1) # 2)%Q).
  { unfold Qeq, inject_Z, Qplus. simpl. lia. }
  rewrite H. unfold Qfloor. simpl.
  symmetry. apply (Z.div_unique _ _ _ 1); lia.
Qed.

(** ** The store adapter *)

Lemma getItem_accessible (ls : LocalStorage) (key : string) :
  accessible ls = true -> getItem ls key = Normal (entries ls !! key).
Proof. intros H. unfold getItem. rewrite H. reflexivity. Qed.

Lemma safeParseJSON_accessible (ls : LocalStorage) (key : string) (fallback : JSValue) :
  accessible ls = true ->
  safeParseJSON ls key fallback =
    match entries ls !! key with
    | Some (Json v) => v
    | Some EmptyText => fallback
    | Some Malformed => fallback
    | None => fallback
    end.
Proof.
  intros H. unfold safeParseJSON. rewrite (getItem_accessible _ _ H). cbn.
  destruct (entries ls !! key) as [[| |v]|]; reflexivity.
Qed.

Lemma safeParseJSON_inaccessible (ls : LocalStorage) (key : string) (fallback : JSValue) :
  accessible ls = false -> safeParseJSON ls key fallback = fallback.
Proof. intros H. unfold safeParseJSON, getItem. rewrite H. reflexivity. Qed.

(** C8: [safeParseJSON] returns a value in every case: the fallback when the
    store throws, when the entry is absent and when the stored text does not
    parse, and otherwise the parsed value; [getProgress] returns the empty
    mapping when the text under the progress key does not parse. *)
Theorem safeParseJSON_never_raises (ls : LocalStorage) (key : string) (fallback : JSValue) :
  (safeParseJSON ls key fallback = fallback
   \/ exists v, getItem ls key = Normal (Some (Json v))
                /\ safeParseJSON ls key fallback = v)
  /\ (getItem ls key = Throw -> safeParseJSON ls key fallback = fallback)
  /\ (getItem ls key = Normal None -> safeParseJSON ls key fallback = fallback)
  /\ (forall t, getItem ls key = Normal (Some t) -> JSON_parse t = Throw ->
        safeParseJSON ls key fallback = fallback)
  /\ (forall t, entries ls !! PROGRESS_KEY = Some t -> JSON_parse t = Throw ->
        getProgress ls = JObj ∅).
Proof.
  repeat split.
  - unfold safeParseJSON. destruct (getItem ls key) as [[[| |v]|]|] eqn:E; cbn; eauto.
  - intros E. unfold safeParseJSON. rewrite E. reflexivity.
  - intros E. unfold safeParseJSON. rewrite E. reflexivity.
  - intros t E Ht. unfold safeParseJSON. rewrite E. cbn.
    destruct t; cbn in *; try reflexivity; discriminate.
  - intros t E Ht. unfold getProgress.
    destruct (accessible ls) eqn:Ha.
    + rewrite safeParseJSON_accessible by exact Ha. rewrite E.
      destruct t; cbn in *; try reflexivity; discriminate.
    + apply safeParseJSON_inaccessible. exact Ha.
Qed.

Lemma safeParseJSON_never_raises_witness :
  getProgress (with_entries empty_storage (<[PROGRESS_KEY := Malformed]> ∅)) = JObj ∅.
Proof.
  refine (proj2 (proj2 (proj2 (proj2
    (safeParseJSON_never_raises
       (with_entries empty_storage (<[PROGRESS_KEY := Malformed]> ∅))
       PROGRESS_KEY (JObj ∅))))) Malformed _ _).
  - reflexivity.
  - reflexivity.
Defined.

(** C10: with a store that can be read, the fallback is returned exactly
    for an absent entry, an empty text and a text that does not parse; a text
    that parses is returned as parsed whatever its shape, so that
    [getProgress] returns a primitive such as 0 or null, not a mapping, when
    such a text sits under the progress key. *)
Theorem safeParseJSON_returns_any_json (ls : LocalStorage) :
  accessible ls = true ->
  (forall key fallback,
     match entries ls !! key with
     | Some (Json v) => safeParseJSON ls key fallback = v
     | Some EmptyText => safeParseJSON ls key fallback = fallback
     | Some Malformed => safeParseJSON ls key fallback = fallback
     | None => safeParseJSON ls key fallback = fallback
     end)
  /\ (forall p, entries ls !! PROGRESS_KEY = Some (Json (JPrim p)) ->
        getProgress ls = JPrim p /\ getProgress ls <> JObj ∅).
Proof.
  intros Ha. split.
  - intros key fallback. rewrite (safeParseJSON_accessible _ _ _ Ha).
    destruct (entries ls !! key) as [[| |v]|]; reflexivity.
  - intros p E. unfold getProgress.
    rewrite (safeParseJSON_accessible _ _ _ Ha), E. split; [reflexivity|discriminate].
Qed.

Lemma safeParseJSON_returns_any_json_witness :
  getProgress (with_entries empty_storage (<[PROGRESS_KEY := Json (JPrim (PNum 0))]> ∅))
    = JPrim (PNum 0)
  /\ getProgress (with_entries empty_storage (<[PROGRESS_KEY := Json (JPrim PNull)]> ∅))
    = JPrim PNull.
Proof.
  split.
  - refine (proj1 (proj2 (safeParseJSON_returns_any_json
      (with_entries empty_storage (<[PROGRESS_KEY := Json (JPrim (PNum 0))]> ∅)) _)
      (PNum 0) _)); reflexivity.
  - refine (proj1 (proj2 (safeParseJSON_returns_any_json
      (with_entries empty_storage (<[PROGRESS_KEY := Json (JPrim PNull)]> ∅)) _)
      PNull _)); reflexivity.
Defined.

(** ** calculateCompletionPercentage *)


(** ** extractActivitySlug *)

(** Without a content identifier that matches and without an object
    identifier that matches, the slug is the literal fallback. *)
Lemma extractActivitySlug_fallback (statement : Statement) :
  (forall c,
     or_str (context_contentId statement) (context_content_id statement) = Some c ->
     JSString.truthy c = true ->
     RegExp.match1 RegExp.last_segment c = None) ->
  (forall o,
     object_id statement = Some o ->
     JSString.truthy o = true ->
     RegExp.match1 RegExp.url_segment o = None
     /\ RegExp.match1 RegExp.simple_slug o = None) ->
  extractActivitySlug statement = "unknown-activity".
Proof.
  intros Hc Ho. unfold extractActivitySlug.
  destruct (or_str _ _) as [c|] eqn:Ec.
  - destruct (JSString.truthy c) eqn:Tc.
    + rewrite (Hc c eq_refl Tc).
      destruct (object_id statement) as [o|]; [|reflexivity].
      destruct (JSString.truthy o) eqn:To; [|reflexivity].
      destruct (Ho o eq_refl To) as [-> ->]. reflexivity.
    + destruct (object_id statement) as [o|]; [|reflexivity].
      destruct (JSString.truthy o) eqn:To; [|reflexivity].
      destruct (Ho o eq_refl To) as [-> ->]. reflexivity.
  - destruct (object_id statement) as [o|]; [|reflexivity].
    destruct (JSString.truthy o) eqn:To; [|reflexivity].
    destruct (Ho o eq_refl To) as [-> ->]. reflexivity.
Qed.

(** The same path given as the content identifier yields its last segment. *)
Example extractActivitySlug_contentId :
  extractActivitySlug
    {| context_contentId := Some "/h5p/entrepreneur-legacy-quick-awareness";
       context_content_id := None;
       object_id := None;
       verb_id := None;
       stmt_result := None |}
  = "entrepreneur-legacy-quick-awareness".
Proof. vm_compute. reflexivity. Qed.

(** ** Statements that are not tracked *)

(** C7: a statement without a verb, or whose verb ends in neither
    "/answered" nor "/completed", leaves the store as it is: neither the
    progress key nor the summary key is written. *)
Theorem updateProgress_untracked_noop (clock : Clock) (ls : LocalStorage)
    (statement : Statement) :
  (verb_id statement = None
   \/ exists v, verb_id statement = Some v
        /\ JSString.endsWith v "/answered" = false
        /\ JSString.endsWith v "/completed" = false) ->
  updateProgress clock ls statement = ls.
Proof.
  intros [Hv | (v & Hv & Ha & Hc)]; unfold updateProgress, not_tracked; rewrite Hv.
  - reflexivity.
  - unfold verb_endsWith. rewrite Ha, Hc. cbn [negb andb]. rewrite orb_true_r. reflexivity.
Qed.

Lemma updateProgress_untracked_noop_witness :
  let ls := with_entries empty_storage (<[PROGRESS_KEY := Json (JPrim PNull)]> ∅) in
  updateProgress sample_clock ls (statement_of ATTEMPTED "http://localhost/h5p/quiz" None)
  = ls.
Proof.
  intros ls.
  apply (updateProgress_untracked_noop sample_clock ls
           (statement_of ATTEMPTED "http://localhost/h5p/quiz" None)).
  right. exists ATTEMPTED. repeat split; reflexivity.
Defined.

(** ** The summary *)

Lemma keys_distinct : PROGRESS_KEY <> PROGRESS_SUMMARY_KEY.
Proof. discriminate. Qed.

Lemma filterC_normal {A} (p : A -> Completion bool) (pb : A -> bool) (l : list A) :
  Forall (fun a => p a = Normal (pb a)) l ->
  filterC p l = Normal (List.filter pb l).
Proof.
  induction 1 as [|a l Ha _ IH]; cbn; [reflexivity|].
  rewrite Ha, IH. cbn. reflexivity.
Qed.

(** A throwing predicate makes the whole filter throw only through a null
    activity. *)
Lemma filterC_inv {A} (p : A -> Completion bool) (l l' : list A) :
  filterC p l = Normal l' ->
  exists pb, Forall (fun a => p a = Normal (pb a)) l.
Proof.
  intros H. exists (fun a => match p a with Normal b => b | Throw => false end).
  revert l' H. induction l as [|a l IH]; intros l' H; constructor.
  - cbn in H. destruct (p a); [reflexivity|discriminate].
  - cbn in H. destruct (p a); [|discriminate]. cbn in H.
    destruct (filterC p l) as [r|]; [|discriminate]. eapply IH. reflexivity.
Qed.

Lemma is_completed_value (a : PropValue) :
  a <> VPrim PNull -> is_completed a = Normal (completed_value a).
Proof. destruct a as [[]|r]; cbn; congruence. Qed.

Lemma is_completed_with_score_value (a : PropValue) :
  a <> VPrim PNull ->
  is_completed_with_score a = Normal (completed_value a && has_score a).
Proof.
  intros H. unfold is_completed_with_score. rewrite (is_completed_value a H).
  reflexivity.
Qed.

Lemma is_completed_throws (a : PropValue) :
  is_completed a = Throw <-> a = VPrim PNull.
Proof. destruct a as [[]|r]; cbn; split; congruence. Qed.

Lemma filter_completed_records (l : list PropValue) :
  omap as_activity (List.filter completed_value l)
  = completed_records (omap as_activity l).
Proof.
  induction l as [|[p|r] l IH]; cbn; [reflexivity|exact IH|].
  unfold completed_records in *. cbn.
  destruct (isCompleted r); cbn; rewrite IH; reflexivity.
Qed.

Lemma filter_completed_all_records (l : list PropValue) :
  length (List.filter completed_value l)
  = length (omap as_activity (List.filter completed_value l)).
Proof.
  induction l as [|[p|r] l IH]; cbn; [reflexivity|exact IH|].
  destruct (isCompleted r); cbn; rewrite IH; reflexivity.
Qed.

Lemma filter_scored_records (l : list PropValue) :
  omap as_activity (List.filter (fun a => completed_value a && has_score a) l)
  = completed_with_positive (omap as_activity l).
Proof.
  induction l as [|[p|r] l IH]; cbn; [reflexivity|exact IH|].
  unfold completed_with_positive in *. cbn.
  destruct (isCompleted r && (0 <? completionPercentage r)); cbn; rewrite IH; reflexivity.
Qed.

Lemma filter_scored_all_records (l : list PropValue) :
  length (List.filter (fun a => completed_value a && has_score a) l)
  = length (omap as_activity (List.filter (fun a => completed_value a && has_score a) l)).
Proof.
  induction l as [|[p|r] l IH]; cbn; [reflexivity|exact IH|].
  destruct (isCompleted r && (0 <? completionPercentage r)); cbn; rewrite IH; reflexivity.
Qed.

Lemma foldl_add_percentage (l : list PropValue) (acc : Z) :
  foldl add_percentage acc l = acc + sum_percentages (omap as_activity l).
Proof.
  revert acc. induction l as [|[p|r] l IH]; intros acc; cbn.
  - lia.
  - apply IH.
  - rewrite IH. unfold sum_percentages. cbn. lia.
Qed.

Lemma compute_summary_closed (now : string) (m : gmap string PropValue) :
  Forall (fun a => a <> VPrim PNull) (Object_values m) ->
  compute_summary now m = Normal (summary_of now m).
Proof.
  intros Hnn. unfold compute_summary.
  rewrite (filterC_normal is_completed completed_value).
  2:{ eapply Forall_impl; [exact Hnn|]. intros a. apply is_completed_value. }
  cbn [bindC].
  rewrite (filterC_normal is_completed_with_score
             (fun a => completed_value a && has_score a)).
  2:{ eapply Forall_impl; [exact Hnn|]. intros a. apply is_completed_with_score_value. }
  cbn [bindC]. f_equal.
  assert (Hsize : length (Object_values m) = size m).
  { unfold Object_values. rewrite length_fmap. apply length_map_to_list. }
  unfold summary_of, activity_records.
  rewrite Hsize.
  rewrite filter_completed_all_records, filter_completed_records.
  rewrite filter_scored_all_records, foldl_add_percentage, filter_scored_records.
  f_equal.
  - unfold rounded_rate. destruct (size m); reflexivity.
  - unfold rounded_mean.
    destruct (completed_with_positive (omap as_activity (Object_values m)));
      cbn [length Nat.ltb Nat.leb]; [reflexivity|].
    rewrite Z.add_0_l. reflexivity.
Qed.

Lemma compute_summary_normal_inv (now : string) (m : gmap string PropValue)
    (sm : ProgressSummary) :
  compute_summary now m = Normal sm -> sm = summary_of now m.
Proof.
  intros H.
  assert (Hnn : Forall (fun a => a <> VPrim PNull) (Object_values m)).
  { unfold compute_summary in H.
    destruct (filterC is_completed (Object_values m)) as [l|] eqn:E; [|discriminate].
    destruct (filterC_inv _ _ _ E) as [pb Hpb].
    eapply Forall_impl; [exact Hpb|]. intros a Ha ->. discriminate Ha. }
  rewrite (compute_summary_closed now m Hnn) in H. congruence.
Qed.

Lemma progress_mapping_values (m : gmap string PropValue) :
  progress_mapping m -> Forall (fun a => is_record a = true) (Object_values m).
Proof.
  intros Hm. unfold Object_values. apply Forall_fmap.
  apply Forall_forall. intros [k v] Hin. cbn.
  apply elem_of_map_to_list in Hin. exact (Hm k v Hin).
Qed.

Lemma progress_mapping_summary (now : string) (m : gmap string PropValue) :
  progress_mapping m -> compute_summary now m = Normal (summary_of now m).
Proof.
  intros Hm. apply compute_summary_closed.
  eapply Forall_impl; [exact (progress_mapping_values m Hm)|].
  intros a Ha ->. discriminate Ha.
Qed.

(** ** One call of updateProgress on a store of the normal flow *)

Lemma well_formed_progress (ls : LocalStorage) :
  well_formed ls ->
  exists m, getProgress ls = JObj m /\ progress_mapping m.
Proof.
  intros (Ha & _ & Hm). unfold getProgress.
  rewrite (safeParseJSON_accessible _ _ _ Ha).
  destruct (entries ls !! PROGRESS_KEY) as [[| |[p|m]]|]; try contradiction.
  - exists m. split; [reflexivity|exact Hm].
  - exists ∅. split; [reflexivity|]. apply map_Forall_empty.
Qed.

Lemma progress_record_lookup (ls : LocalStorage) (m : gmap string PropValue) (s : string) :
  getProgress ls = JObj m ->
  progress_record ls s = m !! s ≫= as_activity.
Proof.
  intros H. unfold progress_record, progress_entry. rewrite H.
  destruct (m !! s) as [[p|r]|]; reflexivity.
Qed.

Lemma safeStoreJSON_ok (ls : LocalStorage) (key : string) (data : JSValue) :
  accessible ls = true -> full ls = false ->
  safeStoreJSON ls key data
  = (with_entries ls (<[key := Json data]> (entries ls)), true).
Proof.
  intros Ha Hf. unfold safeStoreJSON, setItem. rewrite Ha, Hf. reflexivity.
Qed.

Lemma updateProgressSummary_ok (now : string) (ls : LocalStorage)
    (m : gmap string PropValue) :
  accessible ls = true -> full ls = false -> progress_mapping m ->
  updateProgressSummary now ls m
  = with_entries ls
      (<[PROGRESS_SUMMARY_KEY := Json (summary_object (summary_of now m))]> (entries ls)).
Proof.
  intros Ha Hf Hm. unfold updateProgressSummary.
  rewrite (progress_mapping_summary now m Hm). cbn [bindC try_catch].
  rewrite (safeStoreJSON_ok _ _ _ Ha Hf). reflexivity.
Qed.

(** The store after a qualifying statement: the progress key holds the
    mapping read, updated at the slug; the summary key holds the summary of
    that mapping. *)
Lemma updateProgress_step (clock : Clock) (ls : LocalStorage) (statement : Statement) :
  well_formed ls ->
  qualifies (verb_id statement) = true ->
  exists m,
    getProgress ls = JObj m /\ progress_mapping m /\
    let s := extractActivitySlug statement in
    let r := apply_verb clock (verb_id statement) (stmt_result statement)
               (current_record clock ls s) in
    let m' := <[s := VRecord r]> m in
    progress_mapping m' /\
    updateProgress clock ls statement
    = with_entries ls
        (<[PROGRESS_SUMMARY_KEY :=
             Json (summary_object (summary_of (now_summary clock) m'))]>
           (<[PROGRESS_KEY := Json (JObj m')]> (entries ls))).
Proof.
  intros Hwf Hq.
  destruct (well_formed_progress ls Hwf) as (m & Hget & Hm).
  destruct Hwf as (Ha & Hf & _).
  exists m. split; [exact Hget|]. split; [exact Hm|].
  intros s r m'.
  assert (Hm' : progress_mapping m').
  { apply map_Forall_insert_2; [reflexivity|exact Hm]. }
  split; [exact Hm'|].
  unfold updateProgress.
  unfold qualifies in Hq. apply negb_true_iff in Hq. rewrite Hq.
  unfold updateProgress_body.
  change (safeParseJSON ls PROGRESS_KEY (JObj ∅)) with (getProgress ls).
  rewrite Hget. fold s. cbn [get_prop bindC].
  assert (Hcur : current_record clock ls s
                 = default (initial_progress s (now_created clock))
                     (m !! s ≫= as_activity)).
  { unfold current_record. rewrite (progress_record_lookup ls m s Hget). reflexivity. }
  assert (Hstore : forall m0,
    (safeStoreJSON ls PROGRESS_KEY (JObj m0)).1
    = with_entries ls (<[PROGRESS_KEY := Json (JObj m0)]> (entries ls))).
  { intros m0. rewrite (safeStoreJSON_ok _ _ _ Ha Hf). reflexivity. }
  subst m' r. rewrite Hcur in Hm' |- *. clear Hcur. revert Hm'.
  destruct (m !! s) as [[p|r0]|] eqn:Es; intros Hm'.
  - specialize (Hm s _ Es). discriminate Hm.
  - change (default (initial_progress s (now_created clock))
              (Some (VRecord r0) ≫= as_activity)) with r0 in *.
    cbn [truthy_prop negb set_prop get_prop bindC].
    rewrite Es. cbn [as_record bindC try_catch].
    rewrite Hstore.
    rewrite updateProgressSummary_ok; [reflexivity|exact Ha|exact Hf|exact Hm'].
  - change (default (initial_progress s (now_created clock))
              (None ≫= as_activity))
      with (initial_progress s (now_created clock)) in *.
    cbn [truthy_prop negb set_prop get_prop bindC].
    rewrite lookup_insert_eq. cbn [as_record bindC try_catch].
    rewrite insert_insert_eq. rewrite Hstore.
    rewrite updateProgressSummary_ok; [reflexivity|exact Ha|exact Hf|exact Hm'].
Qed.

(** What a qualifying statement leaves in a store of the normal flow. *)
Lemma updateProgress_views (clock : Clock) (ls : LocalStorage) (statement : Statement) :
  well_formed ls ->
  qualifies (verb_id statement) = true ->
  let s := extractActivitySlug statement in
  let r := apply_verb clock (verb_id statement) (stmt_result statement)
             (current_record clock ls s) in
  let ls' := updateProgress clock ls statement in
  exists m,
    getProgress ls = JObj m
    /\ well_formed ls'
    /\ getProgress ls' = JObj (<[s := VRecord r]> m)
    /\ getProgressSummary ls'
       = summary_object (summary_of (now_summary clock) (<[s := VRecord r]> m))
    /\ progress_record ls' s = Some r.
Proof.
  intros Hwf Hq s r ls'.
  destruct (updateProgress_step clock ls statement Hwf Hq) as (m & Hget & Hm & Hm' & Hstep).
  fold s in Hm', Hstep. fold r in Hm', Hstep. fold ls' in Hstep.
  destruct Hwf as (Ha & Hf & _).
  assert (Hp : entries ls' !! PROGRESS_KEY = Some (Json (JObj (<[s := VRecord r]> m)))).
  { rewrite Hstep. cbn [with_entries entries].
    rewrite lookup_insert_ne by (apply not_eq_sym, keys_distinct).
    apply lookup_insert_eq. }
  assert (Ha' : accessible ls' = true) by (rewrite Hstep; exact Ha).
  assert (Hf' : full ls' = false) by (rewrite Hstep; exact Hf).
  assert (Hget' : getProgress ls' = JObj (<[s := VRecord r]> m)).
  { unfold getProgress. rewrite safeParseJSON_accessible by exact Ha'.
    rewrite Hp. reflexivity. }
  exists m. split; [exact Hget|]. split; [|split; [exact Hget'|split]].
  - split; [exact Ha'|]. split; [exact Hf'|]. rewrite Hp. exact Hm'.
  - unfold getProgressSummary. rewrite safeParseJSON_accessible by exact Ha'.
    rewrite Hstep. cbn [with_entries entries]. rewrite lookup_insert_eq. reflexivity.
  - rewrite (progress_record_lookup ls' _ s Hget'). rewrite lookup_insert_eq. reflexivity.
Qed.

Lemma qualifies_false_noop (clock : Clock) (ls : LocalStorage) (statement : Statement) :
  qualifies (verb_id statement) = false -> updateProgress clock ls statement = ls.
Proof.
  intros Hq. unfold updateProgress. unfold qualifies in Hq.
  apply negb_false_iff in Hq. rewrite Hq. reflexivity.
Qed.

Lemma well_formed_updateProgress (clock : Clock) (ls : LocalStorage)
    (statement : Statement) :
  well_formed ls -> well_formed (updateProgress clock ls statement).
Proof.
  intros Hwf. destruct (qualifies (verb_id statement)) eqn:Hq.
  - destruct (updateProgress_views clock ls statement Hwf Hq) as (m & _ & H & _).
    exact H.
  - rewrite (qualifies_false_noop _ _ _ Hq). exact Hwf.
Qed.

Lemma well_formed_empty : well_formed empty_storage.
Proof. repeat split. Qed.

Lemma well_formed_clearProgress (ls : LocalStorage) :
  well_formed ls -> well_formed (clearProgress ls).1.
Proof.
  intros (Ha & Hf & _). unfold clearProgress, removeItem. rewrite Ha.
  cbn [bindC with_entries accessible]. rewrite Ha.
  cbn [bindC try_catch with_entries accessible full entries fst].
  unfold well_formed. cbn [with_entries accessible full entries].
  split; [exact Ha|]. split; [exact Hf|].
  rewrite lookup_delete_ne by (apply not_eq_sym, keys_distinct).
  rewrite lookup_delete_eq. exact I.
Qed.

(** The record of another slug is not touched. *)
Lemma updateProgress_other_record (clock : Clock) (ls : LocalStorage)
    (statement : Statement) (other : string) :
  well_formed ls ->
  other <> extractActivitySlug statement ->
  progress_record (updateProgress clock ls statement) other = progress_record ls other.
Proof.
  intros Hwf Hne. destruct (qualifies (verb_id statement)) eqn:Hq.
  - destruct (updateProgress_views clock ls statement Hwf Hq) as (m & Hget & _ & Hget' & _).
    rewrite (progress_record_lookup _ _ other Hget').
    rewrite (progress_record_lookup _ _ other Hget).
    rewrite lookup_insert_ne by (apply not_eq_sym; exact Hne). reflexivity.
  - rewrite (qualifies_false_noop _ _ _ Hq). reflexivity.
Qed.

(** ** Frame *)


Lemma safeStoreJSON_cases (ls : LocalStorage) (key : string) (data : JSValue) :
  (safeStoreJSON ls key data).1 = ls
  \/ (safeStoreJSON ls key data).1 = with_entries ls (<[key := Json data]> (entries ls)).
Proof.
  unfold safeStoreJSON, setItem.
  destruct (accessible ls && negb (full ls)); cbn; auto.
Qed.

Lemma updateProgressSummary_frame (now : string) (ls : LocalStorage)
    (m : gmap string PropValue) :
  accessible (updateProgressSummary now ls m) = accessible ls
  /\ full (updateProgressSummary now ls m) = full ls
  /\ entries (updateProgressSummary now ls m) !! PROGRESS_KEY = entries ls !! PROGRESS_KEY.
Proof.
  unfold updateProgressSummary.
  destruct (compute_summary now m) as [sm|]; cbn [bindC try_catch]; [|auto].
  destruct (safeStoreJSON_cases ls PROGRESS_SUMMARY_KEY (summary_object sm)) as [-> | ->];
    [auto|].
  cbn [with_entries accessible full entries].
  rewrite lookup_insert_ne by (apply not_eq_sym, keys_distinct). auto.
Qed.

(** What any call of [updateProgress] does to the progress key: nothing, or
    it stores the mapping read with the entry of the slug replaced. *)
Lemma updateProgress_progress_key (clock : Clock) (ls : LocalStorage)
    (statement : Statement) :
  let s := extractActivitySlug statement in
  let ls' := updateProgress clock ls statement in
  accessible ls' = accessible ls
  /\ full ls' = full ls
  /\ (entries ls' !! PROGRESS_KEY = entries ls !! PROGRESS_KEY
      \/ exists m r,
           getProgress ls = JObj m
           /\ entries ls' !! PROGRESS_KEY = Some (Json (JObj (<[s := VRecord r]> m)))).
Proof.
  intros s ls'. subst ls'. unfold updateProgress. fold s.
  destruct (not_tracked (verb_id statement)); [auto|].
  unfold updateProgress_body.
  change (safeParseJSON ls PROGRESS_KEY (JObj ∅)) with (getProgress ls).
  destruct (getProgress ls) as [p|m] eqn:Hget.
  { destruct p; cbn; auto. }
  assert (Hfinal : forall r,
    let out := updateProgressSummary (now_summary clock)
                 (safeStoreJSON ls PROGRESS_KEY (JObj (<[s := VRecord r]> m))).1
                 (<[s := VRecord r]> m) in
    accessible out = accessible ls /\ full out = full ls
    /\ (entries out !! PROGRESS_KEY = entries ls !! PROGRESS_KEY
        \/ exists m0 r0, JObj m = JObj m0
             /\ entries out !! PROGRESS_KEY = Some (Json (JObj (<[s := VRecord r0]> m0))))).
  { intros r out. subst out.
    destruct (updateProgressSummary_frame (now_summary clock)
                (safeStoreJSON ls PROGRESS_KEY (JObj (<[s := VRecord r]> m))).1
                (<[s := VRecord r]> m)) as (Ha & Hf & He).
    rewrite Ha, Hf, He.
    destruct (safeStoreJSON_cases ls PROGRESS_KEY (JObj (<[s := VRecord r]> m)))
      as [-> | ->]; [auto|].
    cbn [with_entries accessible full entries]. rewrite lookup_insert_eq.
    split; [reflexivity|]. split; [reflexivity|]. right. eauto. }
  cbn [get_prop bindC].
  destruct (m !! s) as [[p|r0]|] eqn:Es.
  - destruct (truthy_prim p) eqn:Tp; cbn [truthy_prop negb]; rewrite Tp; cbn [negb].
    + cbn [bindC get_prop]. rewrite Es. cbn [as_record bindC try_catch]. auto.
    + cbn [set_prop bindC get_prop]. rewrite lookup_insert_eq.
      cbn [as_record bindC set_prop try_catch]. rewrite insert_insert_eq. apply Hfinal.
  - cbn [truthy_prop negb bindC get_prop]. rewrite Es.
    cbn [as_record bindC set_prop try_catch]. apply Hfinal.
  - cbn [truthy_prop negb set_prop bindC get_prop]. rewrite lookup_insert_eq.
    cbn [as_record bindC set_prop try_catch]. rewrite insert_insert_eq. apply Hfinal.
Qed.



(** ** The slug of an object identifier under /h5p/ *)

Local Open Scope list_scope.

(** A greedy repetition fails when its continuation fails wherever the
    repetition can stop. *)
Lemma rep_none {R : Type} (p : ascii -> bool) (s : list ascii) :
  forall (min : nat) (cap : option (list ascii)) (k : @RegExp.cont R),
  (forall pre s', s = pre ++ s' -> forallb p pre = true -> k s' cap = None) ->
  RegExp.rep p min s cap k = None.
Proof.
  induction s as [|c s IH]; intros min cap k Hk.
  - cbn. destruct min; [|reflexivity]. apply (Hk [] []); reflexivity.
  - cbn [RegExp.rep].
    assert (Hstop : match min with O => k (c :: s) cap | S _ => None end = None).
    { destruct min; [|reflexivity]. apply (Hk [] (c :: s)); reflexivity. }
    destruct (p c) eqn:Hc; [|exact Hstop].
    rewrite IH; [exact Hstop|].
    intros pre s' -> Hpre. apply (Hk (c :: pre) s'); [reflexivity|].
    cbn. rewrite Hc. exact Hpre.
Qed.

(** A run without slash stops before the first slash. *)
Lemma slash_free_prefix (pre s' l t : list ascii) :
  l ++ "/"%char :: t = pre ++ s' ->
  forallb RegExp.not_slash pre = true ->
  exists l2, l = pre ++ l2 /\ s' = l2 ++ "/"%char :: t.
Proof.
  revert l. induction pre as [|a pre IH]; intros l Heq Hpre.
  - exists l. split; [reflexivity|]. symmetry. exact Heq.
  - cbn in Hpre. apply andb_true_iff in Hpre as [Ha Hpre].
    destruct l as [|b l].
    + cbn in Heq. injection Heq as <- _. discriminate Ha.
    + cbn in Heq. injection Heq as <- Heq.
      destruct (IH l Heq Hpre) as (l2 & -> & ->).
      exists l2. split; reflexivity.
Qed.

(** The optional trailing segment followed by the end of input does not
    match a text with two more slashes. *)
Lemma trailing_segment_none {R : Type} (l t1 t2 : list ascii)
    (cap : option (list ascii)) (k : @RegExp.cont R) :
  RegExp.exec
    (RegExp.Cat
       (RegExp.Opt (RegExp.Cat (RegExp.Lit "/") (RegExp.Rep RegExp.not_slash 0)))
       RegExp.Eos)
    (l ++ "/"%char :: t1 ++ "/"%char :: t2) cap k = None.
Proof.
  cbn [RegExp.exec].
  assert (Hend : forall (s : list ascii) c,
            s <> [] -> match s with [] => k s c | _ :: _ => None end = None).
  { intros [|? ?] c Hs; [contradiction|reflexivity]. }
  assert (Hrep : forall (u v : list ascii),
            RegExp.rep RegExp.not_slash 0 (u ++ "/"%char :: v) cap
              (fun s' cap' => match s' with [] => k s' cap' | _ :: _ => None end) = None).
  { intros u v. apply rep_none. intros pre s' Heq Hpre.
    destruct (slash_free_prefix pre s' u v Heq Hpre) as (l2 & _ & ->).
    destruct l2; reflexivity. }
  destruct l as [|a l].
  - cbn [app]. cbn [Ascii.eqb Bool.eqb]. rewrite Hrep. reflexivity.
  - cbn [app]. destruct (Ascii.eqb "/" a); [|reflexivity].
    rewrite (Hrep l). reflexivity.
Qed.

(** The pattern for URLs does not match at a position that has two
    slashes after its first segment. *)
Lemma url_segment_none_here (c : ascii) (l t1 t2 : list ascii) :
  RegExp.match_here RegExp.url_segment (c :: l ++ "/"%char :: t1 ++ "/"%char :: t2) = None.
Proof.
  unfold RegExp.match_here, RegExp.url_segment.
  cbn [RegExp.exec].
  destruct (Ascii.eqb "/" c); [|reflexivity].
  apply rep_none. intros pre s' Heq Hpre.
  destruct (slash_free_prefix pre s' l _ Heq Hpre) as (l2 & _ & ->).
  apply (trailing_segment_none l2 t1 t2).
Qed.

Lemma search_url_segment_under_h5p (l : list ascii) :
  RegExp.search RegExp.url_segment
    (l ++ JSString.chars "/h5p/entrepreneur-legacy-quick-awareness")
  = Some (Some (JSString.chars "h5p")).
Proof.
  induction l as [|c l IH].
  - vm_compute. reflexivity.
  - cbn [app RegExp.search].
    change (JSString.chars "/h5p/entrepreneur-legacy-quick-awareness")
      with ("/"%char :: JSString.chars "h5p" ++ "/"%char
              :: JSString.chars "entrepreneur-legacy-quick-awareness") at 1.
    rewrite url_segment_none_here. exact IH.
Qed.

Lemma chars_append (a b : string) :
  JSString.chars (a ++ b)%string = JSString.chars a ++ JSString.chars b.
Proof.
  unfold JSString.chars. induction a as [|c a IH]; [reflexivity|].
  change (c :: list_ascii_of_string (a ++ b)%string
          = c :: (list_ascii_of_string a ++ list_ascii_of_string b)).
  f_equal. exact IH.
Qed.

Lemma truthy_append (a b : string) :
  JSString.truthy b = true -> JSString.truthy (a ++ b)%string = true.
Proof. destruct a; cbn; auto. Qed.

(** C4: for every object identifier that ends in
    "/h5p/entrepreneur-legacy-quick-awareness", without a context extension,
    the code returns "h5p", not the last segment: the leftmost match of the
    pattern for URLs starts at the slash before "h5p" and takes the last
    segment for the optional trailing one. *)
Theorem extractActivitySlug_object_id_under_h5p (prefix : string) :
  extractActivitySlug
    (statement_of_object (prefix ++ "/h5p/entrepreneur-legacy-quick-awareness")%string)
  = "h5p"
  /\ extractActivitySlug
       (statement_of_object (prefix ++ "/h5p/entrepreneur-legacy-quick-awareness")%string)
     <> "entrepreneur-legacy-quick-awareness".
Proof.
  assert (H : extractActivitySlug
                (statement_of_object (prefix ++ "/h5p/entrepreneur-legacy-quick-awareness")%string)
              = "h5p").
  { unfold extractActivitySlug, statement_of_object.
    cbn [context_contentId context_content_id object_id or_str truthy_str].
    rewrite truthy_append by reflexivity.
    unfold RegExp.match1 at 1.
    rewrite chars_append, search_url_segment_under_h5p. reflexivity. }
  split; [exact H|]. rewrite H. discriminate.
Qed.

(** The instance of the specification's example. *)
Example extractActivitySlug_localhost :
  extractActivitySlug
    (statement_of_object "http://localhost:5173/h5p/entrepreneur-legacy-quick-awareness")
  = "h5p".
Proof. vm_compute. reflexivity. Qed.

(** * Further properties of the hook *)

(** ** The store adapter, write side *)

Lemma safeStoreJSON_fails (ls : LocalStorage) (key : string) (data : JSValue) :
  accessible ls && negb (full ls) = false ->
  safeStoreJSON ls key data = (ls, false).
Proof. intros H. unfold safeStoreJSON, setItem. rewrite H. reflexivity. Qed.

(** ** clearProgress *)

Lemma clearProgress_accessible (ls : LocalStorage) :
  accessible ls = true ->
  clearProgress ls
  = (with_entries ls (delete PROGRESS_SUMMARY_KEY (delete PROGRESS_KEY (entries ls))), true).
Proof.
  intros Ha. unfold clearProgress, removeItem. rewrite Ha.
  cbn [bindC with_entries accessible]. rewrite Ha. reflexivity.
Qed.

(** X2: on a store that can be accessed, [clearProgress] returns true,
    after it [getProgress] is the empty mapping and [getProgressSummary] the
    zeroed default, and every other key keeps its text; on a store that
    cannot be accessed it returns false and changes nothing. *)
Theorem clearProgress_resets (ls : LocalStorage) :
  (accessible ls = true ->
     (clearProgress ls).2 = true
     /\ getProgress (clearProgress ls).1 = JObj ∅
     /\ getProgressSummary (clearProgress ls).1 = summary_object default_summary
     /\ forall k, k <> PROGRESS_KEY -> k <> PROGRESS_SUMMARY_KEY ->
          entries (clearProgress ls).1 !! k = entries ls !! k)
  /\ (accessible ls = false -> clearProgress ls = (ls, false)).
Proof.
  split.
  - intros Ha. rewrite (clearProgress_accessible ls Ha). cbn [fst snd].
    split; [reflexivity|]. split; [|split].
    + unfold getProgress. rewrite safeParseJSON_accessible by exact Ha.
      cbn [with_entries entries].
      rewrite lookup_delete_ne by (apply not_eq_sym, keys_distinct).
      rewrite lookup_delete_eq. reflexivity.
    + unfold getProgressSummary. rewrite safeParseJSON_accessible by exact Ha.
      cbn [with_entries entries]. rewrite lookup_delete_eq. reflexivity.
    + intros k H1 H2. cbn [with_entries entries].
      rewrite lookup_delete_ne by congruence.
      rewrite lookup_delete_ne by congruence. reflexivity.
  - intros Ha. unfold clearProgress, removeItem. rewrite Ha. reflexivity.
Qed.

Lemma clearProgress_resets_witness :
  getProgress (clearProgress stuck_storage).1 = JObj ∅
  /\ entries (clearProgress stuck_storage).1 !! "demo-theme" = Some Malformed.
Proof.
  destruct (proj1 (clearProgress_resets stuck_storage) eq_refl) as (_ & Hp & _ & Hk).
  split; [exact Hp|].
  rewrite (Hk "demo-theme"); [vm_compute; reflexivity|discriminate|discriminate].
Defined.

(** ** What a call of updateProgress can do to the store *)

(** A call returns the store as it was, or stores a mapping under the
    progress key and hands it to [updateProgressSummary]. *)
Lemma updateProgress_shape (clock : Clock) (ls : LocalStorage) (statement : Statement) :
  updateProgress clock ls statement = ls
  \/ exists m,
       updateProgress clock ls statement
       = updateProgressSummary (now_summary clock)
           (safeStoreJSON ls PROGRESS_KEY (JObj m)).1 m.
Proof.
  unfold updateProgress.
  destruct (not_tracked (verb_id statement)); [auto|].
  unfold updateProgress_body.
  destruct (safeParseJSON ls PROGRESS_KEY (JObj ∅)) as [p|m].
  { destruct p; cbn; auto. }
  cbn [get_prop bindC].
  destruct (m !! extractActivitySlug statement) as [[p|r0]|] eqn:Es.
  - destruct (truthy_prim p) eqn:Tp; cbn [truthy_prop negb]; rewrite Tp; cbn [negb].
    + cbn [bindC get_prop]. rewrite Es. cbn [as_record bindC try_catch]. auto.
    + cbn [set_prop bindC get_prop]. rewrite lookup_insert_eq.
      cbn [as_record bindC set_prop try_catch]. right. eauto.
  - cbn [truthy_prop negb bindC get_prop]. rewrite Es.
    cbn [as_record bindC set_prop try_catch]. right. eauto.
  - cbn [truthy_prop negb set_prop bindC get_prop]. rewrite lookup_insert_eq.
    cbn [as_record bindC set_prop try_catch]. right. eauto.
Qed.

Lemma updateProgressSummary_shape (now : string) (ls : LocalStorage)
    (m : gmap string PropValue) :
  updateProgressSummary now ls m = ls
  \/ exists sm,
       updateProgressSummary now ls m
       = (safeStoreJSON ls PROGRESS_SUMMARY_KEY (summary_object sm)).1.
Proof.
  unfold updateProgressSummary.
  destruct (compute_summary now m) as [sm|]; cbn [bindC try_catch]; eauto.
Qed.

Lemma safeStoreJSON_other_key (ls : LocalStorage) (key k : string) (data : JSValue) :
  k <> key ->
  entries (safeStoreJSON ls key data).1 !! k = entries ls !! k.
Proof.
  intros Hne. destruct (safeStoreJSON_cases ls key data) as [-> | ->]; [reflexivity|].
  cbn [with_entries entries]. apply lookup_insert_ne. congruence.
Qed.

Lemma safeStoreJSON_flags (ls : LocalStorage) (key : string) (data : JSValue) :
  accessible (safeStoreJSON ls key data).1 = accessible ls
  /\ full (safeStoreJSON ls key data).1 = full ls.
Proof.
  destruct (safeStoreJSON_cases ls key data) as [-> | ->]; auto.
Qed.

(** X3: a call of [updateProgress] changes no entry of the store other than
    those of the progress key and of the summary key, whatever the store and
    the statement. *)
Theorem updateProgress_other_keys (clock : Clock) (ls : LocalStorage)
    (statement : Statement) (k : string) :
  k <> PROGRESS_KEY ->
  k <> PROGRESS_SUMMARY_KEY ->
  entries (updateProgress clock ls statement) !! k = entries ls !! k.
Proof.
  intros H1 H2.
  destruct (updateProgress_shape clock ls statement) as [-> | (m & ->)]; [reflexivity|].
  destruct (updateProgressSummary_shape (now_summary clock)
              (safeStoreJSON ls PROGRESS_KEY (JObj m)).1 m) as [-> | (sm & ->)].
  - apply safeStoreJSON_other_key. exact H1.
  - rewrite safeStoreJSON_other_key by exact H2.
    apply safeStoreJSON_other_key. exact H1.
Qed.

Lemma updateProgress_other_keys_witness :
  entries
    (updateProgress sample_clock
       (with_entries sample_storage (<["demo-theme" := Malformed]> (entries sample_storage)))
       (statement_for COMPLETED "/h5p/personality-quiz" (Some (scored 8 10))))
  !! "demo-theme"
  = Some Malformed.
Proof.
  rewrite updateProgress_other_keys; [vm_compute; reflexivity|discriminate|discriminate].
Defined.

Lemma unwritable_noop (clock : Clock) (ls : LocalStorage) (statement : Statement) :
  accessible ls && negb (full ls) = false ->
  updateProgress clock ls statement = ls.
Proof.
  intros Hw.
  destruct (updateProgress_shape clock ls statement) as [-> | (m & ->)]; [reflexivity|].
  rewrite (safeStoreJSON_fails ls _ _ Hw). cbn [fst].
  destruct (updateProgressSummary_shape (now_summary clock) ls m) as [-> | (sm & ->)];
    [reflexivity|].
  rewrite (safeStoreJSON_fails ls _ _ Hw). reflexivity.
Qed.

(** X4: when the browser store cannot be written (it cannot be accessed, or
    its quota is exhausted), a call of [updateProgress] leaves the store as
    it was, for every statement. *)
Theorem updateProgress_unwritable_noop (clock : Clock) (ls : LocalStorage)
    (statement : Statement) :
  accessible ls = false \/ full ls = true ->
  updateProgress clock ls statement = ls.
Proof.
  intros H. apply unwritable_noop.
  destruct H as [-> | ->]; [reflexivity|]. apply andb_false_r.
Qed.

Lemma updateProgress_unwritable_noop_witness :
  updateProgress sample_clock full_storage
    (statement_for COMPLETED "/h5p/personality-quiz" (Some (scored 8 10)))
  = full_storage.
Proof.
  apply updateProgress_unwritable_noop. right. reflexivity.
Defined.

(** ** The members of a record, one call at a time *)

Lemma record_result_slug (result : option Result) (r : ActivityProgress) :
  slug (record_result result r) = slug r.
Proof. destruct result; reflexivity. Qed.

Lemma apply_verb_slug (clock : Clock) (verb : option string) (result : option Result)
    (r : ActivityProgress) :
  slug (apply_verb clock verb result r) = slug r.
Proof.
  unfold apply_verb, touch, on_answered, on_completed. cbn [slug].
  destruct (verb_endsWith verb "/completed"); destruct (verb_endsWith verb "/answered");
    rewrite ?record_result_slug; cbn [slug]; rewrite ?record_result_slug; reflexivity.
Qed.

(** ** Histories of statements *)

(** The record of a slug after one call, for any statement. *)
Lemma updateProgress_record_cases (e : Event) (ls : LocalStorage) (s : string) :
  well_formed ls ->
  progress_record (updateProgress e.1 ls e.2) s
  = if tracked_for s e
    then Some (apply_verb e.1 (verb_id e.2) (stmt_result e.2) (current_record e.1 ls s))
    else progress_record ls s.
Proof.
  intros Hwf. unfold tracked_for.
  destruct (qualifies (verb_id e.2)) eqn:Hq; cbn [andb].
  - destruct (String.eqb_spec (extractActivitySlug e.2) s) as [Hs|Hs].
    + destruct (updateProgress_views e.1 ls e.2 Hwf Hq) as (m & _ & _ & _ & _ & Hrec).
      rewrite Hs in Hrec. exact Hrec.
    + apply updateProgress_other_record; [exact Hwf|congruence].
  - rewrite (qualifies_false_noop _ _ _ Hq). reflexivity.
Qed.

Lemma slugs_consistent_step (e : Event) (ls : LocalStorage) :
  well_formed ls ->
  slugs_consistent ls ->
  slugs_consistent (updateProgress e.1 ls e.2).
Proof.
  intros Hwf Hcons k r. rewrite (updateProgress_record_cases e ls k Hwf).
  unfold tracked_for.
  destruct (qualifies (verb_id e.2) && (extractActivitySlug e.2 =? k)%string);
    [|apply Hcons].
  intros [= <-]. rewrite apply_verb_slug. unfold current_record.
  destruct (progress_record ls k) as [r0|] eqn:Hr; cbn; [|reflexivity].
  exact (Hcons k r0 Hr).
Qed.

(** X10: in a store of the normal flow where every record sits under the
    key that its slug member names, this is still so after any history of
    calls; it is so from the empty store. *)
Theorem slug_member_is_key (events : list Event) (ls : LocalStorage) :
  well_formed ls ->
  slugs_consistent ls ->
  slugs_consistent (run ls events).
Proof.
  revert ls. induction events as [|e events IH]; intros ls Hwf Hcons; [exact Hcons|].
  change (run ls (e :: events)) with (run (updateProgress e.1 ls e.2) events).
  apply IH.
  - apply well_formed_updateProgress. exact Hwf.
  - apply slugs_consistent_step; assumption.
Qed.

Lemma slug_member_is_key_witness :
  slugs_consistent
    (run empty_storage
       [(sample_clock, statement_for ANSWERED "/h5p/personality-quiz" (Some (scored 1 1)));
        (sample_clock, statement_for COMPLETED "/h5p/other-quiz" None)]).
Proof.
  apply slug_member_is_key.
  - exact (conj eq_refl (conj eq_refl I)).
  - intros k r H. vm_compute in H. discriminate H.
Defined.

(** ** The matcher *)

(** Where a greedy repetition succeeds, it has consumed a run of the class
    of at least the minimal length. *)
Lemma rep_some {R : Type} (p : ascii -> bool) (s : list ascii) :
  forall (min : nat) (cap : option (list ascii)) (k : @RegExp.cont R) (x : R),
  RegExp.rep p min s cap k = Some x ->
  exists pre s',
    s = pre ++ s' /\ forallb p pre = true /\ (min <= length pre)%nat
    /\ k s' cap = Some x.
Proof.
  induction s as [|c s IH]; intros min cap k x H.
  - cbn in H. destruct min; [|discriminate]. exists [], []. repeat split; auto.
  - cbn [RegExp.rep] in H.
    assert (Hstop : match min with O => k (c :: s) cap | S _ => None end = Some x ->
              exists pre s', c :: s = pre ++ s' /\ forallb p pre = true
                /\ (min <= length pre)%nat /\ k s' cap = Some x).
    { destruct min; [|discriminate]. intros Hk. exists [], (c :: s). repeat split; auto. }
    destruct (p c) eqn:Hc; [|auto].
    destruct (RegExp.rep p (Nat.pred min) s cap k) as [y|] eqn:E; [|auto].
    injection H as ->.
    destruct (IH _ _ _ _ E) as (pre & s' & -> & Hpre & Hmin & Hk).
    exists (c :: pre), s'. cbn. rewrite Hc. repeat split; auto. lia.
Qed.

(** A greedy repetition takes the whole run in front of it when the
    continuation accepts what follows. *)
Lemma rep_run {R : Type} (p : ascii -> bool) (pre s' : list ascii) :
  forall (min : nat) (cap : option (list ascii)) (k : @RegExp.cont R) (x : R),
  forallb p pre = true ->
  match s' with [] => True | c :: _ => p c = false end ->
  (min <= length pre)%nat ->
  k s' cap = Some x ->
  RegExp.rep p min (pre ++ s') cap k = Some x.
Proof.
  induction pre as [|c pre IH]; intros min cap k x Hpre Hs' Hmin Hk.
  - cbn in Hmin. assert (min = 0%nat) as -> by lia. cbn [app].
    destruct s' as [|c s']; cbn; [exact Hk|]. rewrite Hs'. exact Hk.
  - cbn in Hpre. apply andb_true_iff in Hpre as [Hc Hpre].
    cbn [app RegExp.rep]. rewrite Hc.
    rewrite (IH (Nat.pred min) cap k x Hpre Hs'); [reflexivity| |exact Hk].
    cbn in Hmin. lia.
Qed.

(** A pattern without capture group hands the capture on unchanged. *)
Lemma exec_capture_free {R : Type} (r : RegExp.re) :
  capture_free r = true ->
  forall (s : list ascii) (cap : option (list ascii)) (k : @RegExp.cont R) (x : R),
  RegExp.exec r s cap k = Some x -> exists s', k s' cap = Some x.
Proof.
  induction r as [c|p min|r1 IH1 r2 IH2|r IH|r IH|]; intros Hf s cap k x H;
    cbn [capture_free] in Hf; cbn [RegExp.exec] in H.
  - destruct s as [|c' s]; [discriminate|].
    destruct (Ascii.eqb c c'); [eauto|discriminate].
  - destruct (rep_some p s min cap k x H) as (_ & s' & _ & _ & _ & Hk). eauto.
  - apply andb_true_iff in Hf as [Hf1 Hf2].
    destruct (IH1 Hf1 _ _ _ _ H) as (s1 & H1).
    exact (IH2 Hf2 _ _ _ _ H1).
  - destruct (RegExp.exec r s cap k) as [y|] eqn:E.
    + injection H as ->. exact (IH Hf _ _ _ _ E).
    + eauto.
  - discriminate Hf.
  - destruct s; [eauto|discriminate].
Qed.

Lemma take_consumed (pre s' : list ascii) :
  take (length (pre ++ s') - length s') (pre ++ s') = pre.
Proof.
  rewrite length_app.
  replace (length pre + length s' - length s')%nat with (length pre) by lia.
  apply take_app_length.
Qed.

(** What a pattern that captures one run of a class, followed by a part
    without capture, captures: a non-empty run of the class. *)
Lemma capture_run (p : ascii -> bool) (tail : RegExp.re) (s : list ascii)
    (cap : option (list ascii)) (x : option (list ascii)) :
  capture_free tail = true ->
  RegExp.exec (RegExp.Cat (RegExp.Cap (RegExp.Rep p 1)) tail) s cap
    (fun _ c => Some c) = Some x ->
  exists run, x = Some run /\ forallb p run = true /\ run <> [].
Proof.
  intros Hf H. cbn [RegExp.exec] in H.
  destruct (rep_some p s 1 cap _ x H) as (pre & s' & -> & Hpre & Hmin & Hk).
  rewrite take_consumed in Hk.
  destruct (exec_capture_free tail Hf _ _ _ _ Hk) as (s1 & [= <-]).
  exists pre. repeat split; [exact Hpre|]. destruct pre; [cbn in Hmin; lia|discriminate].
Qed.

Lemma search_inv (r : RegExp.re) (s : list ascii) (x : option (list ascii)) :
  RegExp.search r s = Some x ->
  exists s', RegExp.match_here r s' = Some x.
Proof.
  induction s as [|c s IH]; cbn [RegExp.search]; intros H.
  - destruct (RegExp.match_here r []) eqn:E; [|discriminate]. injection H as ->. eauto.
  - destruct (RegExp.match_here r (c :: s)) eqn:E.
    + injection H as ->. eauto.
    + auto.
Qed.

Lemma slashed_capture_run (p : ascii -> bool) (tail : RegExp.re) (s : list ascii)
    (x : option (list ascii)) :
  capture_free tail = true ->
  RegExp.match_here (RegExp.Cat (RegExp.Lit "/") (RegExp.Cat (RegExp.Cap (RegExp.Rep p 1)) tail)) s
  = Some x ->
  exists run, x = Some run /\ forallb p run = true /\ run <> [].
Proof.
  intros Hf H. unfold RegExp.match_here in H.
  cbn [RegExp.exec] in H. destruct s as [|c s]; [discriminate|].
  destruct (Ascii.eqb "/" c); [|discriminate].
  apply (capture_run p tail s None x Hf). exact H.
Qed.

Lemma chars_of_chars (l : list ascii) : JSString.chars (JSString.of_chars l) = l.
Proof. apply list_ascii_of_string_of_list_ascii. Qed.

Lemma of_chars_chars (s : string) : JSString.of_chars (JSString.chars s) = s.
Proof. apply string_of_list_ascii_of_string. Qed.

Lemma alnum_hyphen_not_slash (c : ascii) :
  RegExp.alnum_hyphen c = true -> RegExp.not_slash c = true.
Proof.
  intros H. unfold RegExp.not_slash.
  destruct (Ascii.eqb_spec c "/") as [->|]; [discriminate H|reflexivity].
Qed.

(** Each of the three patterns captures a non-empty run without slash. *)
Lemma match1_segment (r : RegExp.re) (s m : string) :
  r = RegExp.last_segment \/ r = RegExp.url_segment \/ r = RegExp.simple_slug ->
  RegExp.match1 r s = Some m ->
  m <> ""%string /\ forallb RegExp.not_slash (JSString.chars m) = true.
Proof.
  intros Hr H. unfold RegExp.match1 in H.
  destruct (RegExp.search r (JSString.chars s)) as [[cap|]|] eqn:E; try discriminate.
  injection H as <-.
  destruct (search_inv _ _ _ E) as (s' & Hm).
  assert (Hrun : exists run, Some cap = Some run
                   /\ forallb RegExp.not_slash run = true /\ run <> []).
  { destruct Hr as [-> | [-> | ->]].
    - unfold RegExp.last_segment in Hm.
      eapply slashed_capture_run in Hm; [exact Hm|reflexivity].
    - unfold RegExp.url_segment in Hm.
      eapply slashed_capture_run in Hm; [exact Hm|reflexivity].
    - unfold RegExp.match_here, RegExp.simple_slug in Hm.
      eapply capture_run in Hm; [|reflexivity].
      destruct Hm as (run & Hx & Hall & Hne).
      exists run. split; [exact Hx|]. split; [|exact Hne].
      apply forallb_forall. intros c Hc. apply alnum_hyphen_not_slash.
      exact (proj1 (forallb_forall _ _) Hall c Hc). }
  destruct Hrun as (run & [= ->] & Hall & Hne).
  rewrite chars_of_chars. split; [|exact Hall].
  destruct run; [contradiction|discriminate].
Qed.

(** X11: the slug that [extractActivitySlug] returns is never empty and
    contains no slash, whatever the statement. *)
Theorem extractActivitySlug_is_segment (statement : Statement) :
  extractActivitySlug statement <> ""%string
  /\ forallb RegExp.not_slash (JSString.chars (extractActivitySlug statement)) = true.
Proof.
  unfold extractActivitySlug.
  assert (Hfallback : "unknown-activity"%string <> ""%string
            /\ forallb RegExp.not_slash (JSString.chars "unknown-activity") = true).
  { split; [discriminate|reflexivity]. }
  assert (Hobject :
    match
      match object_id statement with
      | Some o =>
          if JSString.truthy o then
            match RegExp.match1 RegExp.url_segment o with
            | Some m => Some m
            | None => RegExp.match1 RegExp.simple_slug o
            end
          else None
      | None => None
      end
    with
    | Some m => m
    | None => "unknown-activity"%string
    end <> ""%string
    /\ forallb RegExp.not_slash (JSString.chars
         match
           match object_id statement with
           | Some o =>
               if JSString.truthy o then
                 match RegExp.match1 RegExp.url_segment o with
                 | Some m => Some m
                 | None => RegExp.match1 RegExp.simple_slug o
                 end
               else None
           | None => None
           end
         with
         | Some m => m
         | None => "unknown-activity"%string
         end) = true).
  { destruct (object_id statement) as [o|]; [|exact Hfallback].
    destruct (JSString.truthy o); [|exact Hfallback].
    destruct (RegExp.match1 RegExp.url_segment o) as [m|] eqn:E1.
    - apply (match1_segment RegExp.url_segment o m); auto.
    - destruct (RegExp.match1 RegExp.simple_slug o) as [m|] eqn:E2; [|exact Hfallback].
      apply (match1_segment RegExp.simple_slug o m); auto. }
  destruct (or_str (context_contentId statement) (context_content_id statement)) as [c|];
    [|exact Hobject].
  destruct (JSString.truthy c); [|exact Hobject].
  destruct (RegExp.match1 RegExp.last_segment c) as [m|] eqn:E; [|exact Hobject].
  apply (match1_segment RegExp.last_segment c m); auto.
Qed.

(** ** Slugs of content identifiers and object identifiers *)

Lemma end_fails {R : Type} (s : list ascii) (cap : option (list ascii))
    (k : @RegExp.cont R) :
  s <> [] -> RegExp.exec RegExp.Eos s cap k = None.
Proof. destruct s; [contradiction|reflexivity]. Qed.

Lemma rep_all {R : Type} (p : ascii -> bool) (s : list ascii) (min : nat)
    (cap : option (list ascii)) (k : @RegExp.cont R) (x : R) :
  forallb p s = true ->
  (min <= length s)%nat ->
  k [] cap = Some x ->
  RegExp.rep p min s cap k = Some x.
Proof.
  intros Hs Hmin Hk. rewrite <- (app_nil_r s). apply rep_run; auto.
Qed.

Lemma last_segment_hit (seg : list ascii) :
  seg <> [] -> forallb RegExp.not_slash seg = true ->
  RegExp.match_here RegExp.last_segment ("/"%char :: seg) = Some (Some seg).
Proof.
  intros Hne Hseg. unfold RegExp.match_here, RegExp.last_segment.
  cbn [RegExp.exec Ascii.eqb Bool.eqb].
  apply rep_all; [exact Hseg| |].
  - destruct seg; [contradiction|cbn; lia].
  - cbn [length]. rewrite Nat.sub_0_r, firstn_all. reflexivity.
Qed.

Lemma last_segment_miss (c : ascii) (l seg : list ascii) :
  RegExp.match_here RegExp.last_segment (c :: l ++ "/"%char :: seg) = None.
Proof.
  unfold RegExp.match_here, RegExp.last_segment. cbn [RegExp.exec].
  destruct (Ascii.eqb "/" c); [|reflexivity].
  apply rep_none. intros pre s' Heq Hpre.
  destruct (slash_free_prefix pre s' l seg Heq Hpre) as (l2 & _ & ->).
  destruct l2; reflexivity.
Qed.

Lemma last_segment_search (l seg : list ascii) :
  seg <> [] -> forallb RegExp.not_slash seg = true ->
  RegExp.search RegExp.last_segment (l ++ "/"%char :: seg) = Some (Some seg).
Proof.
  intros Hne Hseg. induction l as [|c l IH].
  - cbn [app]. destruct seg as [|d seg]; [contradiction|].
    cbn [RegExp.search]. rewrite (last_segment_hit (d :: seg)); auto.
  - cbn [app RegExp.search]. rewrite last_segment_miss. exact IH.
Qed.

Lemma chars_nonempty (s : string) : s <> ""%string -> JSString.chars s <> [].
Proof. destruct s; [contradiction|discriminate]. Qed.

Lemma chars_slashed (path seg : string) :
  JSString.chars (path ++ "/" ++ seg)%string
  = JSString.chars path ++ "/"%char :: JSString.chars seg.
Proof. rewrite chars_append. reflexivity. Qed.

Lemma match1_last_segment (path seg : string) :
  seg <> ""%string ->
  forallb RegExp.not_slash (JSString.chars seg) = true ->
  RegExp.match1 RegExp.last_segment (path ++ "/" ++ seg)%string = Some seg.
Proof.
  intros Hne Hseg. unfold RegExp.match1.
  rewrite chars_slashed, last_segment_search; auto using chars_nonempty.
  rewrite of_chars_chars. reflexivity.
Qed.

(** X12: when the context carries a content identifier (under the key
    contentId, or under the tincanapi key when the first is absent or empty)
    that ends in a slash followed by a non-empty segment without slash, the
    slug is that last segment, whatever the object identifier. *)
Theorem extractActivitySlug_contentId_last_segment (statement : Statement)
    (path seg : string) :
  (context_contentId statement = Some (path ++ "/" ++ seg)%string
   \/ (truthy_str (context_contentId statement) = false
       /\ context_content_id statement = Some (path ++ "/" ++ seg)%string)) ->
  seg <> ""%string ->
  forallb RegExp.not_slash (JSString.chars seg) = true ->
  extractActivitySlug statement = seg.
Proof.
  intros Hc Hne Hseg.
  assert (Ht : JSString.truthy (path ++ "/" ++ seg)%string = true).
  { apply truthy_append. reflexivity. }
  assert (Hor : or_str (context_contentId statement) (context_content_id statement)
                = Some (path ++ "/" ++ seg)%string).
  { unfold or_str. destruct Hc as [-> | [-> ->]]; [|reflexivity].
    cbn [truthy_str]. rewrite Ht. reflexivity. }
  unfold extractActivitySlug. rewrite Hor, Ht.
  rewrite (match1_last_segment path seg Hne Hseg). reflexivity.
Qed.

Lemma extractActivitySlug_contentId_last_segment_witness :
  extractActivitySlug
    (statement_with (Some ""%string) (Some "/h5p/personality-quiz"%string)
       (Some "http://localhost:5173/h5p/other"%string))
  = "personality-quiz"%string.
Proof.
  apply (extractActivitySlug_contentId_last_segment _ "/h5p" "personality-quiz").
  - right. split; reflexivity.
  - discriminate.
  - reflexivity.
Defined.

Lemma url_segment_hit (a b : list ascii) :
  a <> [] ->
  forallb RegExp.not_slash a = true ->
  forallb RegExp.not_slash b = true ->
  RegExp.match_here RegExp.url_segment ("/"%char :: a ++ "/"%char :: b) = Some (Some a).
Proof.
  intros Hne Ha Hb. unfold RegExp.match_here, RegExp.url_segment.
  cbn [RegExp.exec Ascii.eqb Bool.eqb].
  apply rep_run; [exact Ha|reflexivity| |].
  - destruct a; [contradiction|cbn; lia].
  - rewrite take_consumed. cbn [Ascii.eqb Bool.eqb].
    rewrite (rep_all RegExp.not_slash b 0 (Some a) _ (Some a)); auto.
    cbn. lia.
Qed.

Lemma url_segment_search (l a b : list ascii) :
  a <> [] ->
  forallb RegExp.not_slash a = true ->
  forallb RegExp.not_slash b = true ->
  RegExp.search RegExp.url_segment (l ++ "/"%char :: a ++ "/"%char :: b) = Some (Some a).
Proof.
  intros Hne Ha Hb. induction l as [|c l IH].
  - cbn [app RegExp.search]. rewrite url_segment_hit; auto.
  - cbn [app RegExp.search]. rewrite url_segment_none_here. exact IH.
Qed.

(** X13: without a content identifier in the context, the slug of an object
    identifier with at least two slashes is the segment between its last two
    slashes when that segment is not empty: the last segment is taken for
    the optional trailing part, whether it is empty or not. *)
Theorem extractActivitySlug_object_penultimate (statement : Statement)
    (path a b : string) :
  context_contentId statement = None ->
  context_content_id statement = None ->
  object_id statement = Some (path ++ "/" ++ a ++ "/" ++ b)%string ->
  a <> ""%string ->
  forallb RegExp.not_slash (JSString.chars a) = true ->
  forallb RegExp.not_slash (JSString.chars b) = true ->
  extractActivitySlug statement = a.
Proof.
  intros Hc1 Hc2 Ho Hne Ha Hb.
  unfold extractActivitySlug. rewrite Hc1, Hc2, Ho. cbn [or_str truthy_str].
  rewrite truthy_append by reflexivity.
  unfold RegExp.match1 at 1.
  rewrite chars_slashed, chars_slashed.
  rewrite url_segment_search; auto using chars_nonempty.
  rewrite of_chars_chars. reflexivity.
Qed.

Lemma extractActivitySlug_object_penultimate_witness :
  extractActivitySlug (statement_of_object "https://example.org/h5p/personality-quiz/")
  = "personality-quiz"%string
  /\ extractActivitySlug (statement_of_object "https://example.org/activities/quiz/q1")
     = "quiz"%string.
Proof.
  split.
  - apply (extractActivitySlug_object_penultimate _ "https://example.org/h5p"
             "personality-quiz" ""); try reflexivity. discriminate.
  - apply (extractActivitySlug_object_penultimate _ "https://example.org/activities"
             "quiz" "q1"); try reflexivity. discriminate.
Defined.

Lemma class_run_prefix (p : ascii -> bool) (d : ascii) (pre s' l t : list ascii) :
  p d = false ->
  l ++ d :: t = pre ++ s' ->
  forallb p pre = true ->
  exists l2, l = pre ++ l2 /\ s' = l2 ++ d :: t.
Proof.
  intros Hd. revert l. induction pre as [|a pre IH]; intros l Heq Hpre.
  - exists l. split; [reflexivity|]. symmetry. exact Heq.
  - cbn in Hpre. apply andb_true_iff in Hpre as [Ha Hpre].
    destruct l as [|b l].
    + cbn in Heq. injection Heq as <- _. congruence.
    + cbn in Heq. injection Heq as <- Heq.
      destruct (IH l Heq Hpre) as (l2 & -> & ->).
      exists l2. split; reflexivity.
Qed.

Lemma url_segment_no_slash (l : list ascii) :
  forallb RegExp.not_slash l = true ->
  RegExp.search RegExp.url_segment l = None.
Proof.
  induction l as [|c l IH]; intros Hl; [reflexivity|].
  cbn in Hl. apply andb_true_iff in Hl as [Hc Hl].
  cbn [RegExp.search]. unfold RegExp.match_here at 1, RegExp.url_segment at 1.
  cbn [RegExp.exec].
  unfold RegExp.not_slash in Hc. apply negb_true_iff in Hc.
  rewrite Ascii.eqb_sym, Hc. exact (IH Hl).
Qed.

Lemma simple_slug_hit (run : list ascii) :
  run <> [] -> forallb RegExp.alnum_hyphen run = true ->
  RegExp.match_here RegExp.simple_slug run = Some (Some run).
Proof.
  intros Hne Hrun. unfold RegExp.match_here, RegExp.simple_slug. cbn [RegExp.exec].
  apply rep_all; [exact Hrun| |].
  - destruct run; [contradiction|cbn; lia].
  - cbn [length]. rewrite Nat.sub_0_r, firstn_all. reflexivity.
Qed.

Lemma simple_slug_miss (u t : list ascii) (d : ascii) :
  RegExp.alnum_hyphen d = false ->
  RegExp.match_here RegExp.simple_slug (u ++ d :: t) = None.
Proof.
  intros Hd. unfold RegExp.match_here, RegExp.simple_slug. cbn [RegExp.exec].
  apply rep_none. intros pre s' Heq Hpre.
  destruct (class_run_prefix _ d pre s' u t Hd Heq Hpre) as (l2 & _ & ->).
  destruct l2; reflexivity.
Qed.

Lemma simple_slug_search (j run : list ascii) (d : ascii) :
  RegExp.alnum_hyphen d = false ->
  run <> [] -> forallb RegExp.alnum_hyphen run = true ->
  RegExp.search RegExp.simple_slug (j ++ d :: run) = Some (Some run).
Proof.
  intros Hd Hne Hrun. induction j as [|c j IH].
  - cbn [app RegExp.search].
    pose proof (simple_slug_miss [] run d Hd) as Hmiss. cbn [app] in Hmiss.
    rewrite Hmiss.
    destruct run as [|a run]; [contradiction|].
    cbn [RegExp.search]. rewrite simple_slug_hit; auto.
  - cbn [app RegExp.search].
    pose proof (simple_slug_miss (c :: j) run d Hd) as Hmiss. cbn [app] in Hmiss.
    rewrite Hmiss. exact IH.
Qed.

Lemma simple_slug_search_whole (run : list ascii) :
  run <> [] -> forallb RegExp.alnum_hyphen run = true ->
  RegExp.search RegExp.simple_slug run = Some (Some run).
Proof.
  intros Hne Hrun. destruct run as [|a run]; [contradiction|].
  cbn [RegExp.search]. rewrite simple_slug_hit; auto.
Qed.

Lemma forallb_alnum_not_slash (l : list ascii) :
  forallb RegExp.alnum_hyphen l = true -> forallb RegExp.not_slash l = true.
Proof.
  intros H. apply forallb_forall. intros c Hc. apply alnum_hyphen_not_slash.
  exact (proj1 (forallb_forall _ _) H c Hc).
Qed.

(** X14: without a content identifier in the context, the slug of an object
    identifier without slash is its longest trailing run of ASCII letters,
    digits and hyphens, when that run is not empty: the whole identifier
    when it consists of such characters. *)
Theorem extractActivitySlug_plain_identifier (statement : Statement)
    (junk run : string) :
  context_contentId statement = None ->
  context_content_id statement = None ->
  object_id statement = Some (junk ++ run)%string ->
  forallb RegExp.not_slash (JSString.chars junk) = true ->
  (junk = ""%string
   \/ exists j d, junk = (j ++ String d "")%string /\ RegExp.alnum_hyphen d = false) ->
  run <> ""%string ->
  forallb RegExp.alnum_hyphen (JSString.chars run) = true ->
  extractActivitySlug statement = run.
Proof.
  intros Hc1 Hc2 Ho Hjunk Hend Hne Hrun.
  unfold extractActivitySlug. rewrite Hc1, Hc2, Ho. cbn [or_str truthy_str].
  rewrite truthy_append by (destruct run; [contradiction|reflexivity]).
  unfold RegExp.match1.
  rewrite chars_append.
  rewrite url_segment_no_slash.
  2:{ rewrite forallb_app, Hjunk. apply forallb_alnum_not_slash. exact Hrun. }
  destruct Hend as [-> | (j & d & -> & Hd)].
  - cbn [JSString.chars list_ascii_of_string app].
    fold (JSString.chars run).
    rewrite simple_slug_search_whole; auto using chars_nonempty.
    rewrite of_chars_chars. reflexivity.
  - rewrite chars_append. cbn [JSString.chars list_ascii_of_string].
    fold (JSString.chars j). fold (JSString.chars run).
    rewrite <- app_assoc. cbn [app].
    rewrite simple_slug_search; auto using chars_nonempty.
    rewrite of_chars_chars. reflexivity.
Qed.

Lemma extractActivitySlug_plain_identifier_witness :
  extractActivitySlug (statement_of_object "personality-quiz") = "personality-quiz"%string
  /\ extractActivitySlug (statement_of_object "urn:h5p:quiz-7") = "quiz-7"%string.
Proof.
  split.
  - apply (extractActivitySlug_plain_identifier _ "" "personality-quiz");
      try reflexivity; [left; reflexivity|discriminate].
  - apply (extractActivitySlug_plain_identifier _ "urn:h5p:" "quiz-7");
      try reflexivity; [|discriminate].
    right. exists "urn:h5p"%string, ":"%char. split; reflexivity.
Defined.

(** ** Ranges *)

Lemma Math_round_mono (x y : Q) : (x <= y)%Q -> Math_round x <= Math_round y.
Proof.
  intros H. unfold Math_round. apply Qfloor_resp_le.
  apply Qplus_le_l. exact H.
Qed.


Lemma ratio_between (lo hi n d : Z) :
  0 < d -> lo * d <= n -> n <= hi * d ->
  (inject_Z lo <= ratio n d)%Q /\ (ratio n d <= inject_Z hi)%Q.
Proof.
  intros Hd Hlo Hhi. unfold ratio.
  assert (Hdq : (0 < inject_Z d)%Q).
  { change 0%Q with (inject_Z 0). rewrite <- Zlt_Qlt. exact Hd. }
  split.
  - apply Qle_shift_div_l; [exact Hdq|].
    rewrite <- inject_Z_mult, <- Zle_Qle. exact Hlo.
  - apply Qle_shift_div_r; [exact Hdq|].
    rewrite <- inject_Z_mult, <- Zle_Qle. exact Hhi.
Qed.




Lemma Math_round_ge (lo : Z) (x : Q) : (inject_Z lo <= x)%Q -> lo <= Math_round x.
Proof.
  intros H. rewrite <- (Math_round_inject_Z lo). apply Math_round_mono. exact H.
Qed.

Lemma Math_round_le (hi : Z) (x : Q) : (x <= inject_Z hi)%Q -> Math_round x <= hi.
Proof.
  intros H. rewrite <- (Math_round_inject_Z hi). apply Math_round_mono. exact H.
Qed.

Lemma ratio_ge (lo n d : Z) : 0 < d -> lo * d <= n -> (inject_Z lo <= ratio n d)%Q.
Proof.
  intros Hd Hlo. unfold ratio.
  apply Qle_shift_div_l.
  - change 0%Q with (inject_Z 0). rewrite <- Zlt_Qlt. exact Hd.
  - rewrite <- inject_Z_mult, <- Zle_Qle. exact Hlo.
Qed.

Lemma ratio_le (hi n d : Z) : 0 < d -> n <= hi * d -> (ratio n d <= inject_Z hi)%Q.
Proof.
  intros Hd Hhi. unfold ratio.
  apply Qle_shift_div_r.
  - change 0%Q with (inject_Z 0). rewrite <- Zlt_Qlt. exact Hd.
  - rewrite <- inject_Z_mult, <- Zle_Qle. exact Hhi.
Qed.

Lemma sum_percentages_ge (lo : Z) (rs : list ActivityProgress) :
  Forall (fun r => lo <= completionPercentage r) rs ->
  lo * Z.of_nat (length rs) <= sum_percentages rs.
Proof.
  induction 1 as [|r rs Hr _ IH]; unfold sum_percentages in *; cbn [foldr length].
  - lia.
  - rewrite Nat2Z.inj_succ. lia.
Qed.

Lemma sum_percentages_le (hi : Z) (rs : list ActivityProgress) :
  Forall (fun r => completionPercentage r <= hi) rs ->
  sum_percentages rs <= hi * Z.of_nat (length rs).
Proof.
  induction 1 as [|r rs Hr _ IH]; unfold sum_percentages in *; cbn [foldr length].
  - lia.
  - rewrite Nat2Z.inj_succ. lia.
Qed.

Lemma rounded_mean_ge (lo : Z) (rs : list ActivityProgress) :
  lo <= 0 ->
  Forall (fun r => lo <= completionPercentage r) rs ->
  lo <= rounded_mean rs.
Proof.
  intros H0 Hall. unfold rounded_mean. destruct rs as [|r rs]; [exact H0|].
  apply Math_round_ge, ratio_ge; [cbn [length]; lia|].
  apply sum_percentages_ge. exact Hall.
Qed.

Lemma rounded_mean_le (hi : Z) (rs : list ActivityProgress) :
  0 <= hi ->
  Forall (fun r => completionPercentage r <= hi) rs ->
  rounded_mean rs <= hi.
Proof.
  intros H0 Hall. unfold rounded_mean. destruct rs as [|r rs]; [exact H0|].
  apply Math_round_le, ratio_le; [cbn [length]; lia|].
  apply sum_percentages_le. exact Hall.
Qed.

Lemma rounded_rate_between (n d : nat) :
  (n <= d)%nat -> 0 <= rounded_rate n d <= 100.
Proof.
  intros Hnd. unfold rounded_rate. destruct d as [|d]; [lia|].
  assert (H1 : (inject_Z 0 <= ratio (Z.of_nat n) (Z.of_nat (S d)))%Q)
    by (apply ratio_ge; lia).
  assert (H2 : (ratio (Z.of_nat n) (Z.of_nat (S d)) <= inject_Z 1)%Q)
    by (apply ratio_le; lia).
  split.
  - apply Math_round_ge.
    change (inject_Z 0) with (0 * 100)%Q. apply Qmult_le_compat_r; [exact H1|discriminate].
  - apply Math_round_le.
    change (inject_Z 100) with (1 * 100)%Q. apply Qmult_le_compat_r; [exact H2|discriminate].
Qed.

Lemma length_omap_le {A B} (f : A -> option B) (l : list A) :
  (length (omap f l) <= length l)%nat.
Proof.
  induction l as [|a l IH]; cbn; [lia|]. destruct (f a); cbn; lia.
Qed.

Lemma completed_records_le (m : gmap string PropValue) :
  (length (completed_records (activity_records m)) <= size m)%nat.
Proof.
  unfold completed_records, activity_records.
  pose proof (List.filter_length_le isCompleted (omap as_activity (Object_values m))).
  pose proof (length_omap_le as_activity (Object_values m)).
  assert (length (Object_values m) = size m).
  { unfold Object_values. rewrite length_fmap. apply length_map_to_list. }
  lia.
Qed.

Lemma completed_with_positive_ge (rs : list ActivityProgress) :
  Forall (fun r => 0 <= completionPercentage r) (completed_with_positive rs).
Proof.
  unfold completed_with_positive.
  apply List.Forall_forall. intros r Hin.
  apply List.filter_In in Hin as [_ Hp].
  apply andb_true_iff in Hp as [_ Hp]. apply Z.ltb_lt in Hp. lia.
Qed.

Lemma completed_with_positive_le (hi : Z) (rs : list ActivityProgress) :
  Forall (fun r => completionPercentage r <= hi) rs ->
  Forall (fun r => completionPercentage r <= hi) (completed_with_positive rs).
Proof.
  intros Hall. unfold completed_with_positive.
  apply List.Forall_forall. intros r Hin.
  apply List.filter_In in Hin as [Hin _].
  exact (proj1 (List.Forall_forall _ _) Hall r Hin).
Qed.

(** X16: in every summary that [updateProgressSummary] computes, the
    completed activities are at most the activities, the completion rate
    lies between 0 and 100 and the average score is not negative; the
    average score is at most 100 when no activity has a completion
    percentage above 100. *)
Theorem summary_in_range (now : string) (m : gmap string PropValue)
    (sm : ProgressSummary) :
  compute_summary now m = Normal sm ->
  (completedActivities sm <= totalActivities sm)%nat
  /\ 0 <= completionRate sm <= 100
  /\ 0 <= averageScorePercent sm
  /\ (Forall (fun r => completionPercentage r <= 100) (activity_records m) ->
      averageScorePercent sm <= 100).
Proof.
  intros H. rewrite (compute_summary_normal_inv now m sm H).
  cbn [summary_of totalActivities completedActivities completionRate averageScorePercent].
  pose proof (completed_records_le m) as Hle.
  split; [exact Hle|]. split; [exact (rounded_rate_between _ _ Hle)|]. split.
  - apply (rounded_mean_ge 0); [lia|]. apply completed_with_positive_ge.
  - intros Hall. apply rounded_mean_le; [lia|].
    apply completed_with_positive_le. exact Hall.
Qed.

Lemma summary_in_range_witness :
  exists sm,
    compute_summary "2025-09-29T12:00:00.002Z" sample_mapping = Normal sm
    /\ 0 <= completionRate sm <= 100
    /\ 0 <= averageScorePercent sm.
Proof.
  assert (H : compute_summary "2025-09-29T12:00:00.002Z" sample_mapping
              = Normal (summary_of "2025-09-29T12:00:00.002Z" sample_mapping)).
  { apply compute_summary_closed. vm_compute. repeat constructor; discriminate. }
  eexists. split; [exact H|].
  destruct (summary_in_range _ _ _ H) as (_ & Hr & Ha & _).
  split; [exact Hr|exact Ha].
Defined.

(** ** The statement log *)

Lemma safeStoreJSON_log_ok (t : Tracker) (data : LogValue) :
  accessible (storage t) = true -> full (storage t) = false ->
  safeStoreJSON_log t data = ({| storage := storage t; log := Some (LogJson data) |}, true).
Proof.
  intros Ha Hf. unfold safeStoreJSON_log, setItem_log. rewrite Ha, Hf. reflexivity.
Qed.

Lemma safeStoreJSON_log_fails (t : Tracker) (data : LogValue) :
  accessible (storage t) && negb (full (storage t)) = false ->
  safeStoreJSON_log t data = (t, false).
Proof. intros H. unfold safeStoreJSON_log, setItem_log. rewrite H. reflexivity. Qed.

Lemma getRecords_stored (s : LocalStorage) (v : LogValue) :
  accessible s = true ->
  getRecords {| storage := s; log := Some (LogJson v) |} = v.
Proof.
  intros Ha. unfold getRecords, safeParseJSON_log, getItem_log. cbn [storage log].
  rewrite Ha. reflexivity.
Qed.

Lemma record_and_track_appends (source : string) (clock : HandlerClock) (t : Tracker)
    (statement : Statement) (l : list XapiRecord) :
  accessible (storage t) = true -> full (storage t) = false ->
  getRecords t = LogArray l ->
  record_and_track source clock t statement
  = Normal
      {| storage := updateProgress (progress_clock clock) (storage t) statement;
         log := Some (LogJson (LogArray
                  (l ++ [{| record_timestamp := now_record clock;
                            record_statement := statement;
                            record_source := source |}]))) |}.
Proof.
  intros Ha Hf Hl. unfold record_and_track.
  change (safeParseJSON_log t (LogArray [])) with (getRecords t). rewrite Hl.
  cbn [push bindC]. rewrite (safeStoreJSON_log_ok t _ Ha Hf). reflexivity.
Qed.

Lemma updateProgress_flags (clock : Clock) (ls : LocalStorage) (statement : Statement) :
  accessible (updateProgress clock ls statement) = accessible ls
  /\ full (updateProgress clock ls statement) = full ls.
Proof.
  destruct (updateProgress_progress_key clock ls statement) as (Ha & Hf & _). auto.
Qed.

(** X17: on a store that can be written and whose log is absent, does not
    parse or is an array, a handler that receives a statement leaves as log
    the former entries (none for an absent or unparsable log) followed by one
    entry that holds the statement as received, the time of the call and the
    tag of the listener ("document" or "H5P.externalDispatcher"), and leaves
    the rest of the store as [updateProgress] does for that statement. *)
Theorem handlers_append_to_log (clock : HandlerClock) (t : Tracker)
    (event : XapiEvent) (statement : Statement) (l : list XapiRecord) :
  accessible (storage t) = true -> full (storage t) = false ->
  getRecords t = LogArray l ->
  (document_statement event = Some statement ->
     getRecords (handleDocumentXapiEvent clock t event)
     = LogArray (l ++ [{| record_timestamp := now_record clock;
                          record_statement := statement;
                          record_source := "document" |}])
     /\ storage (handleDocumentXapiEvent clock t event)
        = updateProgress (progress_clock clock) (storage t) statement)
  /\ (data_statement event = Some statement ->
        getRecords (handleH5PXapiEvent clock t event)
        = LogArray (l ++ [{| record_timestamp := now_record clock;
                             record_statement := statement;
                             record_source := "H5P.externalDispatcher" |}])
        /\ storage (handleH5PXapiEvent clock t event)
           = updateProgress (progress_clock clock) (storage t) statement).
Proof.
  intros Ha Hf Hl.
  assert (Ha' : accessible (updateProgress (progress_clock clock) (storage t) statement)
                = true).
  { rewrite (proj1 (updateProgress_flags _ _ _)). exact Ha. }
  split; intros He.
  - unfold handleDocumentXapiEvent. rewrite He.
    rewrite (record_and_track_appends _ clock t statement l Ha Hf Hl).
    cbn [try_catch storage]. split; [|reflexivity].
    apply getRecords_stored. exact Ha'.
  - unfold handleH5PXapiEvent. rewrite He.
    rewrite (record_and_track_appends _ clock t statement l Ha Hf Hl).
    cbn [try_catch storage]. split; [|reflexivity].
    apply getRecords_stored. exact Ha'.
Qed.

Lemma handlers_append_to_log_witness :
  let statement := statement_for ANSWERED "/h5p/personality-quiz" (Some (scored 1 1)) in
  getRecords
    (handleH5PXapiEvent sample_handler_clock
       {| storage := sample_storage; log := Some LogMalformed |}
       (event_with_data statement))
  = LogArray [{| record_timestamp := "2025-09-29T12:00:00.000Z";
                 record_statement := statement;
                 record_source := "H5P.externalDispatcher" |}].
Proof.
  intros statement.
  exact (proj1 (proj2 (handlers_append_to_log sample_handler_clock
                  {| storage := sample_storage; log := Some LogMalformed |}
                  (event_with_data statement) statement []
                  eq_refl eq_refl eq_refl) eq_refl)).
Defined.

Lemma record_and_track_blocked (source : string) (clock : HandlerClock) (t : Tracker)
    (statement : Statement) (v : JSValue) :
  log t = Some (LogJson (LogOther v)) ->
  try_catch (record_and_track source clock t statement) t = t.
Proof.
  intros Hlog. unfold record_and_track, safeParseJSON_log, getItem_log.
  destruct (accessible (storage t)) eqn:Ha.
  - rewrite Hlog. reflexivity.
  - cbn [bindC try_catch push].
    rewrite safeStoreJSON_log_fails by (rewrite Ha; reflexivity).
    cbn [fst try_catch].
    rewrite unwritable_noop by (rewrite Ha; reflexivity).
    destruct t; reflexivity.
Qed.

(** X18: while the text under the log key parses to a value that is not an
    array, the handlers change nothing, for every event: no log entry is
    added and [updateProgress] is not reached, so that no progress is
    recorded either. *)
Theorem handlers_blocked_by_non_array_log (t : Tracker) (v : JSValue)
    (ds : list Delivery) :
  log t = Some (LogJson (LogOther v)) ->
  deliver_all t ds = t.
Proof.
  intros Hlog. induction ds as [|d ds IH]; [reflexivity|].
  cbn [deliver_all foldl].
  assert (Hd : deliver t d = t).
  { unfold deliver, handleDocumentXapiEvent, handleH5PXapiEvent.
    destruct (ingress d).
    - destruct (document_statement (delivery_event d)); [|reflexivity].
      apply (record_and_track_blocked _ _ _ _ v Hlog).
    - destruct (data_statement (delivery_event d)); [|reflexivity].
      apply (record_and_track_blocked _ _ _ _ v Hlog). }
  rewrite Hd. exact IH.
Qed.

Lemma handlers_blocked_by_non_array_log_witness :
  let t := {| storage := sample_storage; log := Some (LogJson (LogOther (JObj ∅))) |} in
  deliver_all t
    [{| ingress := FromDocument;
        delivery_clock := sample_handler_clock;
        delivery_event :=
          event_with_detail (statement_for COMPLETED "/h5p/personality-quiz" None) |}]
  = t.
Proof.
  intros t. apply (handlers_blocked_by_non_array_log t (JObj ∅)). reflexivity.
Defined.

Lemma deliver_statement (t : Tracker) (d : Delivery) :
  deliver t d
  = match delivered_statement d with
    | None => t
    | Some statement =>
        try_catch
          (record_and_track (source_tag (ingress d)) (delivery_clock d) t statement) t
    end.
Proof.
  unfold deliver, delivered_statement, handleDocumentXapiEvent, handleH5PXapiEvent.
  destruct (ingress d); reflexivity.
Qed.

(** X19: over any sequence of deliveries to the two listeners, on a store
    that can be written and whose log is absent, does not parse or is an
    array, the log is the former entries followed by one entry per delivery
    that carried a statement, in the order of delivery, and the rest of the
    store is what the calls of [updateProgress] for these statements make of
    it, in the same order. *)
Theorem deliveries_logged_in_order (ds : list Delivery) (t : Tracker)
    (l : list XapiRecord) :
  accessible (storage t) = true -> full (storage t) = false ->
  getRecords t = LogArray l ->
  getRecords (deliver_all t ds) = LogArray (l ++ omap record_of ds)
  /\ storage (deliver_all t ds) = run (storage t) (omap progress_event_of ds).
Proof.
  revert t l. induction ds as [|d ds IH]; intros t l Ha Hf Hl.
  - cbn. rewrite app_nil_r. auto.
  - cbn [deliver_all foldl]. fold (deliver_all (deliver t d) ds).
    rewrite deliver_statement.
    unfold record_of, progress_event_of. cbn [omap list_omap].
    destruct (delivered_statement d) as [statement|] eqn:Hd.
    + rewrite (record_and_track_appends _ (delivery_clock d) t statement l Ha Hf Hl).
      cbn [try_catch].
      destruct (updateProgress_flags (progress_clock (delivery_clock d)) (storage t)
                  statement) as [Ha' Hf'].
      destruct (IH {| storage := updateProgress (progress_clock (delivery_clock d))
                                   (storage t) statement;
                      log := Some (LogJson (LogArray
                        (l ++ [{| record_timestamp := now_record (delivery_clock d);
                                  record_statement := statement;
                                  record_source := source_tag (ingress d) |}]))) |}
                  (l ++ [{| record_timestamp := now_record (delivery_clock d);
                            record_statement := statement;
                            record_source := source_tag (ingress d) |}]))
        as [H1 H2].
      * cbn [storage]. rewrite Ha'. exact Ha.
      * cbn [storage]. rewrite Hf'. exact Hf.
      * apply getRecords_stored. rewrite Ha'. exact Ha.
      * rewrite H1, H2. cbn [storage]. rewrite <- app_assoc. split; reflexivity.
    + apply IH; assumption.
Qed.

Lemma deliveries_logged_in_order_witness :
  let first := statement_for ANSWERED "/h5p/personality-quiz" (Some (scored 1 1)) in
  let second := statement_for COMPLETED "/h5p/personality-quiz" (Some (scored 8 10)) in
  getRecords
    (deliver_all empty_tracker
       [{| ingress := FromDocument; delivery_clock := sample_handler_clock;
           delivery_event := event_with_detail first |};
        {| ingress := FromDispatcher; delivery_clock := sample_handler_clock;
           delivery_event := event_with_detail first |};
        {| ingress := FromDispatcher; delivery_clock := sample_handler_clock;
           delivery_event := event_with_data second |}])
  = LogArray
      [{| record_timestamp := "2025-09-29T12:00:00.000Z";
          record_statement := first; record_source := "document" |};
       {| record_timestamp := "2025-09-29T12:00:00.000Z";
          record_statement := second; record_source := "H5P.externalDispatcher" |}].
Proof.
  intros first second.
  exact (proj1 (deliveries_logged_in_order _ empty_tracker [] eq_refl eq_refl eq_refl)).
Defined.

(** X20: on a store that can be accessed, [clearRecords] returns true,
    after it [getRecords] is the empty array, whatever the log held, and the
    rest of the store is untouched; on a store that cannot be accessed it
    returns false and changes nothing. *)
Theorem clearRecords_empties_log (t : Tracker) :
  (accessible (storage t) = true ->
     (clearRecords t).2 = true
     /\ getRecords (clearRecords t).1 = LogArray []
     /\ storage (clearRecords t).1 = storage t)
  /\ (accessible (storage t) = false -> clearRecords t = (t, false)).
Proof.
  unfold clearRecords. split; intros Ha; rewrite Ha; [|reflexivity].
  cbn [fst snd storage]. split; [reflexivity|]. split; [|reflexivity].
  unfold getRecords, safeParseJSON_log, getItem_log. cbn [storage log].
  rewrite Ha. reflexivity.
Qed.

Lemma clearRecords_empties_log_witness :
  getRecords
    (clearRecords {| storage := sample_storage;
                     log := Some (LogJson (LogOther (JPrim PNull))) |}).1
  = LogArray [].
Proof.
  exact (proj1 (proj2 (proj1 (clearRecords_empties_log
           {| storage := sample_storage;
              log := Some (LogJson (LogOther (JPrim PNull))) |}) eq_refl))).
Defined.

Lemma record_and_track_unwritable (source : string) (clock : HandlerClock) (t : Tracker)
    (statement : Statement) :
  accessible (storage t) && negb (full (storage t)) = false ->
  try_catch (record_and_track source clock t statement) t = t.
Proof.
  intros Hw. unfold record_and_track.
  destruct (push (safeParseJSON_log t (LogArray []))
              {| record_timestamp := now_record clock;
                 record_statement := statement;
                 record_source := source |}) as [v|]; [|reflexivity].
  cbn [bindC try_catch].
  rewrite (safeStoreJSON_log_fails t v Hw). cbn [fst].
  rewrite (unwritable_noop _ _ _ Hw). destruct t; reflexivity.
Qed.

(** X21: when the browser store cannot be written (it cannot be accessed,
    or its quota is exhausted), the handlers change nothing, for every
    sequence of deliveries: the statements are dropped. *)
Theorem handlers_drop_on_unwritable_store (t : Tracker) (ds : list Delivery) :
  accessible (storage t) = false \/ full (storage t) = true ->
  deliver_all t ds = t.
Proof.
  intros H.
  assert (Hw : accessible (storage t) && negb (full (storage t)) = false).
  { destruct H as [-> | ->]; [reflexivity|]. apply andb_false_r. }
  induction ds as [|d ds IH]; [reflexivity|].
  cbn [deliver_all foldl]. rewrite deliver_statement.
  destruct (delivered_statement d) as [statement|]; [|exact IH].
  rewrite (record_and_track_unwritable _ _ t statement Hw). exact IH.
Qed.

Lemma handlers_drop_on_unwritable_store_witness :
  let t := {| storage := full_storage; log := None |} in
  deliver_all t
    [{| ingress := FromDocument; delivery_clock := sample_handler_clock;
        delivery_event :=
          event_with_detail (statement_for COMPLETED "/h5p/personality-quiz" None) |}]
  = t.
Proof.
  intros t. apply handlers_drop_on_unwritable_store. right. reflexivity.
Defined.

(** ** The zoom controls *)

Lemma zoom_click_in_range (z : Q) (c : ZoomClick) :
  ((1 # 2) <= z)%Q -> (z <= 2)%Q ->
  ((1 # 2) <= zoom_click z c)%Q /\ (zoom_click z c <= 2)%Q.
Proof.
  intros Hlo Hhi. destruct c; cbn [zoom_click]; unfold handleZoomIn, handleZoomOut.
  - split.
    + apply Q.min_glb; [|discriminate].
      apply Qle_trans with z; [exact Hlo|].
      rewrite <- (Qplus_0_r z) at 1. apply Qplus_le_r. discriminate.
    + apply Q.le_min_r.
  - split.
    + apply Q.le_max_r.
    + apply Q.max_lub; [|discriminate].
      apply Qle_trans with z; [|exact Hhi].
      unfold Qminus. rewrite <- (Qplus_0_r z) at 2. apply Qplus_le_r. discriminate.
Qed.

(** X22: whatever the sequence of clicks on the zoom buttons, the zoom of
    the application stays between 0.5 and 2. *)
Theorem zoom_stays_in_range (clicks : list ZoomClick) :
  ((1 # 2) <= zoom_after clicks)%Q /\ (zoom_after clicks <= 2)%Q.
Proof.
  unfold zoom_after.
  assert (H : forall z, ((1 # 2) <= z)%Q -> (z <= 2)%Q ->
            ((1 # 2) <= foldl zoom_click z clicks)%Q
            /\ (foldl zoom_click z clicks <= 2)%Q).
  { induction clicks as [|c clicks IH]; intros z Hlo Hhi; [auto|].
    cbn [foldl]. destruct (zoom_click_in_range z c Hlo Hhi). apply IH; assumption. }
  apply H; discriminate.
Qed.

(** * Properties of the engine model *)

(** ** Rounding *)

(** [Math.round] on doubles: ties go up, also below zero; a value just
    under one half goes down; the sign of zero is kept. *)
Example Math_round_examples :
  Engine.Math_round 0.5 = 1%float
  /\ Engine.Math_round 1.5 = 2%float
  /\ Engine.Math_round 2.5 = 3%float
  /\ Engine.Math_round (-0.5) = (-0)%float
  /\ Engine.Math_round (-1.5) = (-1)%float
  /\ Engine.Math_round (-2.5) = (-2)%float
  /\ Engine.Math_round 0x1.fffffffffffffp-2 = 0%float
  /\ Engine.Math_round 0x1.cbfffffffffffp+5 = 57%float
  /\ Engine.Math_round 57.5 = 58%float
  /\ Engine.Math_round 4503599627370497 = 4503599627370497%float
  /\ Engine.Math_round infinity = infinity
  /\ Engine.Math_round nan = nan
  /\ Engine.Math_round (-0) = (-0)%float.
Proof. repeat split; vm_compute; reflexivity. Qed.

(** ** Own properties *)

Lemma own_property_replace_eq (k : string) (v : Engine.PropValue) (o : Engine.Obj) :
  Engine.own_property k o <> None ->
  Engine.own_property k (Engine.replace_property k v o) = Some v.
Proof.
  induction o as [|[k' v'] o IH]; cbn; [congruence|].
  destruct (String.eqb k' k) eqn:E; cbn; rewrite E; [reflexivity|exact IH].
Qed.

Lemma own_property_replace_ne (k k' : string) (v : Engine.PropValue) (o : Engine.Obj) :
  k' <> k ->
  Engine.own_property k' (Engine.replace_property k v o) = Engine.own_property k' o.
Proof.
  intros Hne. induction o as [|[k0 v0] o IH]; cbn; [reflexivity|].
  destruct (String.eqb k0 k) eqn:E; cbn.
  - apply String.eqb_eq in E. subst k0.
    destruct (String.eqb k k') eqn:E'; [|reflexivity].
    apply String.eqb_eq in E'. congruence.
  - rewrite IH. reflexivity.
Qed.

Lemma own_property_add_index_eq (i : N) (k : string) (v : Engine.PropValue)
    (o : Engine.Obj) :
  Engine.own_property k o = None ->
  Engine.own_property k (Engine.add_index i k v o) = Some v.
Proof.
  induction o as [|[k' v'] o IH]; cbn; intros H.
  - rewrite String.eqb_refl. reflexivity.
  - destruct (String.eqb k' k) eqn:E; [discriminate|].
    destruct (Engine.array_index k') as [j|]; [destruct (j <? i)%N|]; cbn;
      rewrite ?E, ?String.eqb_refl; auto.
Qed.

Lemma own_property_add_index_ne (i : N) (k k' : string) (v : Engine.PropValue)
    (o : Engine.Obj) :
  k' <> k ->
  Engine.own_property k' (Engine.add_index i k v o) = Engine.own_property k' o.
Proof.
  intros Hne. apply String.eqb_neq in Hne. rewrite String.eqb_sym in Hne.
  induction o as [|[k0 v0] o IH]; cbn.
  - rewrite Hne. reflexivity.
  - destruct (Engine.array_index k0) as [j|]; [destruct (j <? i)%N|]; cbn;
      rewrite ?Hne, ?IH; reflexivity.
Qed.

Lemma own_property_app (k : string) (o1 o2 : Engine.Obj) :
  Engine.own_property k (o1 ++ o2)
  = match Engine.own_property k o1 with
    | Some v => Some v
    | None => Engine.own_property k o2
    end.
Proof.
  induction o1 as [|[k' v'] o1 IH]; cbn; [reflexivity|].
  destruct (String.eqb k' k); [reflexivity|exact IH].
Qed.

Lemma own_property_define_eq (k : string) (v : Engine.PropValue) (o : Engine.Obj) :
  Engine.own_property k o = None ->
  Engine.own_property k (Engine.define_property k v o) = Some v.
Proof.
  intros H. unfold Engine.define_property.
  destruct (Engine.array_index k).
  - apply own_property_add_index_eq. exact H.
  - rewrite own_property_app, H. cbn. rewrite String.eqb_refl. reflexivity.
Qed.

Lemma own_property_define_ne (k k' : string) (v : Engine.PropValue) (o : Engine.Obj) :
  k' <> k ->
  Engine.own_property k' (Engine.define_property k v o) = Engine.own_property k' o.
Proof.
  intros Hne. unfold Engine.define_property.
  destruct (Engine.array_index k).
  - apply own_property_add_index_ne. exact Hne.
  - rewrite own_property_app. cbn.
    apply String.eqb_neq in Hne. rewrite String.eqb_sym in Hne. rewrite Hne.
    destruct (Engine.own_property k' o); reflexivity.
Qed.

Lemma replace_add_index (i : N) (k : string) (v1 v2 : Engine.PropValue) (o : Engine.Obj) :
  Engine.own_property k o = None ->
  Engine.replace_property k v2 (Engine.add_index i k v1 o) = Engine.add_index i k v2 o.
Proof.
  induction o as [|[k' v'] o IH]; cbn; intros H.
  - rewrite String.eqb_refl. reflexivity.
  - destruct (String.eqb k' k) eqn:E; [discriminate|].
    destruct (Engine.array_index k') as [j|]; [destruct (j <? i)%N|]; cbn;
      rewrite ?E, ?String.eqb_refl, ?IH; auto.
Qed.

Lemma replace_app_new (k : string) (v1 v2 : Engine.PropValue) (o : Engine.Obj) :
  Engine.own_property k o = None ->
  Engine.replace_property k v2 (o ++ [(k, v1)]) = o ++ [(k, v2)].
Proof.
  induction o as [|[k' v'] o IH]; cbn; intros H.
  - rewrite String.eqb_refl. reflexivity.
  - destruct (String.eqb k' k) eqn:E; [discriminate|]. rewrite IH by exact H. reflexivity.
Qed.

Lemma replace_define (k : string) (v1 v2 : Engine.PropValue) (o : Engine.Obj) :
  Engine.own_property k o = None ->
  Engine.replace_property k v2 (Engine.define_property k v1 o)
  = Engine.define_property k v2 o.
Proof.
  intros H. unfold Engine.define_property. destruct (Engine.array_index k).
  - apply replace_add_index. exact H.
  - apply replace_app_new. exact H.
Qed.

Lemma own_property_normalize (k : string) (o : Engine.Obj) :
  Engine.own_property k (Engine.normalize o)
  = Engine.normalize_value <$> Engine.own_property k o.
Proof.
  induction o as [|[k' v'] o IH]; cbn; [reflexivity|].
  destruct (String.eqb k' k); [reflexivity|exact IH].
Qed.

(** ** Mappings of records *)

Lemma records_replace (k : string) (r : Engine.ActivityProgress) (o : Engine.Obj) :
  forallb Engine.is_record o = true ->
  forallb Engine.is_record (Engine.replace_property k (Engine.VRecord r) o) = true.
Proof.
  induction o as [|[k' v'] o IH]; cbn; [reflexivity|].
  intros H. apply andb_true_iff in H as [H1 H2].
  destruct (String.eqb k' k); cbn.
  - exact H2.
  - rewrite H1. cbn. apply IH. exact H2.
Qed.

Lemma records_add_index (i : N) (k : string) (r : Engine.ActivityProgress)
    (o : Engine.Obj) :
  forallb Engine.is_record o = true ->
  forallb Engine.is_record (Engine.add_index i k (Engine.VRecord r) o) = true.
Proof.
  induction o as [|[k' v'] o IH]; cbn; [reflexivity|].
  intros H. pose proof H as H0. apply andb_true_iff in H as [H1 H2].
  destruct (Engine.array_index k') as [j|]; [destruct (j <? i)%N|]; cbn.
  - rewrite H1. cbn. apply IH. exact H2.
  - exact H0.
  - exact H0.
Qed.

Lemma records_define (k : string) (r : Engine.ActivityProgress) (o : Engine.Obj) :
  forallb Engine.is_record o = true ->
  forallb Engine.is_record (Engine.define_property k (Engine.VRecord r) o) = true.
Proof.
  intros H. unfold Engine.define_property. destruct (Engine.array_index k).
  - apply records_add_index. exact H.
  - rewrite forallb_app, H. reflexivity.
Qed.

Lemma records_normalize (o : Engine.Obj) :
  forallb Engine.is_record (Engine.normalize o) = forallb Engine.is_record o.
Proof.
  induction o as [|[k [p|r]] o IH]; cbn; [reflexivity|reflexivity|exact IH].
Qed.

Lemma records_own_property (k : string) (v : Engine.PropValue) (o : Engine.Obj) :
  forallb Engine.is_record o = true ->
  Engine.own_property k o = Some v ->
  exists r, v = Engine.VRecord r.
Proof.
  induction o as [|[k' v'] o IH]; cbn; [discriminate|].
  intros H. apply andb_true_iff in H as [H1 H2].
  destruct (String.eqb k' k).
  - intros [= <-]. destruct v' as [p|r]; [discriminate|]. eexists. reflexivity.
  - apply IH. exact H2.
Qed.

(** ** The summary *)

Lemma engine_is_completed_value (a : Engine.PropValue) :
  a <> Engine.VPrim Engine.PNull ->
  Engine.is_completed a = Normal (Engine.completed_value a).
Proof. destruct a as [[]|r]; cbn; congruence. Qed.

Lemma engine_is_completed_with_score_value (a : Engine.PropValue) :
  a <> Engine.VPrim Engine.PNull ->
  Engine.is_completed_with_score a
  = Normal (Engine.completed_value a && Engine.has_score a).
Proof.
  intros H. unfold Engine.is_completed_with_score.
  rewrite (engine_is_completed_value a H). reflexivity.
Qed.

Lemma engine_filter_completed_records (l : list Engine.PropValue) :
  omap Engine.as_activity (List.filter Engine.completed_value l)
  = Engine.completed_records (omap Engine.as_activity l).
Proof.
  induction l as [|[p|r] l IH]; cbn; [reflexivity|exact IH|].
  unfold Engine.completed_records in *. cbn.
  destruct (Engine.isCompleted r); cbn; rewrite IH; reflexivity.
Qed.

Lemma engine_filter_completed_length (l : list Engine.PropValue) :
  length (List.filter Engine.completed_value l)
  = length (omap Engine.as_activity (List.filter Engine.completed_value l)).
Proof.
  induction l as [|[p|r] l IH]; cbn; [reflexivity|exact IH|].
  destruct (Engine.isCompleted r); cbn; rewrite IH; reflexivity.
Qed.

Lemma engine_filter_scored_records (l : list Engine.PropValue) :
  omap Engine.as_activity
    (List.filter (fun a => Engine.completed_value a && Engine.has_score a) l)
  = Engine.completed_with_positive (omap Engine.as_activity l).
Proof.
  induction l as [|[p|r] l IH]; cbn; [reflexivity|exact IH|].
  unfold Engine.completed_with_positive in *. cbn.
  destruct (Engine.isCompleted r
            && (0 <? Engine.ToNumber (Engine.completionPercentage r))%float);
    cbn; rewrite IH; reflexivity.
Qed.

Lemma engine_filter_scored_length (l : list Engine.PropValue) :
  length (List.filter (fun a => Engine.completed_value a && Engine.has_score a) l)
  = length (omap Engine.as_activity
              (List.filter (fun a => Engine.completed_value a && Engine.has_score a) l)).
Proof.
  induction l as [|[p|r] l IH]; cbn; [reflexivity|exact IH|].
  destruct (Engine.isCompleted r
            && (0 <? Engine.ToNumber (Engine.completionPercentage r))%float);
    cbn; rewrite IH; reflexivity.
Qed.

(** The sum runs over activity records only, in the order of the mapping. *)
Lemma engine_fold_add_percentage (l : list Engine.PropValue) (acc : float) :
  fold_left Engine.add_percentage
    (List.filter (fun a => Engine.completed_value a && Engine.has_score a) l) acc
  = fold_left
      (fun sum r => (sum + Engine.ToNumber (Engine.completionPercentage r))%float)
      (omap Engine.as_activity
         (List.filter (fun a => Engine.completed_value a && Engine.has_score a) l))
      acc.
Proof.
  revert acc. induction l as [|[p|r] l IH]; intros acc; cbn; [reflexivity|apply IH|].
  destruct (Engine.isCompleted r
            && (0 <? Engine.ToNumber (Engine.completionPercentage r))%float);
    cbn; apply IH.
Qed.

Lemma engine_compute_summary_closed (now : string) (o : Engine.Obj) :
  Forall (fun a => a <> Engine.VPrim Engine.PNull) (Engine.Object_values o) ->
  Engine.compute_summary now o = Normal (Engine.summary_of now o).
Proof.
  intros Hnn. unfold Engine.compute_summary.
  rewrite (filterC_normal Engine.is_completed Engine.completed_value).
  2:{ eapply Forall_impl; [exact Hnn|]. intros a. apply engine_is_completed_value. }
  cbn [bindC].
  rewrite (filterC_normal Engine.is_completed_with_score
             (fun a => Engine.completed_value a && Engine.has_score a)).
  2:{ eapply Forall_impl; [exact Hnn|]. intros a.
      apply engine_is_completed_with_score_value. }
  cbn [bindC]. f_equal.
  assert (Hlen : length (Engine.Object_values o) = length o).
  { unfold Engine.Object_values. apply length_map. }
  unfold Engine.summary_of, Engine.records.
  rewrite Hlen.
  rewrite engine_filter_completed_length, engine_filter_completed_records.
  rewrite engine_filter_scored_length, engine_fold_add_percentage,
    engine_filter_scored_records.
  f_equal.
  - unfold Engine.rounded_rate. destruct (length o); reflexivity.
  - unfold Engine.rounded_mean, Engine.sum_percentages.
    destruct (Engine.completed_with_positive
                (omap Engine.as_activity (Engine.Object_values o)));
      cbn [length Nat.ltb Nat.leb]; reflexivity.
Qed.

Lemma engine_compute_summary_normal_inv (now : string) (o : Engine.Obj)
    (sm : Engine.ProgressSummary) :
  Engine.compute_summary now o = Normal sm -> sm = Engine.summary_of now o.
Proof.
  intros H.
  assert (Hnn : Forall (fun a => a <> Engine.VPrim Engine.PNull) (Engine.Object_values o)).
  { unfold Engine.compute_summary in H.
    destruct (filterC Engine.is_completed (Engine.Object_values o)) as [l|] eqn:E;
      [|discriminate].
    destruct (filterC_inv _ _ _ E) as [pb Hpb].
    eapply Forall_impl; [exact Hpb|]. intros a Ha ->. discriminate Ha. }
  rewrite (engine_compute_summary_closed now o Hnn) in H. congruence.
Qed.

Lemma engine_records_values (o : Engine.Obj) :
  forallb Engine.is_record o = true ->
  Forall (fun a => a <> Engine.VPrim Engine.PNull) (Engine.Object_values o).
Proof.
  induction o as [|[k v] o IH]; cbn; intros H; constructor.
  - apply andb_true_iff in H as [H _]. intros ->. discriminate H.
  - apply IH. apply andb_true_iff in H as [_ H]. exact H.
Qed.

Lemma engine_records_summary (now : string) (o : Engine.Obj) :
  forallb Engine.is_record o = true ->
  Engine.compute_summary now o = Normal (Engine.summary_of now o).
Proof.
  intros H. apply engine_compute_summary_closed, engine_records_values, H.
Qed.

(** ** One call of updateProgress on a store of the normal flow *)

Lemma engine_safeParseJSON_accessible (ls : Engine.LocalStorage) (key : string)
    (fallback : Engine.Obj) :
  Engine.accessible ls = true ->
  Engine.safeParseJSON ls key fallback
  = match Engine.entries ls !! key with
    | Some (Engine.Json o) => o
    | _ => fallback
    end.
Proof.
  intros Ha. unfold Engine.safeParseJSON, Engine.getItem. rewrite Ha. cbn [bindC].
  destruct (Engine.entries ls !! key) as [[| |o]|]; reflexivity.
Qed.

Lemma engine_well_formed_workable (ls : Engine.LocalStorage) :
  Engine.well_formed ls -> Engine.workable ls.
Proof.
  intros (Ha & Hf & Ho). split; [exact Ha|]. split; [exact Hf|].
  unfold Engine.getProgress.
  rewrite (engine_safeParseJSON_accessible _ _ _ Ha).
  destruct (Engine.entries ls !! PROGRESS_KEY) as [[| |o]|]; try contradiction.
  - exact (proj1 Ho).
  - reflexivity.
Qed.

Lemma engine_safeStoreJSON_ok (ls : Engine.LocalStorage) (key : string)
    (data : Engine.Obj) :
  Engine.accessible ls = true -> Engine.full ls = false ->
  Engine.safeStoreJSON ls key data
  = (Engine.with_entries ls (<[key := Engine.JSON_stringify data]> (Engine.entries ls)),
     true).
Proof.
  intros Ha Hf. unfold Engine.safeStoreJSON, Engine.setItem. rewrite Ha, Hf. reflexivity.
Qed.

Lemma engine_updateProgressSummary_ok (now : string) (ls : Engine.LocalStorage)
    (o : Engine.Obj) :
  Engine.accessible ls = true -> Engine.full ls = false ->
  forallb Engine.is_record o = true ->
  Engine.updateProgressSummary now ls o
  = Engine.with_entries ls
      (<[PROGRESS_SUMMARY_KEY :=
           Engine.JSON_stringify (Engine.summary_object (Engine.summary_of now o))]>
         (Engine.entries ls)).
Proof.
  intros Ha Hf Ho. unfold Engine.updateProgressSummary.
  rewrite (engine_records_summary now o Ho). cbn [bindC try_catch].
  rewrite (engine_safeStoreJSON_ok _ _ _ Ha Hf). reflexivity.
Qed.

Lemma engine_updated_progress_records (clock : Clock) (verb : option string)
    (result : option Engine.Result) (s : string) (o : Engine.Obj) :
  forallb Engine.is_record o = true ->
  forallb Engine.is_record (Engine.updated_progress clock verb result s o) = true.
Proof.
  intros Ho. unfold Engine.updated_progress, Engine.get_prop.
  destruct (Engine.own_property s o) as [[p|r]|].
  - exact Ho.
  - apply records_replace. exact Ho.
  - destruct (Engine.inherited s); [exact Ho|]. apply records_define. exact Ho.
Qed.

(** The store after a qualifying statement: the progress key holds the
    text of the mapping in memory, the summary key the text of its
    summary. *)
Lemma engine_updateProgress_step (clock : Clock) (ls : Engine.LocalStorage)
    (statement : Engine.XapiStatement) :
  Engine.workable ls ->
  qualifies (Engine.st_verb_id statement) = true ->
  let o' := Engine.updated_progress clock (Engine.st_verb_id statement)
              (Engine.st_result statement) (Engine.extractActivitySlug statement)
              (Engine.getProgress ls) in
  Engine.updateProgress clock ls statement
  = Engine.with_entries ls
      (<[PROGRESS_SUMMARY_KEY :=
           Engine.JSON_stringify
             (Engine.summary_object (Engine.summary_of (now_summary clock) o'))]>
         (<[PROGRESS_KEY := Engine.JSON_stringify o']> (Engine.entries ls))).
Proof.
  intros (Ha & Hf & Ho) Hq o'.
  pose proof (engine_updated_progress_records clock (Engine.st_verb_id statement)
                (Engine.st_result statement) (Engine.extractActivitySlug statement)
                _ Ho) as Ho'.
  fold o' in Ho'.
  unfold Engine.updateProgress.
  unfold qualifies in Hq. apply negb_true_iff in Hq. rewrite Hq.
  unfold Engine.updateProgress_body.
  change (Engine.safeParseJSON ls PROGRESS_KEY []) with (Engine.getProgress ls).
  set (s := Engine.extractActivitySlug statement) in *.
  assert (Hfinish : forall o1, forallb Engine.is_record o1 = true ->
    Engine.updateProgressSummary (now_summary clock)
      (Engine.safeStoreJSON ls PROGRESS_KEY o1).1 o1
    = Engine.with_entries ls
        (<[PROGRESS_SUMMARY_KEY :=
             Engine.JSON_stringify
               (Engine.summary_object (Engine.summary_of (now_summary clock) o1))]>
           (<[PROGRESS_KEY := Engine.JSON_stringify o1]> (Engine.entries ls)))).
  { intros o1 Ho1. rewrite (engine_safeStoreJSON_ok _ _ _ Ha Hf). cbn [fst].
    rewrite engine_updateProgressSummary_ok; [reflexivity|exact Ha|exact Hf|exact Ho1]. }
  revert Ho'. subst o'. unfold Engine.updated_progress, Engine.get_prop.
  destruct (Engine.own_property s (Engine.getProgress ls)) as [[p|r]|] eqn:Es.
  - destruct (records_own_property _ _ _ Ho Es) as [r Hr]. discriminate Hr.
  - intros Ho'. cbn [Engine.truthy_property negb].
    rewrite Es. cbn [bindC try_catch].
    unfold Engine.set_prop. rewrite Es. apply Hfinish. exact Ho'.
  - destruct (Engine.inherited s) eqn:Ei; intros Ho'.
    + cbn [Engine.truthy_property negb]. rewrite Es.
      cbn [bindC try_catch]. apply Hfinish. exact Ho'.
    + cbn [Engine.truthy_property negb]. unfold Engine.set_prop.
      rewrite Es. rewrite own_property_define_eq by exact Es.
      cbn [bindC try_catch]. rewrite replace_define by exact Es.
      apply Hfinish. exact Ho'.
Qed.

Lemma engine_getProgress_stored (ls : Engine.LocalStorage) (o : Engine.Obj) :
  Engine.accessible ls = true ->
  Engine.entries ls !! PROGRESS_KEY = Some (Engine.Json o) ->
  Engine.getProgress ls = o.
Proof.
  intros Ha He. unfold Engine.getProgress.
  rewrite engine_safeParseJSON_accessible by exact Ha. rewrite He. reflexivity.
Qed.

(** ** What JSON keeps of a number *)

Lemma stored_number_idempotent (x : float) :
  Engine.normalize_numeric (Engine.stored_number x) = Engine.stored_number x.
Proof.
  unfold Engine.stored_number.
  destruct (is_finite x) eqn:Ef; [|reflexivity].
  destruct (PrimFloat.is_zero x) eqn:Ez; cbn [Engine.normalize_numeric].
  - reflexivity.
  - unfold Engine.stored_number. rewrite Ef, Ez. reflexivity.
Qed.

Lemma normalize_numeric_idempotent (n : Engine.Numeric) :
  Engine.normalize_numeric (Engine.normalize_numeric n) = Engine.normalize_numeric n.
Proof. destruct n as [|x]; [reflexivity|]. apply stored_number_idempotent. Qed.


Lemma normalize_prim_idempotent (p : Engine.Prim) :
  Engine.normalize_prim (Engine.normalize_prim p) = Engine.normalize_prim p.
Proof.
  destruct p as [|b|x|s]; try reflexivity.
  cbn [Engine.normalize_prim].
  destruct (Engine.stored_number x) as [|y] eqn:E; [reflexivity|].
  cbn [Engine.normalize_prim].
  assert (H : Engine.stored_number y = Engine.Num y).
  { change (Engine.normalize_numeric (Engine.Num y) = Engine.Num y).
    rewrite <- E. apply stored_number_idempotent. }
  rewrite H. reflexivity.
Qed.

Lemma normalize_record_idempotent (r : Engine.ActivityProgress) :
  Engine.normalize_record (Engine.normalize_record r) = Engine.normalize_record r.
Proof.
  unfold Engine.normalize_record.
  cbn [Engine.slug Engine.questionsAnswered Engine.questionsCompleted Engine.lastScore
       Engine.lastSuccess Engine.completionPercentage Engine.isCompleted
       Engine.lastActivity].
  rewrite !normalize_numeric_idempotent. reflexivity.
Qed.

Lemma normalize_idempotent (o : Engine.Obj) :
  Engine.normalize (Engine.normalize o) = Engine.normalize o.
Proof.
  induction o as [|[k [p|r]] o IH]; cbn; [reflexivity| |].
  - rewrite normalize_prim_idempotent. f_equal. exact IH.
  - rewrite normalize_record_idempotent. f_equal. exact IH.
Qed.

(** In the text of a mapping, a record is what JSON keeps of itself. *)
Lemma normalize_fixed_record (k : string) (r : Engine.ActivityProgress) (o : Engine.Obj) :
  Engine.normalize o = o ->
  Engine.own_property k o = Some (Engine.VRecord r) ->
  Engine.normalize_record r = r.
Proof.
  induction o as [|[k' v'] o IH]; cbn; [discriminate|].
  intros Hn. injection Hn as Hv Hrest.
  destruct (String.eqb k' k).
  - intros [= ->]. cbn in Hv. injection Hv as Hv. exact Hv.
  - apply IH. exact Hrest.
Qed.

(** What a qualifying statement leaves in a store on which it can work. *)
Lemma engine_updateProgress_views (clock : Clock) (ls : Engine.LocalStorage)
    (statement : Engine.XapiStatement) :
  Engine.workable ls ->
  qualifies (Engine.st_verb_id statement) = true ->
  let o' := Engine.updated_progress clock (Engine.st_verb_id statement)
              (Engine.st_result statement) (Engine.extractActivitySlug statement)
              (Engine.getProgress ls) in
  let ls' := Engine.updateProgress clock ls statement in
  Engine.well_formed ls'
  /\ Engine.entries ls' !! PROGRESS_KEY = Some (Engine.JSON_stringify o')
  /\ Engine.getProgress ls' = Engine.normalize o'
  /\ Engine.stored_summary ls'
     = Some (Engine.JSON_stringify
               (Engine.summary_object (Engine.summary_of (now_summary clock) o'))).
Proof.
  intros Hw Hq o' ls'.
  pose proof (engine_updateProgress_step clock ls statement Hw Hq) as Hstep.
  fold o' in Hstep. fold ls' in Hstep.
  destruct Hw as (Ha & Hf & Ho).
  pose proof (engine_updated_progress_records clock (Engine.st_verb_id statement)
                (Engine.st_result statement) (Engine.extractActivitySlug statement)
                _ Ho) as Ho'.
  fold o' in Ho'.
  assert (Hp : Engine.entries ls' !! PROGRESS_KEY = Some (Engine.JSON_stringify o')).
  { rewrite Hstep. cbn [Engine.with_entries Engine.entries].
    rewrite lookup_insert_ne by (apply not_eq_sym, keys_distinct).
    apply lookup_insert_eq. }
  assert (Ha' : Engine.accessible ls' = true) by (rewrite Hstep; exact Ha).
  assert (Hf' : Engine.full ls' = false) by (rewrite Hstep; exact Hf).
  split; [|split; [exact Hp|split]].
  - split; [exact Ha'|]. split; [exact Hf'|]. rewrite Hp.
    cbn. split; [rewrite records_normalize; exact Ho'|apply normalize_idempotent].
  - apply engine_getProgress_stored; [exact Ha'|exact Hp].
  - unfold Engine.stored_summary. rewrite Hstep.
    cbn [Engine.with_entries Engine.entries]. apply lookup_insert_eq.
Qed.

Lemma engine_qualifies_false_noop (clock : Clock) (ls : Engine.LocalStorage)
    (statement : Engine.XapiStatement) :
  qualifies (Engine.st_verb_id statement) = false ->
  Engine.updateProgress clock ls statement = ls.
Proof.
  intros Hq. unfold Engine.updateProgress. unfold qualifies in Hq.
  apply negb_false_iff in Hq. rewrite Hq. reflexivity.
Qed.

Lemma engine_well_formed_updateProgress (clock : Clock) (ls : Engine.LocalStorage)
    (statement : Engine.XapiStatement) :
  Engine.well_formed ls -> Engine.well_formed (Engine.updateProgress clock ls statement).
Proof.
  intros Hwf. destruct (qualifies (Engine.st_verb_id statement)) eqn:Hq.
  - exact (proj1 (engine_updateProgress_views clock ls statement
                    (engine_well_formed_workable ls Hwf) Hq)).
  - rewrite (engine_qualifies_false_noop _ _ _ Hq). exact Hwf.
Qed.

Lemma engine_well_formed_run (ls : Engine.LocalStorage) (events : list Engine.Event) :
  Engine.well_formed ls -> Engine.well_formed (Engine.run ls events).
Proof.
  revert ls. induction events as [|e events IH]; intros ls Hwf; [exact Hwf|].
  apply IH. apply engine_well_formed_updateProgress. exact Hwf.
Qed.

Lemma engine_well_formed_empty : Engine.well_formed Engine.empty_storage.
Proof. repeat split. Qed.

Lemma engine_run_app (ls : Engine.LocalStorage) (l1 l2 : list Engine.Event) :
  Engine.run ls (l1 ++ l2) = Engine.run (Engine.run ls l1) l2.
Proof. unfold Engine.run. apply fold_left_app. Qed.

(** In a mapping of records, the record of a slug is its own property. *)
Lemma engine_progress_record_own (ls : Engine.LocalStorage) (s : string) :
  Engine.workable ls ->
  Engine.own_property s (Engine.getProgress ls)
  = Engine.VRecord <$> Engine.progress_record ls s.
Proof.
  intros (_ & _ & Ho). unfold Engine.progress_record.
  destruct (Engine.own_property s (Engine.getProgress ls)) as [v|] eqn:E; [|reflexivity].
  destruct (records_own_property _ _ _ Ho E) as [r ->].
  reflexivity.
Qed.

(** The records of a store of the normal flow are what JSON keeps of
    them. *)
Lemma engine_stored_record_fixed (ls : Engine.LocalStorage) (s : string)
    (r : Engine.ActivityProgress) :
  Engine.well_formed ls ->
  Engine.progress_record ls s = Some r ->
  Engine.normalize_record r = r.
Proof.
  intros Hwf Hr.
  pose proof (engine_progress_record_own ls s (engine_well_formed_workable ls Hwf)) as Hown.
  rewrite Hr in Hown. cbn in Hown.
  destruct Hwf as (Ha & _ & Ho). revert Hown. unfold Engine.getProgress.
  rewrite (engine_safeParseJSON_accessible _ _ _ Ha).
  destruct (Engine.entries ls !! PROGRESS_KEY) as [[| |o]|]; try contradiction.
  - apply normalize_fixed_record. exact (proj2 Ho).
  - discriminate.
Qed.

(** The record of the slug after a qualifying statement: the record read,
    or a new one, after the member writes and as JSON keeps it; no record
    when there was none and the slug names an inherited property. *)
Lemma engine_record_after (clock : Clock) (ls : Engine.LocalStorage)
    (statement : Engine.XapiStatement) :
  Engine.workable ls ->
  qualifies (Engine.st_verb_id statement) = true ->
  let s := Engine.extractActivitySlug statement in
  Engine.progress_record (Engine.updateProgress clock ls statement) s
  = match Engine.progress_record ls s with
    | Some r =>
        Some (Engine.normalize_record
                (Engine.apply_verb clock (Engine.st_verb_id statement)
                   (Engine.st_result statement) r))
    | None =>
        if Engine.inherited s then None
        else Some (Engine.normalize_record
                     (Engine.apply_verb clock (Engine.st_verb_id statement)
                        (Engine.st_result statement)
                        (Engine.initial_progress s (now_created clock))))
    end.
Proof.
  intros Hw Hq s.
  destruct (engine_updateProgress_views clock ls statement Hw Hq) as (_ & _ & Hget & _).
  pose proof (engine_progress_record_own ls s Hw) as Hown.
  unfold Engine.progress_record at 1. rewrite Hget, own_property_normalize.
  fold s. unfold Engine.updated_progress, Engine.get_prop. rewrite Hown.
  destruct (Engine.progress_record ls s) as [r|] eqn:Er; cbn [fmap option_fmap option_map].
  - rewrite own_property_replace_eq by (rewrite Hown; discriminate). reflexivity.
  - destruct (Engine.inherited s).
    + rewrite Hown. reflexivity.
    + rewrite own_property_define_eq by exact Hown. reflexivity.
Qed.

(** The record of another slug is not touched. *)
Lemma engine_other_record (clock : Clock) (ls : Engine.LocalStorage)
    (statement : Engine.XapiStatement) (other : string) :
  Engine.well_formed ls ->
  other <> Engine.extractActivitySlug statement ->
  Engine.progress_record (Engine.updateProgress clock ls statement) other
  = Engine.progress_record ls other.
Proof.
  intros Hwf Hne.
  destruct (qualifies (Engine.st_verb_id statement)) eqn:Hq.
  2:{ rewrite (engine_qualifies_false_noop _ _ _ Hq). reflexivity. }
  pose proof (engine_well_formed_workable ls Hwf) as Hw.
  destruct (engine_updateProgress_views clock ls statement Hw Hq) as (_ & _ & Hget & _).
  pose proof (engine_progress_record_own ls other Hw) as Hown.
  unfold Engine.progress_record at 1. rewrite Hget, own_property_normalize.
  assert (H : Engine.own_property other
                (Engine.updated_progress clock (Engine.st_verb_id statement)
                   (Engine.st_result statement) (Engine.extractActivitySlug statement)
                   (Engine.getProgress ls))
              = Engine.own_property other (Engine.getProgress ls)).
  { unfold Engine.updated_progress.
    destruct (Engine.get_prop (Engine.getProgress ls) (Engine.extractActivitySlug statement))
      as [|[p|r]|]; try reflexivity.
    - apply own_property_define_ne. exact Hne.
    - apply own_property_replace_ne. exact Hne. }
  rewrite H, Hown.
  destruct (Engine.progress_record ls other) as [r|] eqn:Er; [|reflexivity].
  cbn. rewrite (engine_stored_record_fixed ls other r Hwf Er). reflexivity.
Qed.

(** ** The member writes *)

Lemma engine_record_result_isCompleted
    (result : option Engine.Result) (r : Engine.ActivityProgress) :
  Engine.isCompleted (Engine.record_result result r) = Engine.isCompleted r.
Proof. destruct result; reflexivity. Qed.

Lemma engine_record_result_questionsAnswered
    (result : option Engine.Result) (r : Engine.ActivityProgress) :
  Engine.questionsAnswered (Engine.record_result result r) = Engine.questionsAnswered r.
Proof. destruct result; reflexivity. Qed.

Lemma engine_record_result_questionsCompleted
    (result : option Engine.Result) (r : Engine.ActivityProgress) :
  Engine.questionsCompleted (Engine.record_result result r) = Engine.questionsCompleted r.
Proof. destruct result; reflexivity. Qed.

Lemma engine_record_result_percentage
    (result : option Engine.Result) (r : Engine.ActivityProgress) :
  Engine.completionPercentage (Engine.record_result result r)
  = match result with
    | Some _ => Engine.Num (Engine.calculateCompletionPercentage result)
    | None => Engine.completionPercentage r
    end.
Proof. destruct result; reflexivity. Qed.

Lemma engine_apply_verb_isCompleted (clock : Clock) (verb : option string)
    (result : option Engine.Result) (r : Engine.ActivityProgress) :
  Engine.isCompleted (Engine.apply_verb clock verb result r)
  = Engine.isCompleted r || verb_endsWith verb "/completed".
Proof.
  unfold Engine.apply_verb, Engine.touch, Engine.on_answered, Engine.on_completed.
  cbn [Engine.isCompleted].
  destruct (verb_endsWith verb "/completed");
    destruct (verb_endsWith verb "/answered");
    rewrite ?engine_record_result_isCompleted; cbn [Engine.isCompleted];
    rewrite ?engine_record_result_isCompleted; cbn [Engine.isCompleted];
    rewrite ?orb_true_r, ?orb_false_r; reflexivity.
Qed.

Lemma engine_apply_verb_questionsAnswered (clock : Clock) (verb : option string)
    (result : option Engine.Result) (r : Engine.ActivityProgress) :
  Engine.questionsAnswered (Engine.apply_verb clock verb result r)
  = if verb_endsWith verb "/answered"
    then Engine.increment (Engine.questionsAnswered r)
    else Engine.questionsAnswered r.
Proof.
  unfold Engine.apply_verb, Engine.touch, Engine.on_answered, Engine.on_completed.
  cbn [Engine.questionsAnswered].
  destruct (verb_endsWith verb "/completed");
    destruct (verb_endsWith verb "/answered");
    rewrite ?engine_record_result_questionsAnswered; cbn [Engine.questionsAnswered];
    rewrite ?engine_record_result_questionsAnswered; reflexivity.
Qed.

Lemma engine_apply_verb_questionsCompleted (clock : Clock) (verb : option string)
    (result : option Engine.Result) (r : Engine.ActivityProgress) :
  Engine.questionsCompleted (Engine.apply_verb clock verb result r)
  = if verb_endsWith verb "/completed"
    then Engine.increment (Engine.questionsCompleted r)
    else Engine.questionsCompleted r.
Proof.
  unfold Engine.apply_verb, Engine.touch, Engine.on_answered, Engine.on_completed.
  cbn [Engine.questionsCompleted].
  destruct (verb_endsWith verb "/completed");
    destruct (verb_endsWith verb "/answered");
    rewrite ?engine_record_result_questionsCompleted; cbn [Engine.questionsCompleted];
    rewrite ?engine_record_result_questionsCompleted; reflexivity.
Qed.

Lemma engine_apply_verb_percentage (clock : Clock) (verb : option string)
    (result : option Engine.Result) (r : Engine.ActivityProgress) :
  qualifies verb = true ->
  Engine.completionPercentage (Engine.apply_verb clock verb result r)
  = match result with
    | Some _ => Engine.Num (Engine.calculateCompletionPercentage result)
    | None => Engine.completionPercentage r
    end.
Proof.
  intros Hq. unfold Engine.apply_verb, Engine.touch, Engine.on_answered, Engine.on_completed.
  cbn [Engine.completionPercentage].
  destruct (verb_endsWith verb "/answered") eqn:Ea;
    destruct (verb_endsWith verb "/completed") eqn:Ec;
    rewrite ?engine_record_result_percentage; destruct result;
    cbn [Engine.completionPercentage];
    rewrite ?engine_record_result_percentage; try reflexivity.
  unfold qualifies, not_tracked in Hq. rewrite Ea, Ec in Hq.
  cbn in Hq. rewrite orb_true_r in Hq. discriminate Hq.
Qed.

(** ** calculateCompletionPercentage *)

Lemma engine_calculateCompletionPercentage_max_zero
    (success : option bool) (raw : option float) (max : float) :
  PrimFloat.is_zero max = true ->
  Engine.calculateCompletionPercentage
    (Some {| Engine.result_score :=
               Some {| Engine.score_raw := raw; Engine.score_max := Some max |};
             Engine.result_success := success |})
  = 0%float.
Proof.
  intros H. unfold Engine.calculateCompletionPercentage.
  cbn [Engine.result_score Engine.score_max Engine.score_raw default from_option id].
  rewrite H. reflexivity.
Qed.

Lemma engine_calculateCompletionPercentage_round
    (success : option bool) (raw max : option float) :
  PrimFloat.is_zero (default 1%float max) = false ->
  Engine.calculateCompletionPercentage
    (Some {| Engine.result_score :=
               Some {| Engine.score_raw := raw; Engine.score_max := max |};
             Engine.result_success := success |})
  = Engine.Math_round ((default 0%float raw / default 1%float max) * 100)%float.
Proof.
  intros H. unfold Engine.calculateCompletionPercentage.
  cbn [Engine.result_score Engine.score_max Engine.score_raw].
  rewrite H. reflexivity.
Qed.

(** C6: [calculateCompletionPercentage] returns 0 when its argument or the
    score of its argument is absent, 0 when max is 0 (or -0), and otherwise
    [Math.round ((raw / max) * 100)] computed in double precision, with raw
    defaulting to 0 and max to 1.  The examples of the claim give 80, 0 and
    0; the further ones fix the rounding: to the nearest integer (33, 67),
    upwards at one half also below zero (13 and -12), of the double that
    the division and the product give (23 of 40 is 57, since 0.575 * 100 is
    57.49999999999999 in doubles), and without clamping (150). *)
Theorem calculateCompletionPercentage_cases :
  Engine.calculateCompletionPercentage None = 0%float
  /\ (forall success,
        Engine.calculateCompletionPercentage
          (Some {| Engine.result_score := None; Engine.result_success := success |})
        = 0%float)
  /\ (forall success raw max,
        PrimFloat.is_zero max = true ->
        Engine.calculateCompletionPercentage
          (Some {| Engine.result_score :=
                     Some {| Engine.score_raw := raw; Engine.score_max := Some max |};
                   Engine.result_success := success |})
        = 0%float)
  /\ (forall success raw max,
        PrimFloat.is_zero (default 1%float max) = false ->
        Engine.calculateCompletionPercentage
          (Some {| Engine.result_score :=
                     Some {| Engine.score_raw := raw; Engine.score_max := max |};
                   Engine.result_success := success |})
        = Engine.Math_round ((default 0%float raw / default 1%float max) * 100)%float)
  /\ Engine.calculateCompletionPercentage (Some (Engine.scored 8 10)) = 80%float
  /\ Engine.calculateCompletionPercentage (Some (Engine.scored 1 0)) = 0%float
  /\ Engine.calculateCompletionPercentage (Some (Engine.scored 1 3)) = 33%float
  /\ Engine.calculateCompletionPercentage (Some (Engine.scored 2 3)) = 67%float
  /\ Engine.calculateCompletionPercentage (Some (Engine.scored 1 8)) = 13%float
  /\ Engine.calculateCompletionPercentage (Some (Engine.scored (-1) 8)) = (-12)%float
  /\ Engine.calculateCompletionPercentage (Some (Engine.scored 23 40)) = 57%float
  /\ Engine.calculateCompletionPercentage (Some (Engine.scored 15 10)) = 150%float
  /\ Engine.calculateCompletionPercentage
       (Some {| Engine.result_score :=
                  Some {| Engine.score_raw := Some 0.5%float; Engine.score_max := None |};
                Engine.result_success := None |})
     = 50%float
  /\ Engine.calculateCompletionPercentage
       (Some {| Engine.result_score :=
                  Some {| Engine.score_raw := None; Engine.score_max := Some 4%float |};
                Engine.result_success := None |})
     = 0%float.
Proof.
  split; [reflexivity|]. split; [reflexivity|].
  split; [exact engine_calculateCompletionPercentage_max_zero|].
  split; [exact engine_calculateCompletionPercentage_round|].
  repeat split; vm_compute; reflexivity.
Qed.

Lemma calculateCompletionPercentage_cases_witness :
  Engine.calculateCompletionPercentage
    (Some {| Engine.result_score :=
               Some {| Engine.score_raw := Some 1%float;
                       Engine.score_max := Some (-0)%float |};
             Engine.result_success := Some true |})
  = 0%float
  /\ Engine.calculateCompletionPercentage
       (Some {| Engine.result_score :=
                  Some {| Engine.score_raw := Some 2%float;
                          Engine.score_max := Some 3%float |};
                Engine.result_success := None |})
     = Engine.Math_round ((2 / 3) * 100)%float.
Proof.
  split.
  - exact (proj1 (proj2 (proj2 calculateCompletionPercentage_cases))
             (Some true) (Some 1%float) (-0)%float eq_refl).
  - exact (proj1 (proj2 (proj2 (proj2 calculateCompletionPercentage_cases)))
             None (Some 2%float) (Some 3%float) eq_refl).
Defined.

(** ** The summary record *)

(** Two doubles that [=?] tells apart are distinct, NaN aside. *)
Lemma float_neq (x y : float) :
  is_nan x = false -> PrimFloat.eqb x y = false -> x <> y.
Proof.
  intros Hn H ->. unfold is_nan in Hn. rewrite H in Hn. discriminate Hn.
Qed.

Lemma engine_summary_two (now : string) (k1 k2 : string)
    (r1 r2 : Engine.ActivityProgress) :
  Engine.isCompleted r1 = true ->
  Engine.completionPercentage r1 = Engine.Num 80%float ->
  Engine.isCompleted r2 = false ->
  Engine.JSON_stringify
    (Engine.summary_object
       (Engine.summary_of now [(k1, Engine.VRecord r1); (k2, Engine.VRecord r2)]))
  = Engine.two_activity_summary now
  /\ Engine.JSON_stringify
       (Engine.summary_object
          (Engine.summary_of now [(k2, Engine.VRecord r2); (k1, Engine.VRecord r1)]))
     = Engine.two_activity_summary now.
Proof.
  intros Hc1 Hp1 Hc2.
  unfold Engine.summary_of, Engine.records, Engine.Object_values,
    Engine.completed_records, Engine.completed_with_positive.
  cbn [List.map snd omap list_omap Engine.as_activity List.filter length].
  rewrite Hc1, Hc2, Hp1. cbn [andb Engine.ToNumber].
  change (0 <? 80)%float with true. cbv iota.
  cbn [length]. unfold Engine.rounded_mean, Engine.sum_percentages.
  cbn [fold_left length]. rewrite Hp1.
  split; vm_compute; reflexivity.
Qed.

(** C3, as amended: every qualifying update of a store that can be written
    and whose progress text is absent, not JSON or the text of a mapping of
    records writes the mapping that it holds in memory under the progress
    key and the summary computed from that whole mapping under the summary
    key; for
    two activities, one completed with completion percentage 80 and one not
    completed, the persisted summary has 2 activities, 1 completed,
    completion rate 50 and average score 80; in general the average score
    is [Math.round] of the mean, in double precision and in the order of
    the mapping, of the completion percentages of the completed activities
    whose percentage is positive, and 0 when there is none.  The examples
    fix the rounding: 23 completed of 40 give the rate 57 (0.575 * 100 is
    57.49999999999999 in doubles), 1 of 8 gives 13, and the mean of 80 and
    75 is 78; of four activities, three of them completed with the
    percentages 80, 0 and -50, only the first counts for the average. *)
Theorem summary_recomputed :
  (forall clock ls statement,
     Engine.workable ls ->
     qualifies (Engine.st_verb_id statement) = true ->
     let o' := Engine.updated_progress clock (Engine.st_verb_id statement)
                 (Engine.st_result statement) (Engine.extractActivitySlug statement)
                 (Engine.getProgress ls) in
     let ls' := Engine.updateProgress clock ls statement in
     Engine.entries ls' !! PROGRESS_KEY = Some (Engine.JSON_stringify o')
     /\ exists sm,
          Engine.compute_summary (now_summary clock) o' = Normal sm
          /\ Engine.stored_summary ls'
             = Some (Engine.JSON_stringify (Engine.summary_object sm)))
  /\ (forall now ls k1 k2 r1 r2,
        Engine.accessible ls = true -> Engine.full ls = false ->
        Engine.isCompleted r1 = true ->
        Engine.completionPercentage r1 = Engine.Num 80%float ->
        Engine.isCompleted r2 = false ->
        Engine.stored_summary
          (Engine.updateProgressSummary now ls
             [(k1, Engine.VRecord r1); (k2, Engine.VRecord r2)])
        = Some (Engine.two_activity_summary now)
        /\ Engine.stored_summary
             (Engine.updateProgressSummary now ls
                [(k2, Engine.VRecord r2); (k1, Engine.VRecord r1)])
           = Some (Engine.two_activity_summary now))
  /\ (forall now o sm,
        Engine.compute_summary now o = Normal sm ->
        Engine.totalActivities sm = length o
        /\ Engine.completedActivities sm
           = length (Engine.completed_records (Engine.records o))
        /\ Engine.completionRate sm
           = Engine.rounded_rate
               (length (Engine.completed_records (Engine.records o))) (length o)
        /\ Engine.averageScorePercent sm
           = Engine.rounded_mean (Engine.completed_with_positive (Engine.records o)))
  /\ Engine.rounded_mean [] = 0%float
  /\ Engine.rounded_rate 23 40 = 57%float
  /\ Engine.rounded_rate 1 8 = 13%float
  /\ Engine.rounded_rate 2 3 = 67%float
  /\ Engine.rounded_mean [Engine.completed_with "a" 80; Engine.completed_with "b" 75]
     = 78%float
  /\ Engine.compute_summary "2025-09-29T12:00:00.002Z"
       [("a", Engine.VRecord (Engine.completed_with "a" 80));
        ("b", Engine.VRecord (Engine.completed_with "b" 0));
        ("c", Engine.VRecord (Engine.completed_with "c" (-50)));
        ("d", Engine.VRecord Engine.sample_record)]
     = Normal {| Engine.totalActivities := 4;
                 Engine.completedActivities := 3;
                 Engine.completionRate := 75%float;
                 Engine.averageScorePercent := 80%float;
                 Engine.lastUpdated := "2025-09-29T12:00:00.002Z" |}.
Proof.
  split; [|split; [|split]].
  - intros clock ls statement Hwf Hq o' ls'.
    destruct (engine_updateProgress_views clock ls statement Hwf Hq) as (_ & Hp & _ & Hs).
    split; [exact Hp|].
    exists (Engine.summary_of (now_summary clock) o'). split; [|exact Hs].
    apply engine_records_summary. apply engine_updated_progress_records.
    exact (proj2 (proj2 Hwf)).
  - intros now ls k1 k2 r1 r2 Ha Hf Hc1 Hp1 Hc2.
    destruct (engine_summary_two now k1 k2 r1 r2 Hc1 Hp1 Hc2) as [H1 H2].
    split.
    + rewrite engine_updateProgressSummary_ok; [|exact Ha|exact Hf|reflexivity].
      unfold Engine.stored_summary. cbn [Engine.with_entries Engine.entries].
      rewrite lookup_insert_eq, H1. reflexivity.
    + rewrite engine_updateProgressSummary_ok; [|exact Ha|exact Hf|reflexivity].
      unfold Engine.stored_summary. cbn [Engine.with_entries Engine.entries].
      rewrite lookup_insert_eq, H2. reflexivity.
  - intros now o sm H. rewrite (engine_compute_summary_normal_inv now o sm H).
    repeat split.
  - repeat split; vm_compute; reflexivity.
Qed.

Lemma summary_recomputed_witness :
  Engine.stored_summary
    (Engine.updateProgressSummary "2025-09-29T12:00:00.002Z" Engine.empty_storage
       [("personality-quiz", Engine.VRecord (Engine.completed_with "personality-quiz" 80));
        ("other-quiz",
         Engine.VRecord (Engine.initial_progress "other-quiz" "2025-09-29T12:00:00.000Z"))])
  = Some (Engine.two_activity_summary "2025-09-29T12:00:00.002Z").
Proof.
  exact (proj1 (proj1 (proj2 summary_recomputed) "2025-09-29T12:00:00.002Z"
                 Engine.empty_storage "personality-quiz" "other-quiz"
                 (Engine.completed_with "personality-quiz" 80)
                 (Engine.initial_progress "other-quiz" "2025-09-29T12:00:00.000Z")
                 eq_refl eq_refl eq_refl eq_refl eq_refl)).
Defined.

(** The two activities of the example as two statements leave them in an
    empty store: a completed one with raw 8 of max 10, an answered one. *)
Example summary_after_two_statements :
  Engine.stored_summary
    (Engine.run Engine.empty_storage
       [(sample_clock,
         Engine.statement_for COMPLETED "/h5p/personality-quiz" (Some (Engine.scored 8 10)));
        (sample_clock, Engine.statement_for ANSWERED "/h5p/other-quiz" None)])
  = Some (Engine.two_activity_summary "2025-09-29T12:00:00.002Z").
Proof. vm_compute. reflexivity. Qed.

(** C3 as stated fails: a completed activity whose completion percentage is
    negative is left out of the average by the code, and counted by the
    formula of the specification. *)
Lemma averageScorePercent_not_nonzero_mean :
  exists sm,
    Engine.compute_summary "2025-09-29T12:00:00.002Z"
      [("personality-quiz", Engine.VRecord Engine.negative_record)] = Normal sm
    /\ Engine.averageScorePercent sm = 0%float
    /\ Engine.rounded_mean
         (Engine.completed_with_nonzero_spec
            (Engine.records [("personality-quiz", Engine.VRecord Engine.negative_record)]))
       = (-50)%float
    /\ Engine.averageScorePercent sm
       <> Engine.rounded_mean
            (Engine.completed_with_nonzero_spec
               (Engine.records
                  [("personality-quiz", Engine.VRecord Engine.negative_record)])).
Proof.
  eexists. split; [vm_compute; reflexivity|].
  split; [reflexivity|]. split; [vm_compute; reflexivity|].
  apply float_neq; vm_compute; reflexivity.
Qed.

(** The record of the counterexample is what a completed statement with raw
    -5 of max 10 leaves in an empty store. *)
Example negative_record_reachable :
  Engine.progress_record
    (Engine.updateProgress sample_clock Engine.empty_storage
       (Engine.statement_for COMPLETED "/h5p/personality-quiz"
          (Some (Engine.scored (-5) 10))))
    "personality-quiz"
  = Some Engine.negative_record.
Proof. vm_compute. reflexivity. Qed.

(** ** The completion percentage over a history *)

Lemma engine_fixed_percentage (r : Engine.ActivityProgress) :
  Engine.normalize_record r = r ->
  Engine.normalize_numeric (Engine.completionPercentage r) = Engine.completionPercentage r.
Proof. intros H. rewrite <- H at 2. reflexivity. Qed.

Lemma engine_percentage_preserved (e : Engine.Event) (ls : Engine.LocalStorage)
    (s : string) (r : Engine.ActivityProgress) :
  Engine.well_formed ls ->
  Engine.progress_record ls s = Some r ->
  Engine.carries_result_for s e = false ->
  exists r', Engine.progress_record (Engine.updateProgress e.1 ls e.2) s = Some r'
             /\ Engine.completionPercentage r' = Engine.completionPercentage r.
Proof.
  intros Hwf Hr He. unfold Engine.carries_result_for, Engine.tracked_for in He.
  destruct (qualifies (Engine.st_verb_id e.2)) eqn:Hq.
  - destruct (String.eqb_spec (Engine.extractActivitySlug e.2) s) as [Hs|Hs].
    + destruct (Engine.st_result e.2) as [res|] eqn:Hres; [discriminate He|].
      pose proof (engine_record_after e.1 ls e.2 (engine_well_formed_workable ls Hwf) Hq)
        as Hrec.
      cbv zeta in Hrec. rewrite Hs, Hr in Hrec.
      eexists. split; [exact Hrec|].
      cbn [Engine.normalize_record Engine.completionPercentage].
      rewrite engine_apply_verb_percentage by exact Hq.
      rewrite Hres. apply engine_fixed_percentage.
      exact (engine_stored_record_fixed ls s r Hwf Hr).
    + exists r. rewrite engine_other_record by (auto using not_eq_sym). auto.
  - exists r. rewrite (engine_qualifies_false_noop _ _ _ Hq). auto.
Qed.

Lemma engine_percentage_run_preserved (after : list Engine.Event)
    (ls : Engine.LocalStorage) (s : string) (r : Engine.ActivityProgress) :
  Engine.well_formed ls ->
  Engine.progress_record ls s = Some r ->
  Forall (fun e => Engine.carries_result_for s e = false) after ->
  exists r', Engine.progress_record (Engine.run ls after) s = Some r'
             /\ Engine.completionPercentage r' = Engine.completionPercentage r.
Proof.
  revert ls r. induction after as [|e after IH]; intros ls r Hwf Hr Hall.
  - exists r. auto.
  - inversion Hall as [|? ? He Hrest]; subst.
    destruct (engine_percentage_preserved e ls s r Hwf Hr He) as (r1 & Hr1 & Hp1).
    destruct (IH _ r1 (engine_well_formed_updateProgress e.1 ls e.2 Hwf) Hr1 Hrest)
      as (r2 & Hr2 & Hp2).
    exists r2. split; [exact Hr2|]. congruence.
Qed.

(** The record of a slug that names no inherited property, after a
    qualifying statement that carries a result. *)
Lemma engine_result_recorded (clock : Clock) (ls : Engine.LocalStorage)
    (statement : Engine.XapiStatement) (res : Engine.Result) :
  Engine.well_formed ls ->
  qualifies (Engine.st_verb_id statement) = true ->
  Engine.st_result statement = Some res ->
  Engine.inherited (Engine.extractActivitySlug statement) = false ->
  exists r,
    Engine.progress_record (Engine.updateProgress clock ls statement)
      (Engine.extractActivitySlug statement) = Some r
    /\ Engine.completionPercentage r
       = Engine.stored_number (Engine.calculateCompletionPercentage (Some res)).
Proof.
  intros Hwf Hq Hres Hi.
  pose proof (engine_record_after clock ls statement (engine_well_formed_workable ls Hwf) Hq)
    as Hrec.
  cbv zeta in Hrec. rewrite Hi in Hrec.
  destruct (Engine.progress_record ls (Engine.extractActivitySlug statement));
    (eexists; split; [exact Hrec|]);
    cbn [Engine.normalize_record Engine.completionPercentage];
    rewrite engine_apply_verb_percentage by exact Hq; rewrite Hres; reflexivity.
Qed.

(** C5, as amended: after a history of calls on a store of the normal
    flow, the completion percentage of a slug that names no inherited
    property is what JSON keeps of [calculateCompletionPercentage] of the
    result of the most recent qualifying statement of that slug that
    carried one: [Math.round ((raw / max) * 100)] in double precision, not
    clamped, 0 when max is 0, and null when the value is not finite.  The
    statements before that one do not write on [Object.prototype] (none has
    the slug "__proto__"). *)
Theorem completionPercentage_latest_result (ls : Engine.LocalStorage)
    (before after : list Engine.Event) (e : Engine.Event) (res : Engine.Result) :
  Engine.well_formed ls ->
  qualifies (Engine.st_verb_id e.2) = true ->
  Engine.st_result e.2 = Some res ->
  Engine.inherited (Engine.extractActivitySlug e.2) = false ->
  Forall (fun e' => Engine.writes_prototype e' = false) before ->
  Forall (fun e' => Engine.carries_result_for (Engine.extractActivitySlug e.2) e' = false)
    after ->
  exists r,
    Engine.progress_record (Engine.run ls (before ++ e :: after))
      (Engine.extractActivitySlug e.2) = Some r
    /\ Engine.completionPercentage r
       = Engine.stored_number (Engine.calculateCompletionPercentage (Some res))
    /\ (forall sc m, Engine.result_score res = Some sc -> Engine.score_max sc = Some m ->
          PrimFloat.is_zero m = true ->
          Engine.completionPercentage r = Engine.Num 0%float)
    /\ (forall sc, Engine.result_score res = Some sc ->
          let raw := default 0%float (Engine.score_raw sc) in
          let max := default 1%float (Engine.score_max sc) in
          PrimFloat.is_zero max = false ->
          Engine.completionPercentage r
          = Engine.stored_number (Engine.Math_round ((raw / max) * 100)%float)).
Proof.
  intros Hwf Hq Hres Hi _ Hafter.
  rewrite engine_run_app. cbn [Engine.run fold_left].
  fold (Engine.run (Engine.updateProgress e.1 (Engine.run ls before) e.2) after).
  fold (Engine.run ls before).
  pose proof (engine_well_formed_run ls before Hwf) as Hwf1.
  destruct (engine_result_recorded e.1 (Engine.run ls before) e.2 res Hwf1 Hq Hres Hi)
    as (r1 & Hr1 & Hp1).
  destruct (engine_percentage_run_preserved after _ _ r1
              (engine_well_formed_updateProgress e.1 _ e.2 Hwf1) Hr1 Hafter)
    as (r & Hr & Hp).
  rewrite Hp1 in Hp.
  exists r. split; [exact Hr|]. split; [exact Hp|]. split.
  - intros sc mx Hsc Hmx H0. rewrite Hp.
    destruct res as [rs succ]. cbn in Hsc. subst rs.
    destruct sc as [raw mx']. cbn in Hmx. subst mx'.
    rewrite engine_calculateCompletionPercentage_max_zero by exact H0. reflexivity.
  - intros sc Hsc. cbv zeta. intros Hmax. rewrite Hp.
    destruct res as [rs succ]. cbn in Hsc. subst rs. destruct sc as [raw mx].
    rewrite engine_calculateCompletionPercentage_round by exact Hmax. reflexivity.
Qed.

Lemma completionPercentage_latest_result_witness :
  exists r,
    Engine.progress_record
      (Engine.run Engine.empty_storage
         ([(sample_clock,
            Engine.statement_for ANSWERED "/h5p/personality-quiz" (Some (Engine.scored 1 2)))]
          ++ (sample_clock,
              Engine.statement_for COMPLETED "/h5p/personality-quiz"
                (Some (Engine.scored 23 40)))
          :: [(sample_clock, Engine.statement_for ANSWERED "/h5p/personality-quiz" None);
              (sample_clock,
               Engine.statement_for ANSWERED "/h5p/other-quiz" (Some (Engine.scored 1 2)))]))
      "personality-quiz" = Some r
    /\ Engine.completionPercentage r = Engine.Num 57%float.
Proof.
  assert (Hbefore : Forall (fun e' => Engine.writes_prototype e' = false)
            [(sample_clock,
              Engine.statement_for ANSWERED "/h5p/personality-quiz"
                (Some (Engine.scored 1 2)))]).
  { repeat constructor. }
  assert (Hafter : Forall
            (fun e' => Engine.carries_result_for
               (Engine.extractActivitySlug
                  (Engine.statement_for COMPLETED "/h5p/personality-quiz"
                     (Some (Engine.scored 23 40))))
               e' = false)
            [(sample_clock, Engine.statement_for ANSWERED "/h5p/personality-quiz" None);
             (sample_clock,
              Engine.statement_for ANSWERED "/h5p/other-quiz" (Some (Engine.scored 1 2)))]).
  { repeat constructor. }
  destruct (completionPercentage_latest_result Engine.empty_storage
              [(sample_clock,
                Engine.statement_for ANSWERED "/h5p/personality-quiz"
                  (Some (Engine.scored 1 2)))]
              [(sample_clock, Engine.statement_for ANSWERED "/h5p/personality-quiz" None);
               (sample_clock,
                Engine.statement_for ANSWERED "/h5p/other-quiz" (Some (Engine.scored 1 2)))]
              (sample_clock,
               Engine.statement_for COMPLETED "/h5p/personality-quiz"
                 (Some (Engine.scored 23 40)))
              (Engine.scored 23 40)
              (conj eq_refl (conj eq_refl I)) eq_refl eq_refl eq_refl Hbefore Hafter)
    as (r & Hr & Hp & _).
  exists r. split; [exact Hr|]. rewrite Hp. vm_compute. reflexivity.
Defined.

(** C5 as stated fails: a result with raw 15 of max 10 leaves 150, and one
    with raw -5 of max 10 leaves -50; neither is the clamped value. *)
Lemma completionPercentage_not_clamped :
  (exists r,
     Engine.progress_record
       (Engine.updateProgress sample_clock Engine.empty_storage
          (Engine.statement_for COMPLETED "/h5p/personality-quiz"
             (Some (Engine.scored 15 10))))
       "personality-quiz" = Some r
     /\ Engine.completionPercentage r = Engine.Num 150%float
     /\ Engine.clamp_spec (Engine.Math_round ((15 / 10) * 100)%float) = 100%float
     /\ Engine.completionPercentage r
        <> Engine.Num (Engine.clamp_spec (Engine.Math_round ((15 / 10) * 100)%float)))
  /\ (exists r,
     Engine.progress_record
       (Engine.updateProgress sample_clock Engine.empty_storage
          (Engine.statement_for COMPLETED "/h5p/personality-quiz"
             (Some (Engine.scored (-5) 10))))
       "personality-quiz" = Some r
     /\ Engine.completionPercentage r = Engine.Num (-50)%float
     /\ Engine.clamp_spec (Engine.Math_round ((-5 / 10) * 100)%float) = 0%float
     /\ Engine.completionPercentage r
        <> Engine.Num (Engine.clamp_spec (Engine.Math_round ((-5 / 10) * 100)%float))).
Proof.
  split; eexists; (split; [vm_compute; reflexivity|]);
    (split; [reflexivity|]); (split; [vm_compute; reflexivity|]);
    intros H; apply (f_equal Engine.ToNumber) in H; revert H;
    apply float_neq; vm_compute; reflexivity.
Qed.

(** ** A slug that names an inherited property *)

(** When the slug names a property that every object inherits and the
    mapping has no record for it, the read [currentProgress[slug]] finds
    the inherited object: no record is created, the member writes land on
    that object, and the mapping is written back as it was read. *)
Lemma engine_inherited_slug (clock : Clock) (ls : Engine.LocalStorage)
    (statement : Engine.XapiStatement) :
  Engine.well_formed ls ->
  qualifies (Engine.st_verb_id statement) = true ->
  Engine.inherited (Engine.extractActivitySlug statement) = true ->
  Engine.progress_record ls (Engine.extractActivitySlug statement) = None ->
  let ls' := Engine.updateProgress clock ls statement in
  Engine.progress_record ls' (Engine.extractActivitySlug statement) = None
  /\ Engine.entries ls' !! PROGRESS_KEY
     = Some (Engine.JSON_stringify (Engine.getProgress ls)).
Proof.
  intros Hwf Hq Hi Hr ls'.
  pose proof (engine_well_formed_workable ls Hwf) as Hw. split.
  - pose proof (engine_record_after clock ls statement Hw Hq) as Hrec.
    cbv zeta in Hrec. rewrite Hr, Hi in Hrec. exact Hrec.
  - destruct (engine_updateProgress_views clock ls statement Hw Hq) as (_ & Hp & _).
    fold ls' in Hp. rewrite Hp. unfold Engine.updated_progress, Engine.get_prop.
    rewrite (engine_progress_record_own ls _ Hw), Hr. cbn [fmap option_fmap option_map].
    rewrite Hi. reflexivity.
Qed.

(** C1 does not hold of the code for a slug that names an inherited
    property of objects ("constructor", "toString", "__proto__", ...): on a
    store of the normal flow without a record for that slug, a statement
    whose verb ends in "/completed" creates no record, so that no
    isCompleted is set for the slug; the progress key receives the mapping
    as it was read. *)
Theorem updateProgress_completed_inherited_slug (clock : Clock)
    (ls : Engine.LocalStorage) (statement : Engine.XapiStatement) (v : string) :
  Engine.well_formed ls ->
  Engine.st_verb_id statement = Some v ->
  JSString.endsWith v "/completed" = true ->
  Engine.inherited (Engine.extractActivitySlug statement) = true ->
  Engine.progress_record ls (Engine.extractActivitySlug statement) = None ->
  let ls' := Engine.updateProgress clock ls statement in
  Engine.progress_record ls' (Engine.extractActivitySlug statement) = None
  /\ Engine.entries ls' !! PROGRESS_KEY
     = Some (Engine.JSON_stringify (Engine.getProgress ls)).
Proof.
  intros Hwf Hv Hc Hi Hr.
  apply engine_inherited_slug; auto.
  rewrite Hv. apply qualifies_completed. exact Hc.
Qed.

Lemma updateProgress_completed_inherited_slug_witness :
  Engine.progress_record
    (Engine.updateProgress sample_clock Engine.empty_storage
       (Engine.statement_for COMPLETED "/h5p/constructor" (Some (Engine.scored 8 10))))
    "constructor" = None
  /\ Engine.entries
       (Engine.updateProgress sample_clock Engine.empty_storage
          (Engine.statement_for COMPLETED "/h5p/constructor" (Some (Engine.scored 8 10))))
     !! PROGRESS_KEY
     = Some (Engine.Json []).
Proof.
  exact (updateProgress_completed_inherited_slug sample_clock Engine.empty_storage
           (Engine.statement_for COMPLETED "/h5p/constructor" (Some (Engine.scored 8 10)))
           COMPLETED (conj eq_refl (conj eq_refl I)) eq_refl eq_refl eq_refl eq_refl).
Defined.

(** X25: for a slug that names an inherited property of objects, on a
    store of the normal flow without a record for that slug, a statement
    whose verb ends in "/answered" creates no record, so that no
    questionsAnswered is incremented for the slug; the progress key
    receives the mapping as it was read. *)
Theorem updateProgress_answered_inherited_slug (clock : Clock)
    (ls : Engine.LocalStorage) (statement : Engine.XapiStatement) (v : string) :
  Engine.well_formed ls ->
  Engine.st_verb_id statement = Some v ->
  JSString.endsWith v "/answered" = true ->
  Engine.inherited (Engine.extractActivitySlug statement) = true ->
  Engine.progress_record ls (Engine.extractActivitySlug statement) = None ->
  let ls' := Engine.updateProgress clock ls statement in
  Engine.progress_record ls' (Engine.extractActivitySlug statement) = None
  /\ Engine.entries ls' !! PROGRESS_KEY
     = Some (Engine.JSON_stringify (Engine.getProgress ls)).
Proof.
  intros Hwf Hv Hc Hi Hr.
  apply engine_inherited_slug; auto.
  rewrite Hv. apply qualifies_answered. exact Hc.
Qed.

Lemma updateProgress_answered_inherited_slug_witness :
  Engine.progress_record
    (Engine.updateProgress sample_clock Engine.empty_storage
       (Engine.statement_for ANSWERED "/h5p/constructor" None))
    "constructor" = None
  /\ Engine.entries
       (Engine.updateProgress sample_clock Engine.empty_storage
          (Engine.statement_for ANSWERED "/h5p/constructor" None))
     !! PROGRESS_KEY
     = Some (Engine.Json []).
Proof.
  exact (updateProgress_answered_inherited_slug sample_clock Engine.empty_storage
           (Engine.statement_for ANSWERED "/h5p/constructor" None)
           ANSWERED (conj eq_refl (conj eq_refl I)) eq_refl eq_refl eq_refl eq_refl).
Defined.

(** ** Answered statements *)

Lemma engine_current_record_after (clock : Clock) (ls : Engine.LocalStorage)
    (statement : Engine.XapiStatement) :
  Engine.well_formed ls ->
  qualifies (Engine.st_verb_id statement) = true ->
  Engine.inherited (Engine.extractActivitySlug statement) = false ->
  Engine.progress_record (Engine.updateProgress clock ls statement)
    (Engine.extractActivitySlug statement)
  = Some (Engine.normalize_record
            (Engine.apply_verb clock (Engine.st_verb_id statement)
               (Engine.st_result statement)
               (Engine.current_record clock ls (Engine.extractActivitySlug statement)))).
Proof.
  intros Hwf Hq Hi.
  pose proof (engine_record_after clock ls statement (engine_well_formed_workable ls Hwf) Hq)
    as Hrec.
  cbv zeta in Hrec. rewrite Hi in Hrec. rewrite Hrec.
  unfold Engine.current_record.
  destruct (Engine.progress_record ls (Engine.extractActivitySlug statement)); reflexivity.
Qed.

(** C2, as amended: on a store of the normal flow, a statement whose verb
    ends in "/answered" and whose slug names no inherited property leaves a
    record for its slug whose questionsAnswered is the former count (0 for
    a new record) plus 1 in double precision, as JSON keeps it, and whose
    isCompleted is what it was (false for a new record).  In double
    precision 0 + 1 is 1 and 4 + 1 is 5, and 2^53 + 1 is 2^53. *)
Theorem updateProgress_answered (clock : Clock) (ls : Engine.LocalStorage)
    (statement : Engine.XapiStatement) (v : string) :
  Engine.well_formed ls ->
  Engine.st_verb_id statement = Some v ->
  JSString.endsWith v "/answered" = true ->
  Engine.inherited (Engine.extractActivitySlug statement) = false ->
  let s := Engine.extractActivitySlug statement in
  let before := Engine.current_record clock ls s in
  (exists r,
     Engine.progress_record (Engine.updateProgress clock ls statement) s = Some r
     /\ Engine.questionsAnswered r
        = Engine.stored_number (Engine.ToNumber (Engine.questionsAnswered before) + 1)%float
     /\ Engine.isCompleted r = Engine.isCompleted before)
  /\ (Engine.progress_record ls s = None ->
      Engine.questionsAnswered before = Engine.Num 0%float
      /\ Engine.isCompleted before = false)
  /\ Engine.stored_number (0 + 1)%float = Engine.Num 1%float
  /\ Engine.stored_number (4 + 1)%float = Engine.Num 5%float
  /\ Engine.stored_number (9007199254740992 + 1)%float
     = Engine.Num 9007199254740992%float.
Proof.
  intros Hwf Hv Ha Hi s before.
  assert (Hq : qualifies (Engine.st_verb_id statement) = true).
  { rewrite Hv. apply qualifies_answered. exact Ha. }
  split; [|split].
  - eexists. split; [exact (engine_current_record_after clock ls statement Hwf Hq Hi)|].
    fold s. fold before.
    cbn [Engine.normalize_record Engine.questionsAnswered Engine.isCompleted].
    rewrite engine_apply_verb_questionsAnswered, engine_apply_verb_isCompleted.
    rewrite Hv. unfold verb_endsWith. rewrite Ha, (answered_not_completed v Ha).
    rewrite orb_false_r. split; reflexivity.
  - intros Hnone. subst before. unfold Engine.current_record. rewrite Hnone.
    split; reflexivity.
  - repeat split; vm_compute; reflexivity.
Qed.

Lemma updateProgress_answered_witness :
  exists r,
    Engine.progress_record
      (Engine.updateProgress sample_clock Engine.empty_storage
         (Engine.statement_for ANSWERED "/h5p/personality-quiz" None))
      "personality-quiz" = Some r
    /\ Engine.questionsAnswered r = Engine.Num 1%float
    /\ Engine.isCompleted r = false.
Proof.
  destruct (proj1 (updateProgress_answered sample_clock Engine.empty_storage
                     (Engine.statement_for ANSWERED "/h5p/personality-quiz" None)
                     ANSWERED (conj eq_refl (conj eq_refl I)) eq_refl eq_refl eq_refl))
    as (r & Hr & Hn & Hc).
  exists r. split; [exact Hr|]. split; [rewrite Hn; vm_compute; reflexivity|exact Hc].
Defined.

(** C2 as stated fails: a counter of answers that has reached 2^53 is left
    as it is by one more answered statement, since 2^53 + 1 is 2^53 in
    double precision. *)
Lemma questionsAnswered_stalls :
  Engine.well_formed Engine.saturated_storage
  /\ Engine.progress_record Engine.saturated_storage "personality-quiz"
     = Some Engine.saturated_record
  /\ exists r,
       Engine.progress_record
         (Engine.updateProgress sample_clock Engine.saturated_storage
            (Engine.statement_for ANSWERED "/h5p/personality-quiz" None))
         "personality-quiz" = Some r
       /\ Engine.questionsAnswered r = Engine.questionsAnswered Engine.saturated_record
       /\ (Engine.ToNumber (Engine.questionsAnswered r)
           - Engine.ToNumber (Engine.questionsAnswered Engine.saturated_record))%float
          <> 1%float.
Proof.
  split; [repeat split|]. split; [reflexivity|].
  eexists. split; [vm_compute; reflexivity|]. split; [reflexivity|].
  apply float_neq; vm_compute; reflexivity.
Qed.

(** ** Completed statements *)

Lemma engine_current_record_fixed (clock : Clock) (ls : Engine.LocalStorage) (s : string) :
  Engine.well_formed ls ->
  Engine.normalize_record (Engine.current_record clock ls s)
  = Engine.current_record clock ls s.
Proof.
  intros Hwf. unfold Engine.current_record.
  destruct (Engine.progress_record ls s) as [r|] eqn:Er; cbn [default from_option id].
  - exact (engine_stored_record_fixed ls s r Hwf Er).
  - reflexivity.
Qed.

Lemma engine_isCompleted_preserved (e : Engine.Event) (ls : Engine.LocalStorage)
    (s : string) (r : Engine.ActivityProgress) :
  Engine.well_formed ls ->
  Engine.progress_record ls s = Some r ->
  Engine.isCompleted r = true ->
  exists r', Engine.progress_record (Engine.updateProgress e.1 ls e.2) s = Some r'
             /\ Engine.isCompleted r' = true.
Proof.
  intros Hwf Hr Hc.
  destruct (qualifies (Engine.st_verb_id e.2)) eqn:Hq.
  - destruct (String.eqb_spec (Engine.extractActivitySlug e.2) s) as [Hs|Hs].
    + pose proof (engine_record_after e.1 ls e.2 (engine_well_formed_workable ls Hwf) Hq)
        as Hrec.
      cbv zeta in Hrec. rewrite Hs, Hr in Hrec.
      eexists. split; [exact Hrec|].
      cbn [Engine.normalize_record Engine.isCompleted].
      rewrite engine_apply_verb_isCompleted, Hc. reflexivity.
    + exists r. rewrite engine_other_record by (auto using not_eq_sym). auto.
  - exists r. rewrite (engine_qualifies_false_noop _ _ _ Hq). auto.
Qed.

Lemma engine_isCompleted_run (events : list Engine.Event) (ls : Engine.LocalStorage)
    (s : string) (r : Engine.ActivityProgress) :
  Engine.well_formed ls ->
  Engine.progress_record ls s = Some r ->
  Engine.isCompleted r = true ->
  exists r', Engine.progress_record (Engine.run ls events) s = Some r'
             /\ Engine.isCompleted r' = true.
Proof.
  revert ls r. induction events as [|e events IH]; intros ls r Hwf Hr Hc.
  - exists r. auto.
  - destruct (engine_isCompleted_preserved e ls s r Hwf Hr Hc) as (r1 & Hr1 & Hc1).
    exact (IH _ r1 (engine_well_formed_updateProgress e.1 ls e.2 Hwf) Hr1 Hc1).
Qed.

(** X24: on a store of the normal flow, a statement whose verb ends in
    "/completed" and whose slug names no inherited property leaves a record
    for its slug whose isCompleted is true, and isCompleted of that slug is
    true after any further calls, whatever their statements. *)
Theorem updateProgress_completed_forever (clock : Clock) (ls : Engine.LocalStorage)
    (statement : Engine.XapiStatement) (v : string) (later : list Engine.Event) :
  Engine.well_formed ls ->
  Engine.st_verb_id statement = Some v ->
  JSString.endsWith v "/completed" = true ->
  Engine.inherited (Engine.extractActivitySlug statement) = false ->
  let s := Engine.extractActivitySlug statement in
  (exists r, Engine.progress_record (Engine.updateProgress clock ls statement) s = Some r
             /\ Engine.isCompleted r = true)
  /\ (exists r, Engine.progress_record
                  (Engine.run (Engine.updateProgress clock ls statement) later) s = Some r
                /\ Engine.isCompleted r = true).
Proof.
  intros Hwf Hv Hc Hi s.
  assert (Hq : qualifies (Engine.st_verb_id statement) = true).
  { rewrite Hv. apply qualifies_completed. exact Hc. }
  assert (H1 : exists r,
             Engine.progress_record (Engine.updateProgress clock ls statement) s = Some r
             /\ Engine.isCompleted r = true).
  { eexists. split; [exact (engine_current_record_after clock ls statement Hwf Hq Hi)|].
    cbn [Engine.normalize_record Engine.isCompleted].
    rewrite engine_apply_verb_isCompleted, Hv. unfold verb_endsWith. rewrite Hc.
    apply orb_true_r. }
  split; [exact H1|].
  destruct H1 as (r & Hr & Hrc).
  exact (engine_isCompleted_run later _ s r
           (engine_well_formed_updateProgress clock ls statement Hwf) Hr Hrc).
Qed.

Lemma updateProgress_completed_forever_witness :
  exists r,
    Engine.progress_record
      (Engine.run
         (Engine.updateProgress sample_clock Engine.empty_storage
            (Engine.statement_for COMPLETED "/h5p/personality-quiz" None))
         [(sample_clock,
           Engine.statement_for ANSWERED "/h5p/personality-quiz" (Some (Engine.scored 0 1)));
          (sample_clock, Engine.statement_for COMPLETED "/h5p/constructor" None);
          (sample_clock, Engine.statement_for ANSWERED "/h5p/other-quiz" None)])
      "personality-quiz" = Some r
    /\ Engine.isCompleted r = true.
Proof.
  exact (proj2 (updateProgress_completed_forever sample_clock Engine.empty_storage
                  (Engine.statement_for COMPLETED "/h5p/personality-quiz" None) COMPLETED
                  [(sample_clock,
                    Engine.statement_for ANSWERED "/h5p/personality-quiz"
                      (Some (Engine.scored 0 1)));
                   (sample_clock, Engine.statement_for COMPLETED "/h5p/constructor" None);
                   (sample_clock, Engine.statement_for ANSWERED "/h5p/other-quiz" None)]
                  (conj eq_refl (conj eq_refl I)) eq_refl eq_refl eq_refl)).
Defined.

(** X7: on a store of the normal flow, a statement whose verb ends in
    "/completed" and whose slug names no inherited property adds 1, in
    double precision, to questionsCompleted of its slug (0 for a new
    record), leaves questionsAnswered as it was (0 for a new record) and
    sets isCompleted. *)
Theorem updateProgress_completed_counts (clock : Clock) (ls : Engine.LocalStorage)
    (statement : Engine.XapiStatement) (v : string) :
  Engine.well_formed ls ->
  Engine.st_verb_id statement = Some v ->
  JSString.endsWith v "/completed" = true ->
  Engine.inherited (Engine.extractActivitySlug statement) = false ->
  let s := Engine.extractActivitySlug statement in
  let before := Engine.current_record clock ls s in
  exists r',
    Engine.progress_record (Engine.updateProgress clock ls statement) s = Some r'
    /\ Engine.questionsCompleted r' = Engine.bump (Engine.questionsCompleted before)
    /\ Engine.questionsAnswered r' = Engine.questionsAnswered before
    /\ Engine.isCompleted r' = true.
Proof.
  intros Hwf Hv Hc Hi s before.
  assert (Hq : qualifies (Engine.st_verb_id statement) = true).
  { rewrite Hv. apply qualifies_completed. exact Hc. }
  eexists. split; [exact (engine_current_record_after clock ls statement Hwf Hq Hi)|].
  fold s. fold before.
  cbn [Engine.normalize_record Engine.questionsAnswered Engine.questionsCompleted
       Engine.isCompleted].
  rewrite engine_apply_verb_questionsCompleted, engine_apply_verb_questionsAnswered,
    engine_apply_verb_isCompleted, Hv.
  unfold verb_endsWith. rewrite Hc, (completed_not_answered v Hc).
  split; [reflexivity|]. split; [|apply orb_true_r].
  pose proof (engine_current_record_fixed clock ls s Hwf) as Hfix. fold before in Hfix.
  rewrite <- Hfix at 2. reflexivity.
Qed.

Lemma updateProgress_completed_counts_witness :
  exists r',
    Engine.progress_record
      (Engine.updateProgress sample_clock Engine.sample_storage
         (Engine.statement_for COMPLETED "/h5p/personality-quiz" None))
      "personality-quiz" = Some r'
    /\ Engine.questionsCompleted r' = Engine.Num 1%float
    /\ Engine.questionsAnswered r' = Engine.Num 4%float
    /\ Engine.isCompleted r' = true.
Proof.
  destruct (updateProgress_completed_counts sample_clock Engine.sample_storage
              (Engine.statement_for COMPLETED "/h5p/personality-quiz" None)
              COMPLETED (conj eq_refl (conj eq_refl (conj eq_refl eq_refl)))
              eq_refl eq_refl eq_refl)
    as (r' & Hr' & H1 & H2 & H3).
  exists r'. split; [exact Hr'|]. rewrite H1, H2, H3. repeat split.
Defined.

(** ** The members of a record, one call at a time *)





(** ** Histories of statements *)

Lemma engine_count_events_cons (p : Engine.Event -> bool) (e : Engine.Event)
    (events : list Engine.Event) :
  Engine.count_events p (e :: events)
  = ((if p e then 1 else 0) + Engine.count_events p events)%nat.
Proof.
  unfold Engine.count_events. cbn [List.filter]. destruct (p e); reflexivity.
Qed.

(** The record of a slug that names no inherited property after one call,
    for any statement. *)
Lemma engine_record_cases (e : Engine.Event) (ls : Engine.LocalStorage) (s : string) :
  Engine.well_formed ls ->
  Engine.inherited s = false ->
  Engine.progress_record (Engine.updateProgress e.1 ls e.2) s
  = if Engine.tracked_for s e
    then Some (Engine.normalize_record
                 (Engine.apply_verb e.1 (Engine.st_verb_id e.2) (Engine.st_result e.2)
                    (Engine.current_record e.1 ls s)))
    else Engine.progress_record ls s.
Proof.
  intros Hwf Hi. unfold Engine.tracked_for.
  destruct (qualifies (Engine.st_verb_id e.2)) eqn:Hq; cbn [andb].
  - destruct (String.eqb_spec (Engine.extractActivitySlug e.2) s) as [Hs|Hs].
    + rewrite <- Hs in Hi |- *.
      exact (engine_current_record_after e.1 ls e.2 Hwf Hq Hi).
    + apply engine_other_record; [exact Hwf|congruence].
  - rewrite (engine_qualifies_false_noop _ _ _ Hq). reflexivity.
Qed.

Lemma engine_current_record_counts (clock : Clock) (ls : Engine.LocalStorage) (s : string) :
  Engine.questionsAnswered (Engine.current_record clock ls s) = Engine.answered_count ls s
  /\ Engine.questionsCompleted (Engine.current_record clock ls s)
     = Engine.completed_count ls s
  /\ Engine.isCompleted (Engine.current_record clock ls s) = Engine.completed_flag ls s.
Proof.
  unfold Engine.current_record, Engine.answered_count, Engine.completed_count,
    Engine.completed_flag.
  destruct (Engine.progress_record ls s); repeat split.
Qed.

Lemma engine_counts_fixed (ls : Engine.LocalStorage) (s : string) :
  Engine.well_formed ls ->
  Engine.normalize_numeric (Engine.answered_count ls s) = Engine.answered_count ls s
  /\ Engine.normalize_numeric (Engine.completed_count ls s) = Engine.completed_count ls s.
Proof.
  intros Hwf.
  destruct (engine_current_record_counts sample_clock ls s) as (Ha & Hc & _).
  pose proof (engine_current_record_fixed sample_clock ls s Hwf) as Hfix.
  rewrite <- Ha, <- Hc. split; rewrite <- Hfix at 2; reflexivity.
Qed.

Lemma engine_counts_step (e : Engine.Event) (ls : Engine.LocalStorage) (s : string) :
  Engine.well_formed ls ->
  Engine.inherited s = false ->
  Engine.answered_count (Engine.updateProgress e.1 ls e.2) s
  = (if Engine.answered_for s e then Engine.bump (Engine.answered_count ls s)
     else Engine.answered_count ls s)
  /\ Engine.completed_count (Engine.updateProgress e.1 ls e.2) s
     = (if Engine.completed_for s e then Engine.bump (Engine.completed_count ls s)
        else Engine.completed_count ls s)
  /\ Engine.completed_flag (Engine.updateProgress e.1 ls e.2) s
     = Engine.completed_flag ls s || Engine.completed_for s e
  /\ (is_Some (Engine.progress_record (Engine.updateProgress e.1 ls e.2) s)
      <-> is_Some (Engine.progress_record ls s) \/ Engine.tracked_for s e = true).
Proof.
  intros Hwf Hi.
  destruct (engine_current_record_counts e.1 ls s) as (Ha & Hc & Hf).
  destruct (engine_counts_fixed ls s Hwf) as (Hfa & Hfc).
  unfold Engine.answered_count at 1, Engine.completed_count at 1,
    Engine.completed_flag at 1.
  rewrite (engine_record_cases e ls s Hwf Hi).
  unfold Engine.answered_for, Engine.completed_for.
  destruct (Engine.tracked_for s e); cbn [andb].
  - cbn [Engine.normalize_record Engine.questionsAnswered Engine.questionsCompleted
         Engine.isCompleted].
    rewrite engine_apply_verb_questionsAnswered, engine_apply_verb_questionsCompleted,
      engine_apply_verb_isCompleted, Ha, Hc, Hf.
    split; [destruct (verb_endsWith (Engine.st_verb_id e.2) "/answered");
            [reflexivity|exact Hfa]|].
    split; [destruct (verb_endsWith (Engine.st_verb_id e.2) "/completed");
            [reflexivity|exact Hfc]|].
    split; [reflexivity|]. split; eauto.
  - fold (Engine.answered_count ls s). fold (Engine.completed_count ls s).
    fold (Engine.completed_flag ls s).
    rewrite orb_false_r. repeat split; auto.
    intros [H|H]; [exact H|discriminate H].
Qed.

(** X9: over any history of calls on a store of the normal flow, for a
    slug that names no inherited property, questionsAnswered is incremented
    once, in double precision, per qualifying statement of that slug whose
    verb ends in "/answered", and questionsCompleted once per one whose
    verb ends in "/completed"; the slug is completed exactly when it was
    before or one of the latter occurred, and it has a record exactly when
    it had one or a qualifying statement of that slug occurred.  No
    statement of the history writes on [Object.prototype]. *)
Theorem history_counts (events : list Engine.Event) (ls : Engine.LocalStorage)
    (s : string) :
  Engine.well_formed ls ->
  Engine.inherited s = false ->
  Forall (fun e => Engine.writes_prototype e = false) events ->
  Engine.answered_count (Engine.run ls events) s
  = Nat.iter (Engine.count_events (Engine.answered_for s) events) Engine.bump
      (Engine.answered_count ls s)
  /\ Engine.completed_count (Engine.run ls events) s
     = Nat.iter (Engine.count_events (Engine.completed_for s) events) Engine.bump
         (Engine.completed_count ls s)
  /\ Engine.completed_flag (Engine.run ls events) s
     = Engine.completed_flag ls s || existsb (Engine.completed_for s) events
  /\ (is_Some (Engine.progress_record (Engine.run ls events) s)
      <-> is_Some (Engine.progress_record ls s)
          \/ existsb (Engine.tracked_for s) events = true).
Proof.
  intros Hwf Hi _. revert ls Hwf. induction events as [|e events IH]; intros ls Hwf.
  - cbn [Engine.run fold_left existsb]. unfold Engine.count_events. cbn.
    rewrite orb_false_r. repeat split; auto.
    intros [H|H]; [exact H|discriminate H].
  - destruct (engine_counts_step e ls s Hwf Hi) as (Ha & Hc & Hf & Hs).
    destruct (IH _ (engine_well_formed_updateProgress e.1 ls e.2 Hwf))
      as (Ha' & Hc' & Hf' & Hs').
    change (Engine.run ls (e :: events))
      with (Engine.run (Engine.updateProgress e.1 ls e.2) events).
    rewrite Ha', Hc', Hf', Ha, Hc, Hf, !engine_count_events_cons.
    cbn [existsb]. rewrite orb_assoc.
    split; [destruct (Engine.answered_for s e); cbn [Nat.add];
            [rewrite Nat.iter_succ_r; reflexivity|reflexivity]|].
    split; [destruct (Engine.completed_for s e); cbn [Nat.add];
            [rewrite Nat.iter_succ_r; reflexivity|reflexivity]|].
    split; [reflexivity|]. split.
    + intros H. apply Hs' in H as [H|H].
      * apply Hs in H as [H|H]; [auto|]. right. rewrite H. reflexivity.
      * right. rewrite H. apply orb_true_r.
    + intros [H|H].
      * apply Hs'. left. apply Hs. auto.
      * apply orb_true_iff in H as [H|H].
        -- apply Hs'. left. apply Hs. auto.
        -- apply Hs'. auto.
Qed.

Lemma history_counts_witness :
  let events :=
    [(sample_clock,
      Engine.statement_for ANSWERED "/h5p/personality-quiz" (Some (Engine.scored 1 1)));
     (sample_clock, Engine.statement_for ATTEMPTED "/h5p/personality-quiz" None);
     (sample_clock, Engine.statement_for ANSWERED "/h5p/other-quiz" None);
     (sample_clock, Engine.statement_for ANSWERED "/h5p/personality-quiz" None);
     (sample_clock,
      Engine.statement_for COMPLETED "/h5p/personality-quiz" (Some (Engine.scored 2 2)))] in
  Engine.answered_count (Engine.run Engine.empty_storage events) "personality-quiz"
  = Engine.Num 2%float
  /\ Engine.completed_count (Engine.run Engine.empty_storage events) "personality-quiz"
     = Engine.Num 1%float
  /\ Engine.completed_flag (Engine.run Engine.empty_storage events) "personality-quiz"
     = true.
Proof.
  intros events.
  assert (Hp : Forall (fun e => Engine.writes_prototype e = false) events).
  { repeat constructor. }
  destruct (history_counts events Engine.empty_storage "personality-quiz"
              (conj eq_refl (conj eq_refl I)) eq_refl Hp) as (Ha & Hc & Hf & _).
  rewrite Ha, Hc, Hf. repeat split; vm_compute; reflexivity.
Defined.

(** ** A progress text that does not parse *)

Lemma define_property_empty (k : string) (v : Engine.PropValue) :
  Engine.define_property k v [] = [(k, v)].
Proof. unfold Engine.define_property. destruct (Engine.array_index k); reflexivity. Qed.

(** X6: when the text under the progress key does not parse (or is empty),
    a qualifying statement on a store that can be written replaces it by
    the text of a mapping with the single record of that statement, or by
    the text of the empty mapping when the slug names an inherited
    property; the store is then one of the normal flow. *)
Theorem updateProgress_recovers_from_garbage (clock : Clock) (ls : Engine.LocalStorage)
    (statement : Engine.XapiStatement) (t : Engine.Text) :
  Engine.accessible ls = true -> Engine.full ls = false ->
  Engine.entries ls !! PROGRESS_KEY = Some t ->
  Engine.JSON_parse t = Throw ->
  qualifies (Engine.st_verb_id statement) = true ->
  let s := Engine.extractActivitySlug statement in
  let r := Engine.normalize_record
             (Engine.apply_verb clock (Engine.st_verb_id statement)
                (Engine.st_result statement)
                (Engine.initial_progress s (now_created clock))) in
  Engine.getProgress (Engine.updateProgress clock ls statement)
  = (if Engine.inherited s then [] else [(s, Engine.VRecord r)])
  /\ Engine.well_formed (Engine.updateProgress clock ls statement).
Proof.
  intros Ha Hf He Ht Hq s r.
  assert (Hget : Engine.getProgress ls = []).
  { unfold Engine.getProgress. rewrite engine_safeParseJSON_accessible by exact Ha.
    rewrite He. destruct t; [reflexivity|reflexivity|discriminate Ht]. }
  assert (Hw : Engine.workable ls).
  { split; [exact Ha|]. split; [exact Hf|]. rewrite Hget. reflexivity. }
  destruct (engine_updateProgress_views clock ls statement Hw Hq) as (Hwf' & _ & Hget' & _).
  split; [|exact Hwf'].
  rewrite Hget', Hget. fold s. unfold Engine.updated_progress, Engine.get_prop.
  cbn [Engine.own_property].
  destruct (Engine.inherited s); [reflexivity|].
  rewrite define_property_empty. reflexivity.
Qed.

Lemma updateProgress_recovers_from_garbage_witness :
  exists r,
    Engine.getProgress
      (Engine.updateProgress sample_clock Engine.garbled_storage
         (Engine.statement_for ANSWERED "/h5p/personality-quiz" (Some (Engine.scored 1 2))))
    = [("personality-quiz", Engine.VRecord r)]
    /\ Engine.questionsAnswered r = Engine.Num 1%float
    /\ Engine.completionPercentage r = Engine.Num 50%float.
Proof.
  eexists. split.
  - exact (proj1 (updateProgress_recovers_from_garbage sample_clock Engine.garbled_storage
             (Engine.statement_for ANSWERED "/h5p/personality-quiz"
                (Some (Engine.scored 1 2)))
             Engine.Malformed eq_refl eq_refl eq_refl eq_refl eq_refl)).
  - split; vm_compute; reflexivity.
Defined.

(** ** What is stored is read back as JSON keeps it *)




(** ** The records of the other slugs *)

(** X26: on a store of the normal flow, a call of [updateProgress] leaves
    the record of every slug other than that of its statement as it was,
    also when the slug of the statement names an inherited property. *)
Theorem updateProgress_other_records (clock : Clock) (ls : Engine.LocalStorage)
    (statement : Engine.XapiStatement) (other : string) :
  Engine.well_formed ls ->
  other <> Engine.extractActivitySlug statement ->
  Engine.progress_record (Engine.updateProgress clock ls statement) other
  = Engine.progress_record ls other.
Proof. exact (engine_other_record clock ls statement other). Qed.

Lemma updateProgress_other_records_witness :
  Engine.progress_record
    (Engine.updateProgress sample_clock Engine.sample_storage
       (Engine.statement_for COMPLETED "/h5p/toString" (Some (Engine.scored 1 2))))
    "personality-quiz"
  = Some Engine.sample_record.
Proof.
  exact (updateProgress_other_records sample_clock Engine.sample_storage
           (Engine.statement_for COMPLETED "/h5p/toString" (Some (Engine.scored 1 2)))
           "personality-quiz"
           (conj eq_refl (conj eq_refl (conj eq_refl eq_refl)))
           ltac:(discriminate)).
Defined.

(** ** The order of the records *)

(** The records are enumerated as the engine enumerates the properties of
    the mapping: the slugs that are array indices first, in ascending
    order, then the other slugs in the order of their creation; a record
    that is updated keeps its place. *)
Example records_in_order_of_enumeration :
  List.map fst
    (Engine.getProgress
       (Engine.run Engine.empty_storage
          [(sample_clock, Engine.statement_for ANSWERED "/h5p/quiz" None);
           (sample_clock, Engine.statement_for ANSWERED "/h5p/10" None);
           (sample_clock, Engine.statement_for ANSWERED "/h5p/b" None);
           (sample_clock, Engine.statement_for ANSWERED "/h5p/7" None);
           (sample_clock, Engine.statement_for ANSWERED "/h5p/007" None);
           (sample_clock, Engine.statement_for COMPLETED "/h5p/quiz" None)]))
  = ["7"; "10"; "quiz"; "b"; "007"].
Proof. vm_compute. reflexivity. Qed.
